(** * SageMaker example notebooks: a verification development

    The repository is a collection of Jupyter notebooks.  Each notebook is
    a straight-line Python script that talks to the outside world: the
    SageMaker Python SDK, boto3, the local file system, the shell, a few
    third-party libraries and helper modules that sit next to the notebook.

    The notebooks are embedded as programs of a small state-and-exception
    monad.  Every statement that leaves the notebook kernel is one
    [effect]; the answer is chosen by a [handler], an arbitrary state
    machine standing for everything outside the kernel.  The kernel keeps a
    [journal] of the effects it performed, in program order.

    A notebook is read as the script "run all cells, top to bottom".
    Statements that only display a value ([print], [head], [shape], the
    counters and metrics printed after a prediction) are left out; the
    subscripts they evaluate are kept where they can raise. *)

From Stdlib Require Import Ascii String List ZArith Lia Bool DecimalString.
From Stdlib Require Import DecimalNat.
From Stdlib Require Import Sorting.Sorted Sorting.Permutation.
From stdpp Require Import base option list strings gmap sorting.
Import ListNotations.
Local Open Scope list_scope.
Local Open Scope string_scope.

(** ** Python values *)

(** Configuration objects handed to the SDK are plain Python data:
    strings, numbers, booleans, lists and keyword dictionaries.  Float
    literals are kept as written; [PObj] refers to an SDK object held in
    a notebook variable. *)
#[local] Set Warnings "-register-all".
Inductive pyval : Type :=
| PNone
| PBool (b : bool)
| PInt (z : Z)
| PFloat (literal : string)
| PStr (s : string)
| PObj (variable : string)
| PList (items : list pyval)
| PDict (items : list (string * pyval)).

Definition kwargs : Type := list (string * pyval).

(** [d[key]] on a keyword dictionary. *)
Fixpoint kw_get (key : string) (d : kwargs) : option pyval :=
  match d with
  | [] => None
  | (k, v) :: d' => if String.eqb k key then Some v else kw_get key d'
  end.

(** [obj.key = v]: overwrite the first binding or add one. *)
Fixpoint kw_set (key : string) (v : pyval) (d : kwargs) : kwargs :=
  match d with
  | [] => [(key, v)]
  | (k, w) :: d' =>
      if String.eqb k key then (k, v) :: d' else (k, w) :: kw_set key v d'
  end.

(** [str(v)] as used by string interpolation; only strings occur. *)
Definition py_str (v : pyval) : string :=
  match v with
  | PStr s => s
  | _ => ""
  end.

(** A Python exception: its class and its message. *)
Record exn : Type := Exn { exn_class : string; exn_msg : string }.

(** ** Data exchanged with libraries *)

(** A [pathlib.Path] is its tuple of parts. *)
Definition path : Type := list string.

(** A pandas [DataFrame]: column labels and rows, each row carrying its
    index label. *)
Record frame : Type := Frame {
  columns : list string;
  body : list (nat * list string)
}.

(** One split of an MNIST [DataSet]. *)
Record dataset : Type := DataSet {
  images : list pyval;
  labels : list pyval
}.

Record datasets : Type := DataSets {
  ds_train : dataset;
  ds_validation : dataset;
  ds_test : dataset
}.

(** A client-side SDK object (estimator, model): its class and the
    attributes the notebook gave it. *)
Record sdk_obj : Type := SdkObj {
  obj_class : string;
  obj_attrs : kwargs
}.

(** A [Predictor]: the endpoint it talks to and its mutable attributes. *)
Record predictor : Type := Predictor {
  endpoint : string;
  pr_attrs : kwargs
}.

(** ** Effects *)

(** One constructor per kind of statement that leaves the kernel.  The
    index is the type of the value the statement evaluates to. *)
Inductive effect : Type -> Type :=
(* SageMaker Python SDK, boto3, smexperiments *)
| GetExecutionRole : effect string
| BotoSession : effect unit
| BotoClient (service : string) : effect unit
| BotoResource (service : string) : effect unit
| SagemakerSession : effect unit
| RegionName : effect string
| DefaultBucket : effect string
| SdkVersion : effect string
| ExperimentList : effect (list string)
| ExperimentCreate (experiment_name : string) : effect string
| ExperimentLoad (experiment_name : string) : effect string
| TrialCreate (trial_name experiment_name : string) : effect string
| Construct (cls : string) (args : kwargs) : effect unit
| Fit (estimator : sdk_obj) (args : kwargs) : effect unit
| OutputPath (estimator : sdk_obj) : effect string
| CompileModel (estimator : sdk_obj) (args : kwargs) : effect sdk_obj
| Deploy (model : sdk_obj) (args : kwargs) : effect string
| Predict (p : predictor) (data : pyval) : effect pyval
| DeleteEndpoint (endpoint_name : string) : effect unit
| UploadData (local_path key_prefix : string) : effect string
| S3Upload (local_path desired_s3_uri : string) : effect string
| CreateBucket (bucket region : string) : effect unit
| Transformer (estimator : sdk_obj) (args : kwargs) : effect unit
| Transform (data : string) (args : kwargs) : effect unit
| TransformWait : effect unit
(* operating system: shell, files, clock *)
| Shell (cmd : string) : effect unit
| Strftime (format : string) : effect string
| Uuid4 : effect string
| PathExists (file : string) : effect bool
| FileWrite (file text : string) : effect unit
| FileAppend (file text : string) : effect unit
| FileRead (file : string) : effect string
| FileRemove (file : string) : effect unit
| Mkdir (dir : string) : effect unit
| Copy (src dst : string) : effect unit
| Rglob (root pattern : string) : effect (list path)
| PickleLoadLabels (file : string) : effect (list (nat * string))
| PickleLoadStr (file : string) : effect string
| PickleDumpStr (file : string) (value : string) : effect unit
| UrlRetrieve (url file : string) : effect unit
(* third-party libraries: pandas, numpy, tensorflow *)
| ReadCsv (file : string) : effect (list string * list (list string))
| SampleRows (n : nat) (frac : string) (random_state : nat) : effect (list nat)
| WriteCsv (file : string) (f : frame) : effect unit
| FrameToCsv (f : frame) : effect string
| ReadDataSets (dir : string) (args : kwargs) : effect datasets
| NpRandomRand (shape : list nat) : effect pyval
| NpArgmax (v : pyval) : effect pyval
| NpSave (data : pyval) : effect pyval
| DisplayImage (data : pyval) : effect unit
(* helper modules imported from the notebook's own directory *)
| LocalModule (module function : string) (args : list pyval) : effect pyval.

(** Who answers an effect. *)
Inductive origin : Type :=
| SDK
| OS
| Library
| InRepo.

Definition origin_of {A} (c : effect A) : origin :=
  match c with
  | GetExecutionRole | BotoSession | BotoClient _ | BotoResource _
  | SagemakerSession | RegionName | DefaultBucket | SdkVersion
  | ExperimentList | ExperimentCreate _ | ExperimentLoad _ | TrialCreate _ _
  | Construct _ _ | Fit _ _ | OutputPath _ | CompileModel _ _ | Deploy _ _
  | Predict _ _ | DeleteEndpoint _ | UploadData _ _ | S3Upload _ _
  | CreateBucket _ _ | Transformer _ _ | Transform _ _ | TransformWait => SDK
  | Shell _ | Strftime _ | Uuid4 | PathExists _ | FileWrite _ _
  | FileAppend _ _ | FileRead _ | FileRemove _ | Mkdir _ | Copy _ _
  | Rglob _ _ | PickleLoadLabels _ | PickleLoadStr _ | PickleDumpStr _ _
  | UrlRetrieve _ _ => OS
  | ReadCsv _ | SampleRows _ _ _ | WriteCsv _ _ | FrameToCsv _
  | ReadDataSets _ _ | NpRandomRand _ | NpArgmax _ | NpSave _
  | DisplayImage _ => Library
  | LocalModule _ _ _ => InRepo
  end.

(** ** The kernel monad *)

(** The world outside the kernel: given its state and an effect it
    either raises or returns, and moves to a new state. *)
Definition handler (W : Type) : Type :=
  forall A, effect A -> W -> (exn + A) * W.

(** One journal entry: the effect and how it ended. *)
Inductive event : Type :=
| Ev {A : Type} (c : effect A) (r : exn + A).

Record kernel (W : Type) : Type := Kernel {
  world : W;
  journal : list event
}.
Arguments Kernel {W} _ _.
Arguments world {W} _.
Arguments journal {W} _.

Definition M (W A : Type) : Type :=
  handler W -> kernel W -> (exn + A) * kernel W.

Definition ret {W A} (a : A) : M W A :=
  fun _ k => (inr a, k).

Definition bind {W A B} (m : M W A) (f : A -> M W B) : M W B :=
  fun h k =>
    match m h k with
    | (inr a, k') => f a h k'
    | (inl e, k') => (inl e, k')
    end.

(** [raise e] inside the notebook's own code. *)
Definition throw {W A} (e : exn) : M W A :=
  fun _ k => (inl e, k).

(** Perform one effect: ask the world, record the entry. *)
Definition perform {W A} (c : effect A) : M W A :=
  fun h k =>
    let '(r, w') := h A c (world k) in
    (r, Kernel w' (journal k ++ [Ev c r])%list).

Declare Scope nb_scope.
Delimit Scope nb_scope with nb.
Notation "x <- m ;; f" := (bind m (fun x => f))
  (at level 100, m at next level, right associativity) : nb_scope.
Notation "m ;;; f" := (bind m (fun _ => f))
  (at level 100, right associativity) : nb_scope.
Local Open Scope nb_scope.

(** [for x in xs: body x] *)
Fixpoint for_each {W A} (xs : list A) (body : A -> M W unit) : M W unit :=
  match xs with
  | [] => ret tt
  | x :: xs' => body x ;;; for_each xs' body
  end.

(** [xs[i]], raising [IndexError] out of range. *)
Definition item {W A} (xs : list A) (i : nat) : M W A :=
  match xs !! i with
  | Some x => ret x
  | None => throw (Exn "IndexError" "list index out of range")
  end.

(** Run a program in a fresh kernel. *)
Definition run {W A} (m : M W A) (h : handler W) (w : W)
  : (exn + A) * kernel W :=
  m h (Kernel w []).

Definition outcome {W A} (m : M W A) (h : handler W) (w : W) : exn + A :=
  fst (run m h w).

Definition trace {W A} (m : M W A) (h : handler W) (w : W) : list event :=
  journal (snd (run m h w)).

(** Lift a pure computation that may raise. *)
Definition lift {W A} (r : exn + A) : M W A :=
  match r with
  | inr a => ret a
  | inl e => throw e
  end.

(** [cls(key=value, ...)]: build a client-side SDK object. *)
Definition construct {W} (cls : string) (args : kwargs) : M W sdk_obj :=
  perform (Construct cls args) ;;; ret (SdkObj cls args).

(** [obj.key = v] on an SDK object. *)
Definition set_attr (key : string) (v : pyval) (o : sdk_obj) : sdk_obj :=
  SdkObj (obj_class o) (kw_set key v (obj_attrs o)).

(** ** Pure helpers written in the notebooks *)

Definition tab : string := String "009" EmptyString.
Definition newline : string := String "010" EmptyString.

(** [str(n)] for a non-negative integer. *)
Definition decimal (n : nat) : string :=
  NilEmpty.string_of_uint (Nat.to_uint n).

(** [f'{n:010}']: decimal, padded on the left with zeros to width 10;
    longer numbers are not cut. *)
Definition pad10 (n : nat) : string :=
  let d := decimal n in
  String.concat "" (replicate (10 - String.length d) "0") ++ d.

(** [enumerate(xs)] *)
Definition enumerate {A} (xs : list A) : list (nat * A) :=
  imap (fun i x => (i, x)) xs.

(** [s.split('/')] *)
Fixpoint split_slash (s : string) : list string :=
  match s with
  | EmptyString => [""]
  | String c s' =>
      if Ascii.eqb c "/" then "" :: split_slash s'
      else match split_slash s' with
           | [] => [String c ""]
           | w :: ws => String c w :: ws
           end
  end.

(** ['/'.join(s.split('/')[:-1])]: drop the last segment of an S3 URI. *)
Definition drop_last_segment (s : string) : string :=
  String.concat "/" (removelast (split_slash s)).

(** [p.as_posix()] for a relative path. *)
Definition as_posix (p : path) : string := String.concat "/" p.

(** [p.parts[-n]] for [n >= 1]. *)
Definition part_from_end (p : path) (n : nat) : exn + string :=
  if Nat.leb n (length p) then
    match p !! (length p - n) with
    | Some s => inr s
    | None => inl (Exn "IndexError" "tuple index out of range")
    end
  else inl (Exn "IndexError" "tuple index out of range").

(** ** Python's order on strings *)

(** [a <= b] on [str]: lexicographic by character code (on UTF-8 bytes
    the order is the same as on code points). *)
Definition str_le (a b : string) : Prop := String.leb a b = true.
Definition str_lt (a b : string) : Prop := String.ltb a b = true.

#[global] Instance str_le_dec : RelDecision str_le.
Proof. intros a b. unfold str_le. apply _. Defined.

(** [sorted(xs)] on a list of strings. *)
Definition sorted (xs : list string) : list string := merge_sort str_le xs.

(** ** Notebook: preprocessing images for the built-in algorithms *)

Module Preprocessing.

(** [category_labels.values()] *)
Definition values (category_labels : list (nat * string)) : list string :=
  map snd category_labels.

(** [{name: idx for idx, name in enumerate(sorted(category_labels.values()))}] *)
Definition category_ids (category_labels : list (nat * string))
  : gmap string nat :=
  foldl (fun d '(idx, name) => <[name := idx]> d) ∅
        (enumerate (sorted (values category_labels))).

(** The body of the manifest loop up to the [open]: the file the line
    goes to and the line itself. *)
Definition lst_entry (ids : gmap string nat) (idx : nat) (p : path)
  : exn + (string * string) :=
  let image_id := pad10 idx in
  match part_from_end p 2 with
  | inl e => inl e
  | inr parent =>
      match ids !! parent with
      | None => inl (Exn "KeyError" parent)
      | Some category =>
          let posix := as_posix p in
          match part_from_end p 3 with
          | inl e => inl e
          | inr split =>
              inr (split ++ ".lst",
                   image_id ++ tab ++ decimal category ++ tab
                     ++ posix ++ newline)
          end
      end
  end.

(** [for idx, p in enumerate(image_paths): ... f.write(line)] *)
Definition write_lst {W} (ids : gmap string nat) (image_paths : list path)
  : M W unit :=
  for_each (enumerate image_paths) (fun '(idx, p) =>
    entry <- lift (lst_entry ids idx p) ;;
    perform (FileAppend (fst entry) (snd entry))).

Definition bucket_pickle : string := "pickled_data/builtin_bucket_name.pickle".

(** The cell "Create a bucket for your project". *)
Definition create_bucket_cell {W} : M W string :=
  present <- perform (PathExists bucket_pickle) ;;
  if (present : bool) then
    perform (PickleLoadStr bucket_pickle)
  else
    u <- perform Uuid4 ;;
    let bucket_name := "sagemaker-builtin-ic-" ++ u in
    perform (BotoResource "s3") ;;;
    perform SagemakerSession ;;;
    region <- perform RegionName ;;
    perform (CreateBucket bucket_name region) ;;;
    perform (PickleDumpStr bucket_pickle bucket_name) ;;;
    ret bucket_name.

Definition script_url : string :=
  "https://raw.githubusercontent.com/apache/incubator-mxnet/master/tools/im2rec.py".

(** The code cells of the notebook, top to bottom. *)
Definition notebook {W} : M W unit :=
  category_labels <- perform (PickleLoadLabels "pickled_data/category_labels.pickle") ;;
  let ids := category_ids category_labels in
  image_paths <- perform (Rglob "./data_structured" "*.jpg") ;;
  write_lst ids image_paths ;;;
  perform (Shell "head train.lst") ;;;
  perform (UrlRetrieve script_url "im2rec.py") ;;;
  perform (Shell "python im2rec.py --list --recursive train data_structured/train") ;;;
  perform (Shell "python im2rec.py --list --recursive val data_structured/val") ;;;
  perform (Shell "head train.lst") ;;;
  perform (Mkdir "data_recordio") ;;;
  perform (Copy "train.lst" "data_recordio/") ;;;
  perform (Copy "val.lst" "data_recordio/") ;;;
  perform (Shell "python im2rec.py --resize 224 --quality 90 --num-thread 16 data_recordio/train data_structured/train") ;;;
  perform (Shell "python im2rec.py --resize 224 --quality 90 --num-thread 16 data_recordio/val data_structured/val") ;;;
  bucket_name <- create_bucket_cell ;;
  perform (Construct "sagemaker.s3.S3Uploader" []) ;;;
  perform (S3Upload "data_recordio/train.rec" ("s3://" ++ bucket_name ++ "/data/train")) ;;;
  perform (S3Upload "data_recordio/val.rec" ("s3://" ++ bucket_name ++ "/data/val")) ;;;
  ret tt.

End Preprocessing.

(** ** Notebook: MNIST training with SageMaker distributed model parallel *)

Module ModelParallel.

Definition experiment_name : string := "SM-MP-DEMO".

(** "Load the experiment if it exists, otherwise create"; evaluates to
    the experiment's [experiment_name]. *)
Definition experiment_setup {W} : M W string :=
  all_experiment_names <- perform ExperimentList ;;
  if negb (existsb (String.eqb experiment_name) all_experiment_names) then
    perform (BotoClient "sagemaker") ;;;
    perform (ExperimentCreate experiment_name)
  else
    perform (BotoClient "sagemaker") ;;;
    perform (ExperimentLoad experiment_name).

Definition mpioptions : string := "-verbose -x orte_base_help_aggregate=0 ".

Definition distribution : pyval :=
  PDict [
    ("smdistributed", PDict [
      ("modelparallel", PDict [
        ("enabled", PBool true);
        ("parameters", PDict [
          ("microbatches", PInt 4);
          ("placement_strategy", PStr "spread");
          ("pipeline", PStr "interleaved");
          ("optimize", PStr "speed");
          ("partitions", PInt 2);
          ("ddp", PBool true)])])]);
    ("mpi", PDict [
      ("enabled", PBool true);
      ("processes_per_host", PInt 2);
      ("custom_mpi_options", PStr mpioptions)])].

Definition estimator_args (role : string) : kwargs :=
  [("entry_point", PStr "pt_mnist.py");
   ("source_dir", PStr "utils");
   ("role", PStr role);
   ("instance_type", PStr "ml.p3.16xlarge");
   ("sagemaker_session", PObj "sagemaker_session");
   ("framework_version", PStr "1.6.0");
   ("py_version", PStr "py36");
   ("instance_count", PInt 1);
   ("distribution", distribution);
   ("base_job_name", PStr "SMD-MP-demo")].

(** The code cells of the notebook, top to bottom. *)
Definition notebook {W} : M W unit :=
  perform (Shell "pip install sagemaker-experiments") ;;;
  perform (Shell "pip install sagemaker --upgrade") ;;;
  role <- perform GetExecutionRole ;;
  perform BotoSession ;;;
  perform (Shell "cat utils/pt_mnist.py") ;;;
  perform SagemakerSession ;;;
  customer_churn_experiment <- experiment_setup ;;
  now <- perform (Strftime "%Y-%m-%d-%H-%M-%S") ;;
  perform (BotoClient "sagemaker") ;;;
  trial <- perform (TrialCreate ("SMD-MP-demo-" ++ now) customer_churn_experiment) ;;
  smd_mp_estimator <- construct "sagemaker.pytorch.PyTorch" (estimator_args role) ;;
  perform (Fit smd_mp_estimator
    [("experiment_config", PDict [
        ("ExperimentName", PStr customer_churn_experiment);
        ("TrialName", PStr trial);
        ("TrialComponentDisplayName", PStr "Training")])]).

End ModelParallel.

(** ** The pandas operations used by the AutoGluon notebook *)

Module Pandas.

(** [pd.read_csv(file)]: the rows get the default [RangeIndex]. *)
Definition read_frame (csv : list string * list (list string)) : frame :=
  Frame (fst csv) (enumerate (snd csv)).

(** [f.index] *)
Definition index (f : frame) : list nat := map fst (body f).

(** [f.sample(...)], given the positions the random generator picked:
    those rows, in the order picked. *)
Definition take_rows (picked : list nat) (f : frame) : frame :=
  Frame (columns f) (omap (fun i => body f !! i) picked).

Definition mem_nat (x : nat) (xs : list nat) : bool := existsb (Nat.eqb x) xs.
Definition mem_str (x : string) (xs : list string) : bool :=
  existsb (String.eqb x) xs.

(** [f.drop(labels)]: drop the rows with these index labels; [KeyError]
    when a label is not in the index. *)
Definition drop_rows (labels : list nat) (f : frame) : exn + frame :=
  if forallb (fun l => mem_nat l (index f)) labels then
    inr (Frame (columns f)
               (List.filter (fun r => negb (mem_nat (fst r) labels)) (body f)))
  else inl (Exn "KeyError" "labels not found in axis").

(** The cells of a row that sit under columns other than [labels]. *)
Definition keep_cells (cols labels : list string) (cells : list string)
  : list string :=
  map snd (List.filter (fun cv => negb (mem_str (fst cv) labels))
                       (zip cols cells)).

(** [f.drop(columns=labels)] *)
Definition drop_columns (labels : list string) (f : frame) : exn + frame :=
  if forallb (fun l => mem_str l (columns f)) labels then
    inr (Frame (List.filter (fun c => negb (mem_str c labels)) (columns f))
               (map (fun r => (fst r, keep_cells (columns f) labels (snd r)))
                    (body f)))
  else inl (Exn "KeyError" "labels not found in axis").

Fixpoint position (label : string) (cols : list string) : option nat :=
  match cols with
  | [] => None
  | c :: cols' =>
      if String.eqb c label then Some 0 else S <$> position label cols'
  end.

(** [f[label]]: one column as a series. *)
Definition column (label : string) (f : frame) : exn + list (nat * string) :=
  match position label (columns f) with
  | None => inl (Exn "KeyError" label)
  | Some j => inr (map (fun r => (fst r, default "" (snd r !! j))) (body f))
  end.

End Pandas.

(** [v[key]] on a response. *)
Definition subscript (v : pyval) (key : string) : exn + pyval :=
  match v with
  | PDict d =>
      match kw_get key d with
      | Some x => inr x
      | None => inl (Exn "KeyError" key)
      end
  | _ => inl (Exn "TypeError" "object is not subscriptable")
  end.

Definition dquote : string := String "034" EmptyString.

(** ** Notebook: AutoGluon-Tabular in AWS Marketplace *)

Module AutoGluon.

Definition label : string := "y".

Record split : Type := Split {
  train : frame;
  test : frame;
  y_test : list (nat * string);
  X_test : frame
}.

(** The cell "Split train/test data" after [read_csv], given the
    positions picked by [data.sample(frac=0.7, random_state=42)]. *)
Definition split_cell (data : frame) (picked : list nat) : exn + split :=
  let train := Pandas.take_rows picked data in
  match Pandas.drop_rows (Pandas.index train) data with
  | inl e => inl e
  | inr test =>
      match Pandas.column label test with
      | inl e => inl e
      | inr y_test =>
          match Pandas.drop_columns [label] test with
          | inl e => inl e
          | inr X_test => inr (Split train test y_test X_test)
          end
      end
  end.

Definition prefix : string := "sagemaker/autogluon-tabular".
Definition compatible_training_instance_type : string := "ml.m5.4xlarge".
Definition compatible_inference_instance_type : string := "ml.m5.4xlarge".

Definition hyperparameters : pyval :=
  PDict [("init_args", PDict [("label", PStr "y")]);
         ("fit_args", PDict [("presets", PList [PStr "optimize_for_deployment"])]);
         ("feature_importance", PBool true)].

Definition algo_args (algorithm_arn : pyval) (role : string) : kwargs :=
  [("algorithm_arn", algorithm_arn);
   ("role", PStr role);
   ("instance_count", PInt 1);
   ("instance_type", PStr compatible_training_instance_type);
   ("sagemaker_session", PObj "session");
   ("base_job_name", PStr "autogluon");
   ("hyperparameters", hyperparameters);
   ("train_volume_size", PInt 100)].

(** The code cells of the notebook, top to bottom. *)
Definition notebook {W} : M W unit :=
  perform SagemakerSession ;;;
  bucket <- perform DefaultBucket ;;
  region <- perform RegionName ;;
  role <- perform GetExecutionRole ;;
  algorithm_arn <- perform (LocalModule "src.algorithm_arns"
                     "AlgorithmArnProvider.get_algorithm_arn" [PStr region]) ;;
  perform (Shell "apt-get update -y") ;;;
  perform (Shell "apt install unzip") ;;;
  perform (Shell ("aws s3 cp --region " ++ region ++ " s3://sagemaker-sample-data-"
                  ++ region ++ "/autopilot/direct_marketing/bank-additional.zip .")) ;;;
  perform (Shell "unzip -qq -o bank-additional.zip") ;;;
  perform (Shell "rm bank-additional.zip") ;;;
  csv <- perform (ReadCsv "./bank-additional/bank-additional-full.csv") ;;
  let data := Pandas.read_frame csv in
  picked <- perform (SampleRows (length (body data)) "0.7" 42) ;;
  s <- lift (split_cell data picked) ;;
  perform (WriteCsv "train.csv" (train s)) ;;;
  train_s3_path <- perform (UploadData "train.csv" (prefix ++ "/data")) ;;
  perform (WriteCsv "test.csv" (test s)) ;;;
  test_s3_path <- perform (UploadData "test.csv" (prefix ++ "/data")) ;;
  perform (WriteCsv "X_test.csv" (X_test s)) ;;;
  X_test_s3_path <- perform (UploadData "X_test.csv" (prefix ++ "/data")) ;;
  algo <- construct "sagemaker.algorithm.AlgorithmEstimator"
            (algo_args algorithm_arn role) ;;
  perform (Fit algo [("inputs", PDict [("training", PStr train_s3_path)])]) ;;;
  perform (Construct "sagemaker.serializers.CSVSerializer" []) ;;;
  perform (Construct "sagemaker.deserializers.StringDeserializer" []) ;;;
  ep <- perform (Deploy algo
          [("initial_instance_count", PInt 1);
           ("instance_type", PStr compatible_inference_instance_type);
           ("serializer", PObj "CSVSerializer()");
           ("deserializer", PObj "StringDeserializer()")]) ;;
  let predictor := Predictor ep [] in
  payload <- perform (FrameToCsv (X_test s)) ;;
  perform (Predict predictor (PStr payload)) ;;;
  payload <- perform (FrameToCsv (test s)) ;;
  perform (Predict predictor (PStr payload)) ;;;
  let output_path := "s3://" ++ bucket ++ "/" ++ prefix ++ "/output/" in
  perform (Transformer algo
    [("instance_count", PInt 1);
     ("instance_type", PStr compatible_inference_instance_type);
     ("strategy", PStr "MultiRecord");
     ("max_payload", PInt 6);
     ("max_concurrent_transforms", PInt 1);
     ("output_path", PStr output_path)]) ;;;
  perform (Transform test_s3_path
    [("content_type", PStr "text/csv"); ("split_type", PStr "Line")]) ;;;
  perform TransformWait ;;;
  perform (DeleteEndpoint (endpoint predictor)).

End AutoGluon.

(** The loop "for i in range(10)" that sends test images to an endpoint
    of a TensorFlow Serving container and reads label and prediction. *)
Definition invoke_mnist {W} (p : predictor) (mnist : datasets) : M W unit :=
  for_each (seq 0 10) (fun i =>
    data <- item (images (ds_test mnist)) i ;;
    predict_response <- perform (Predict p (PDict [("instances", data)])) ;;
    lbl <- item (labels (ds_test mnist)) i ;;
    perform (NpArgmax lbl) ;;;
    predictions <- lift (subscript predict_response "predictions") ;;
    perform (NpArgmax predictions) ;;;
    ret tt).

(** [utils.convert_to(data_sets.<name>, '<name>', 'data')] *)
Definition convert_to {W} (name : string) : M W pyval :=
  perform (LocalModule "utils" "convert_to"
             [PObj ("data_sets." ++ name); PStr name; PStr "data"]).

Definition mnist_read_args : kwargs :=
  [("dtype", PObj "tf.uint8"); ("reshape", PBool false);
   ("validation_size", PInt 5000)].

(** ** Notebook: TensorFlow MNIST, compile with Neo and deploy *)

Module Neo.

Definition estimator_args (role : string) : kwargs :=
  [("entry_point", PStr "mnist.py");
   ("role", PStr role);
   ("framework_version", PStr "1.15.3");
   ("py_version", PStr "py3");
   ("training_steps", PInt 100);
   ("evaluation_steps", PInt 10);
   ("instance_count", PInt 1);
   ("instance_type", PStr "ml.c4.xlarge")].

Definition compile_args (output_path : string) : kwargs :=
  [("target_instance_family", PStr "ml_c5");
   ("input_shape", PDict [("data", PList [PInt 1; PInt 784])]);
   ("output_path", PStr output_path);
   ("framework", PStr "tensorflow");
   ("framework_version", PStr "1.15.3")].

Definition image_uri : string :=
  "301217895009.dkr.ecr.us-west-2.amazonaws.com/sagemaker-inference-tensorflow:1.15.3-cpu-py3".

(** The code cells of the notebook, top to bottom. *)
Definition notebook {W} : M W unit :=
  perform SagemakerSession ;;;
  role <- perform GetExecutionRole ;;
  perform (ReadDataSets "data" mnist_read_args) ;;;
  convert_to "train" ;;;
  convert_to "validation" ;;;
  convert_to "test" ;;;
  inputs <- perform (UploadData "data" "data/DEMO-mnist") ;;
  perform (Shell "cat 'mnist.py'") ;;;
  mnist_estimator <- construct "sagemaker.tensorflow.TensorFlow" (estimator_args role) ;;
  perform (Fit mnist_estimator [("inputs", PStr inputs)]) ;;;
  ep <- perform (Deploy mnist_estimator
          [("initial_instance_count", PInt 1); ("instance_type", PStr "ml.m4.xlarge")]) ;;
  let mnist_predictor := Predictor ep [] in
  mnist <- perform (ReadDataSets "/tmp/data/" [("one_hot", PBool true)]) ;;
  invoke_mnist mnist_predictor mnist ;;;
  perform SagemakerSession ;;;
  perform (DeleteEndpoint (endpoint mnist_predictor)) ;;;
  out <- perform (OutputPath mnist_estimator) ;;
  let output_path := drop_last_segment out in
  optimized_estimator <- perform (CompileModel mnist_estimator (compile_args output_path)) ;;
  let optimized_estimator := set_attr "image_uri" (PStr image_uri) optimized_estimator in
  ep <- perform (Deploy optimized_estimator
          [("initial_instance_count", PInt 1); ("instance_type", PStr "ml.c5.xlarge")]) ;;
  let optimized_predictor := Predictor ep [] in
  mnist <- perform (ReadDataSets "/tmp/data/" [("one_hot", PBool true)]) ;;
  invoke_mnist optimized_predictor mnist ;;;
  perform SagemakerSession ;;;
  perform (DeleteEndpoint (endpoint optimized_predictor)).

End Neo.

(** ** Notebook: deploy a TensorFlow model on an Inf1 instance (Studio) *)

Module Inf1.

Definition version_file : string := "orig_sm_version.txt".

(** The cell that pins the SDK to version 1.x and remembers the
    version it replaced. *)
Definition pin_sdk {W} : M W unit :=
  v <- perform SdkVersion ;;
  (if String.leb "2" v then
     orig_sm_version <- perform SdkVersion ;;
     perform (FileWrite version_file orig_sm_version) ;;;
     perform (Shell ("pip install " ++ dquote ++ "sagemaker>=1.14.2,<2" ++ dquote))
   else ret tt) ;;;
  perform SdkVersion ;;;
  ret tt.

(** The cell "Rollback the SageMaker Python SDK version". *)
Definition rollback_sdk {W} : M W unit :=
  present <- perform (PathExists version_file) ;;
  if (present : bool) then
    orig_sm_version <- perform (FileRead version_file) ;;
    perform (Shell ("pip install sagemaker==" ++ orig_sm_version)) ;;;
    perform (FileRemove version_file)
  else ret tt.

Definition estimator_args (role : string) : kwargs :=
  [("entry_point", PStr "mnist.py");
   ("role", PStr role);
   ("framework_version", PStr "1.11.0");
   ("training_steps", PInt 100);
   ("evaluation_steps", PInt 10);
   ("train_instance_count", PInt 2);
   ("train_instance_type", PStr "ml.c5.xlarge");
   ("sagemaker_session", PObj "sagemaker_session")].

Definition compile_args (output_path : string) : kwargs :=
  [("target_instance_family", PStr "ml_inf1");
   ("input_shape", PDict [("data", PList [PInt 1; PInt 784])]);
   ("output_path", PStr output_path);
   ("framework", PStr "tensorflow");
   ("framework_version", PStr "1.15.0")].

(** [def numpy_bytes_serializer(data)]: the bytes [np.save] writes for
    [data].  The notebook installs it as the predictor's serializer; the
    SDK calls it inside [predict]. *)
Definition numpy_bytes_serializer {W} (data : pyval) : M W pyval :=
  perform (NpSave data).

(** Functions the notebook defines with [def]. *)
Definition defined_functions : list string := ["numpy_bytes_serializer"].

Definition invoke {W} (p : predictor) (mnist : datasets) : M W unit :=
  for_each (seq 0 10) (fun i =>
    data <- item (images (ds_test mnist)) i ;;
    perform (DisplayImage data) ;;;
    perform (Predict p data) ;;;
    lbl <- item (labels (ds_test mnist)) i ;;
    perform (NpArgmax lbl) ;;;
    ret tt).

(** The code cells of the notebook, top to bottom. *)
Definition notebook {W} : M W unit :=
  pin_sdk ;;;
  perform (Shell "pip install tensorflow==1.15.4") ;;;
  perform SagemakerSession ;;;
  role <- perform GetExecutionRole ;;
  perform (ReadDataSets "data" mnist_read_args) ;;;
  convert_to "train" ;;;
  convert_to "validation" ;;;
  convert_to "test" ;;;
  inputs <- perform (UploadData "data" "data/DEMO-mnist") ;;
  perform (Shell "cat 'mnist.py'") ;;;
  mnist_estimator <- construct "sagemaker.tensorflow.TensorFlow" (estimator_args role) ;;
  perform (Fit mnist_estimator [("inputs", PStr inputs)]) ;;;
  out <- perform (OutputPath mnist_estimator) ;;
  let output_path := drop_last_segment out in
  let mnist_estimator := set_attr "framework_version" (PStr "1.15.0") mnist_estimator in
  optimized_estimator <- perform (CompileModel mnist_estimator (compile_args output_path)) ;;
  ep <- perform (Deploy optimized_estimator
          [("initial_instance_count", PInt 1); ("instance_type", PStr "ml.inf1.xlarge")]) ;;
  let optimized_predictor :=
    Predictor ep [("content_type", PStr "application/vnd+python.numpy+binary");
                  ("serializer", PObj "numpy_bytes_serializer")] in
  mnist <- perform (ReadDataSets "/tmp/data/" [("one_hot", PBool true)]) ;;
  invoke optimized_predictor mnist ;;;
  perform (DeleteEndpoint (endpoint optimized_predictor)) ;;;
  rollback_sdk.

End Inf1.

(** ** Notebook: TensorFlow Serving container with TensorFlow Hub models *)

Module TensorFlowHub.

Definition sample_utils {W} (function : string) (args : list pyval) : M W pyval :=
  perform (LocalModule "sample_utils" function args).

Definition model_args (model_data sagemaker_role : string) : kwargs :=
  [("model_data", PStr model_data);
   ("role", PStr sagemaker_role);
   ("framework_version", PStr "1.15.2");
   ("env", PDict [("SAGEMAKER_TFS_DEFAULT_MODEL_NAME", PStr "mobilenet_v2_140_224")])].

(** The code cells of the notebook, top to bottom.  The value that
    [add_imagenet_labels] returns is discarded: both helpers are handed
    the response of the [predict] call, the same object. *)
Definition notebook {W} : M W unit :=
  perform (Shell ("pip install -U --quiet " ++ dquote ++ "sagemaker>=1.14.2,<2" ++ dquote)) ;;;
  perform (Shell "pip install -U --quiet opencv-python tensorflow-hub") ;;;
  sagemaker_role <- perform GetExecutionRole ;;
  model_path <- sample_utils "tfhub_to_savedmodel"
                  [PStr "mobilenet_v2_140_224"; PStr "mobilenet"] ;;
  perform (Shell ("saved_model_cli show --all --dir " ++ py_str model_path)) ;;;
  sample_utils "tfhub_to_savedmodel" [PStr "mobilenet_v2_035_224"; PStr "mobilenet"] ;;;
  perform (Shell ("tar -C " ++ dquote ++ "$PWD" ++ dquote ++ " -czf mobilenet.tar.gz mobilenet/")) ;;;
  perform SagemakerSession ;;;
  model_data <- perform (UploadData "mobilenet.tar.gz" "model") ;;
  model <- construct "sagemaker.tensorflow.serving.Model" (model_args model_data sagemaker_role) ;;
  ep <- perform (Deploy model
          [("initial_instance_count", PInt 1); ("instance_type", PStr "ml.c5.xlarge")]) ;;
  let predictor := Predictor ep [] in
  kitten_image <- sample_utils "image_file_to_tensor" [PStr "kitten.jpg"] ;;
  result <- perform (Predict predictor kitten_image) ;;
  sample_utils "add_imagenet_labels" [result] ;;;
  sample_utils "print_probabilities_and_labels" [result] ;;;
  perform (Construct "sagemaker.tensorflow.serving.Predictor"
             [("endpoint", PStr (endpoint predictor));
              ("model_name", PStr "mobilenet_v2_035_224")]) ;;;
  let predictor2 :=
    Predictor (endpoint predictor) [("model_name", PStr "mobilenet_v2_035_224")] in
  bee_image <- sample_utils "image_file_to_tensor" [PStr "bee.jpg"] ;;
  result <- perform (Predict predictor2 bee_image) ;;
  sample_utils "add_imagenet_labels" [result] ;;;
  sample_utils "print_probabilities_and_labels" [result] ;;;
  perform (DeleteEndpoint (endpoint predictor)).

End TensorFlowHub.

(** ** Notebook: TensorFlow Serving with Elastic Inference *)

Module ElasticInference.

Definition saved_model (region : string) : string :=
  "s3://sagemaker-sample-data-" ++ region
    ++ "/tensorflow/model/resnet/resnet_50_v2_fp32_NCHW.tar.gz".

(** The code cells of the notebook, top to bottom. *)
Definition notebook {W} : M W unit :=
  perform BotoSession ;;;
  region <- perform RegionName ;;
  role <- perform GetExecutionRole ;;
  tensorflow_model <- construct "sagemaker.tensorflow.serving.Model"
    [("model_data", PStr (saved_model region));
     ("role", PStr role);
     ("framework_version", PStr "1.14")] ;;
  ep <- perform (Deploy tensorflow_model
          [("initial_instance_count", PInt 1);
           ("instance_type", PStr "ml.m4.xlarge");
           ("accelerator_type", PStr "ml.eia1.medium")]) ;;
  let predictor := Predictor ep [] in
  random_input <- perform (NpRandomRand [1; 1; 3; 3]) ;;
  perform (Predict predictor (PDict [("inputs", random_input)])) ;;;
  perform (DeleteEndpoint (endpoint predictor)).

End ElasticInference.

(** ** The repository *)

(** A notebook of the repository: where it lives, the functions it
    defines with [def], and its code. *)
Record notebook_file : Type := NotebookFile {
  nb_file : string;
  nb_title : string;
  nb_defs : list string;
  nb_code : forall W, M W unit
}.

Definition smp_mnist : notebook_file :=
  NotebookFile "unnamed/part_000"
    "Use SageMaker Distributed Model Parallel with Amazon SageMaker to Launch an MNIST Training Job with Model Parallelization"
    [] (@ModelParallel.notebook).

Definition preprocessing : notebook_file :=
  NotebookFile "unnamed/part_000"
    "Preprocessing Images for Built-in Algorithms (Part 3/4)"
    [] (@Preprocessing.notebook).

Definition autogluon : notebook_file :=
  NotebookFile "unnamed/part_001"
    "AutoGluon-Tabular in AWS Marketplace"
    [] (@AutoGluon.notebook).

Definition neo : notebook_file :=
  NotebookFile
    "sagemaker_neo_compilation_jobs/tensorflow_distributed_mnist/tensorflow_distributed_mnist_neo.ipynb"
    "TensorFlow BYOM: Train with Custom Training Script, Compile with Neo, and Deploy on SageMaker"
    [] (@Neo.notebook).

Definition inf1 : notebook_file :=
  NotebookFile
    "aws_sagemaker_studio/sagemaker_neo_compilation_jobs/deploy_tensorflow_model_on_Inf1_instance/tensorflow_distributed_mnist_neo_inf1_studio.ipynb"
    "Compile and Deploy a TensorFlow model on Inf1 instances"
    Inf1.defined_functions (@Inf1.notebook).

Definition tensorflow_hub : notebook_file :=
  NotebookFile
    "aws_sagemaker_studio/sagemaker_neo_compilation_jobs/deploy_tensorflow_model_on_Inf1_instance/tensorflow_distributed_mnist_neo_inf1_studio.ipynb"
    "Using the SageMaker TensorFlow Serving Container"
    [] (@TensorFlowHub.notebook).

Definition elastic_inference : notebook_file :=
  NotebookFile
    "sagemaker-python-sdk/tensorflow_serving_using_elastic_inference_with_your_own_model/tensorflow_serving_pretrained_model_elastic_inference.ipynb"
    "Using Amazon Elastic Inference with a pre-trained TensorFlow Serving model on SageMaker"
    [] (@ElasticInference.notebook).

Definition repository : list notebook_file :=
  [smp_mnist; preprocessing; autogluon; neo; inf1; tensorflow_hub;
   elastic_inference].

(** ** A world in which every call succeeds *)

Definition demo_images : list pyval := replicate 10 (PList [PInt 0]).

Definition demo_datasets : datasets :=
  let d := DataSet demo_images demo_images in DataSets d d d.

(** The state counts the effects answered so far; endpoint names, uuids
    and timestamps are derived from it. *)
Definition demo_answer {A} (c : effect A) (n : nat) : A :=
  match c in effect A return A with
  | GetExecutionRole => "arn:aws:iam::123456789012:role/SageMakerRole"
  | BotoSession | BotoClient _ | BotoResource _ | SagemakerSession => tt
  | RegionName => "us-west-2"
  | DefaultBucket => "sagemaker-us-west-2-123456789012"
  | SdkVersion => "2.16.1"
  | ExperimentList => []
  | ExperimentCreate name | ExperimentLoad name => name
  | TrialCreate name _ => name
  | Construct _ _ | Fit _ _ => tt
  | OutputPath _ => "s3://sagemaker-us-west-2-123456789012/"
  | CompileModel est _ => est
  | Deploy _ _ => "endpoint-" ++ decimal n
  | Predict _ _ => PDict [("predictions", PList [PInt 7])]
  | DeleteEndpoint _ => tt
  | UploadData p key => "s3://sagemaker-us-west-2-123456789012/" ++ key ++ "/" ++ p
  | S3Upload _ uri => uri
  | CreateBucket _ _ | Transformer _ _ | Transform _ _ | TransformWait => tt
  | Shell _ => tt
  | Strftime _ => "2021-01-01-00-00-00"
  | Uuid4 => "uuid-" ++ decimal n
  | PathExists _ => false
  | FileWrite _ _ | FileAppend _ _ => tt
  | FileRead _ => ""
  | FileRemove _ | Mkdir _ | Copy _ _ => tt
  | Rglob _ _ =>
      [["data_structured"; "train"; "cat"; "a.jpg"];
       ["data_structured"; "val"; "dog"; "b.jpg"]]
  | PickleLoadLabels _ => [(17, "cat"); (18, "dog")]
  | PickleLoadStr _ => ""
  | PickleDumpStr _ _ | UrlRetrieve _ _ => tt
  | ReadCsv _ => (["age"; "y"], [["30"; "no"]; ["41"; "yes"]; ["52"; "no"]])
  | SampleRows _ _ _ => [2; 0]
  | WriteCsv _ _ => tt
  | FrameToCsv _ => "age,y"
  | ReadDataSets _ _ => demo_datasets
  | NpRandomRand _ => PList [PFloat "0.5"]
  | NpArgmax _ => PInt 0
  | NpSave data => data
  | DisplayImage _ => tt
  | LocalModule module _ args =>
      if String.eqb module "src.algorithm_arns"
      then PStr "arn:aws:sagemaker:us-west-2:594846645681:algorithm/autogluon-tabular"
      else hd PNone args
  end.

Definition demo_world : handler nat :=
  fun A c n => (inr (demo_answer c n), S n).

(** The same world, except that the effect number [at_] raises [e]. *)
Definition outage (at_ : nat) (e : exn) : handler nat :=
  fun A c n => if Nat.eqb n at_ then (inl e, S n) else demo_world A c n.

(** ** Journal entries *)

(** The exception an entry ended with, if any. *)
Definition raised (ev : event) : option exn :=
  match ev with
  | Ev _ (inl e) => Some e
  | Ev _ (inr _) => None
  end.

Definition event_origin (ev : event) : origin :=
  match ev with
  | Ev c _ => origin_of c
  end.

(** The exception a run ended with, if any. *)
Definition failure {A} (r : exn + A) : option exn :=
  match r with
  | inl e => Some e
  | inr _ => None
  end.

(** ** Exceptions reach the top level *)

(** [settled j out]: every journal entry that raised is the last entry,
    and the exception it raised is the outcome [out]. *)
Definition settled (j : list event) (out : option exn) : Prop :=
  forall n ev e, j !! n = Some ev -> raised ev = Some e ->
    S n = length j /\ out = Some e.

(** A program is [faithful] when, started with a journal in which nothing
    raised, it leaves a settled journal: it performs nothing after an
    effect that raised and ends with that very exception. *)
Definition faithful {W A} (m : M W A) : Prop :=
  forall (h : handler W) (k : kernel W),
    settled (journal k) None ->
    settled (journal (snd (m h k))) (failure (fst (m h k))).

(** [try: m / except: recover]: the notebooks never use it; it is here to
    show what [faithful] rules out. *)
Definition try_except {W A} (m : M W A) (recover : exn -> M W A) : M W A :=
  fun h k =>
    match m h k with
    | (inl e, k') => recover e h k'
    | (inr a, k') => (inr a, k')
    end.

Definition client_error : exn :=
  Exn "ClientError" "An error occurred (ThrottlingException)".

(** ** The life cycle of an endpoint *)

(** What a journal entry does to an endpoint.  A [deploy] that raised
    created nothing; [predict] and [delete_endpoint] count as calls
    whether they raised or not. *)
Inductive ep_action : Type :=
| Deployed (ep : string)
| Invoked (ep : string)
| Deleted (ep : string)
| Unrelated.

Definition ep_action_of (ev : event) : ep_action :=
  match ev with
  | Ev c r =>
      match c in effect A return exn + A -> ep_action with
      | Deploy _ _ => fun r =>
          match r with
          | inr ep => Deployed ep
          | inl _ => Unrelated
          end
      | Predict p _ => fun _ => Invoked (endpoint p)
      | DeleteEndpoint ep => fun _ => Deleted ep
      | _ => fun _ => Unrelated
      end r
  end.

(** The endpoints in service, each with a flag: has it been invoked? *)
Definition ep_step (s : gmap string bool) (a : ep_action)
  : option (gmap string bool) :=
  match a with
  | Deployed ep => Some (<[ep := false]> s)
  | Invoked ep =>
      match s !! ep with
      | Some _ => Some (<[ep := true]> s)
      | None => None
      end
  | Deleted ep =>
      match s !! ep with
      | Some true => Some (delete ep s)
      | _ => None
      end
  | Unrelated => Some s
  end.

Fixpoint ep_run (s : gmap string bool) (acts : list ep_action)
  : option (gmap string bool) :=
  match acts with
  | [] => Some s
  | a :: acts' =>
      match ep_step s a with
      | Some s' => ep_run s' acts'
      | None => None
      end
  end.

(** The journal respects the life cycle deploy, invoke, delete. *)
Definition lifecycle_ok (j : list event) : Prop :=
  is_Some (ep_run ∅ (map ep_action_of j)).




(** *** A program logic for the life cycle *)

(** [tracked s k]: the journal of [k] respects the life cycle and leaves
    the endpoints in state [s]. *)
Definition tracked {W} (s : gmap string bool) (k : kernel W) : Prop :=
  ep_run ∅ (map ep_action_of (journal k)) = Some s.

(** [safe m s Q]: started with endpoints in state [s], the program [m]
    respects the life cycle; when it returns [a] the endpoints are in a
    state [s'] with [Q a s']. *)
Definition safe {W A} (m : M W A) (s : gmap string bool)
  (Q : A -> gmap string bool -> Prop) : Prop :=
  forall (h : handler W) (k : kernel W), tracked s k ->
    match m h k with
    | (inr a, k') => exists s', tracked s' k' /\ Q a s'
    | (inl _, k') => lifecycle_ok (journal k')
    end.

(** ** The experiment set-up cell against the Experiments service *)

Module Experiments.

(** The SageMaker Experiments service as its API documents it: an account
    holds a set of experiment names.  [Experiment.list] enumerates it,
    [Experiment.create] adds a name and refuses one that is taken,
    [Experiment.load] returns an existing experiment and refuses an unknown
    name.  Creating a boto3 client always succeeds; nothing else is
    served. *)
Definition service : handler (gset string) :=
  fun A c names =>
    match c in effect A return (exn + A) * gset string with
    | ExperimentList => (inr (elements names), names)
    | ExperimentCreate name =>
        if decide (name ∈ names)
        then (inl (Exn "ClientError" "ResourceInUse"), names)
        else (inr name, names ∪ {[name]})
    | ExperimentLoad name =>
        if decide (name ∈ names)
        then (inr name, names)
        else (inl (Exn "ClientError" "ResourceNotFound"), names)
    | BotoClient _ => (inr tt, names)
    | _ => (inl (Exn "NotImplementedError" "not served"), names)
    end.

(** The names passed to [Experiment.create], whether it succeeded or not. *)
Definition create_calls (j : list event) : list string :=
  omap (fun ev =>
          match ev with
          | Ev c _ =>
              match c with
              | ExperimentCreate name => Some name
              | _ => None
              end
          end) j.

(** The names passed to [Experiment.load]. *)
Definition load_calls (j : list event) : list string :=
  omap (fun ev =>
          match ev with
          | Ev c _ =>
              match c with
              | ExperimentLoad name => Some name
              | _ => None
              end
          end) j.

End Experiments.

(** ** The bucket cell against a disk that persists between runs *)

Module Disk.

(** What outlives a kernel: the pickles on local disk, the S3 buckets of
    the account and the position of the uuid generator. *)
Record state : Type := State {
  files : gmap string string;
  buckets : gset string;
  draws : nat
}.

Definition uuid (n : nat) : string := "uuid-" ++ decimal n.

(** The local disk and S3 as the bucket cell sees them: a pickle exists
    once dumped and loads as the value dumped; [uuid4] never repeats;
    [create_bucket] refuses a name that is taken.  Nothing else is
    served. *)
Definition service : handler state :=
  fun A c w =>
    match c in effect A return (exn + A) * state with
    | PathExists f => (inr (bool_decide (is_Some (files w !! f))), w)
    | PickleLoadStr f =>
        match files w !! f with
        | Some v => (inr v, w)
        | None => (inl (Exn "FileNotFoundError" f), w)
        end
    | PickleDumpStr f v =>
        (inr tt, State (<[f := v]> (files w)) (buckets w) (draws w))
    | Uuid4 => (inr (uuid (draws w)), State (files w) (buckets w) (S (draws w)))
    | BotoResource _ => (inr tt, w)
    | SagemakerSession => (inr tt, w)
    | RegionName => (inr "us-west-2", w)
    | CreateBucket b _ =>
        if decide (b ∈ buckets w)
        then (inl (Exn "ClientError" "BucketAlreadyExists"), w)
        else (inr tt, State (files w) (buckets w ∪ {[b]}) (draws w))
    | _ => (inl (Exn "NotImplementedError" "not served"), w)
    end.

(** The same world with the local disk put back to [old]. *)
Definition with_files (old : gmap string string) (w : state) : state :=
  State old (buckets w) (draws w).

Definition empty : state := State ∅ ∅ 0.

End Disk.

(** The claim that no run leaves state behind, for the bucket cell: a later
    run behaves as it would had the earlier run written nothing to disk. *)
Definition no_persistent_state : Prop :=
  forall w0 : Disk.state,
    let w1 := world (snd (run Preprocessing.create_bucket_cell Disk.service w0)) in
    let forgot := Disk.with_files (Disk.files w0) w1 in
    fst (run Preprocessing.create_bucket_cell Disk.service w1)
      = fst (run Preprocessing.create_bucket_cell Disk.service forgot) /\
    journal (snd (run Preprocessing.create_bucket_cell Disk.service w1))
      = journal (snd (run Preprocessing.create_bucket_cell Disk.service forgot)).

(** ** The dictionary built by a comprehension over [enumerate] *)

(** [{x: i for i, x in enumerate(l)}] *)
Definition index_dict (l : list string) : gmap string nat :=
  foldl (fun d '(idx, name) => <[name := idx]> d) ∅ (enumerate l).

(** ** Properties of every journal entry *)

(** [emits P m]: every entry the program adds to the journal satisfies [P]. *)
Definition emits {W A} (P : event -> Prop) (m : M W A) : Prop :=
  forall (h : handler W) (k : kernel W),
    Forall P (journal k) -> Forall P (journal (snd (m h k))).

(** ** The manifest lines *)

(** What an entry of the journal of the manifest loop looks like: an
    append to "<split>.lst" of the line made of the zero-padded position
    of the image, the id of its parent directory and its path. *)
Definition lst_event (ids : gmap string nat) (image_paths : list path)
  (ev : event) : Prop :=
  match ev with
  | Ev c _ =>
      match c with
      | FileAppend file text =>
          exists idx p parent split id,
            image_paths !! idx = Some p /\
            part_from_end p 2 = inr parent /\
            part_from_end p 3 = inr split /\
            ids !! parent = Some id /\
            file = split ++ ".lst" /\
            text = pad10 idx ++ tab ++ decimal id ++ tab ++ as_posix p ++ newline
      | _ => False
      end
  end.

(** The claim that the ids are the consecutive integers 0..n-1, [n] being
    the number of distinct category names. *)
Definition ids_are_consecutive (category_labels : list (nat * string)) : Prop :=
  let ids := Preprocessing.category_ids category_labels in
  let n := length (remove_dups (Preprocessing.values category_labels)) in
  forall i, i < n <-> exists name, ids !! name = Some i.

(** ** The manifest loop as a function *)

(** The (file, line) pairs the manifest loop appends, image by image, up
    to the first image whose entry raises. *)
Fixpoint manifest_from (ids : gmap string nat) (idx : nat)
  (image_paths : list path) : list (string * string) :=
  match image_paths with
  | [] => []
  | p :: ps =>
      match Preprocessing.lst_entry ids idx p with
      | inr entry => entry :: manifest_from ids (S idx) ps
      | inl _ => []
      end
  end.

Definition manifest (category_labels : list (nat * string))
  (image_paths : list path) : list (string * string) :=
  manifest_from (Preprocessing.category_ids category_labels) 0 image_paths.

(** The appends recorded in a journal. *)
Definition file_appends (j : list event) : list (string * string) :=
  omap (fun ev =>
          match ev with
          | Ev c _ =>
              match c with
              | FileAppend file text => Some (file, text)
              | _ => None
              end
          end) j.

(** A disk on which appending never fails. *)
Definition appends_succeed {W} (h : handler W) : Prop :=
  forall file text w, fst (h unit (FileAppend file text) w) = inr tt.

(** Sample inputs for the unit tests of the manifest loop. *)
Definition sample_labels : list (nat * string) := [(17, "dog"); (18, "cat")].

Definition sample_paths : list path :=
  [["data_structured"; "train"; "dog"; "rex.jpg"];
   ["data_structured"; "val"; "cat"; "tom.jpg"];
   ["data_structured"; "train"; "cat"; "kit.jpg"]].

(** The claim that the manifest loop is no data transformation that can
    be tested on its own: no function of the category labels and the
    image paths, other than a constant one, gives the lines it writes. *)
Definition manifest_not_testable : Prop :=
  ~ exists f : list (nat * string) -> list path -> list (string * string),
      (forall category_labels image_paths W (h : handler W) (w : W),
         appends_succeed h ->
         file_appends (trace (Preprocessing.write_lst
                                (Preprocessing.category_ids category_labels)
                                image_paths) h w)
         = f category_labels image_paths) /\
      f sample_labels sample_paths <> f sample_labels [].

(** A small csv file for the examples of the train/test split. *)
Definition sample_csv : list string * list (list string) :=
  (["age"; "y"], [["30"; "no"]; ["41"; "yes"]; ["52"; "no"]; ["28"; "yes"]]).

(** ** Calls into modules of the repository *)

(** The helper a journal entry calls: module and function. *)
Definition in_repo_call (ev : event) : option (string * string) :=
  match ev with
  | Ev c _ =>
      match c with
      | LocalModule module function _ => Some (module, function)
      | _ => None
      end
  end.

(** A call to a helper with its arguments and the value it returned. *)
Definition helper_result (ev : event)
  : option (string * string * list pyval * pyval) :=
  match ev with
  | Ev c r =>
      match c in effect A return exn + A -> _ with
      | LocalModule module function args => fun r =>
          match r with
          | inr v => Some (module, function, args, v)
          | inl _ => None
          end
      | _ => fun _ => None
      end r
  end.

(** The class and arguments of a constructor call. *)
Definition constructed (ev : event) : option (string * kwargs) :=
  match ev with
  | Ev c _ =>
      match c with
      | Construct cls args => Some (cls, args)
      | _ => None
      end
  end.

(** The region a journal entry read from the session. *)
Definition region_read (ev : event) : option string :=
  match ev with
  | Ev c r =>
      match c in effect A return exn + A -> _ with
      | RegionName => fun r =>
          match r with
          | inr region => Some region
          | inl _ => None
          end
      | _ => fun _ => None
      end r
  end.

(** The functions of helper modules that notebooks call. *)
Definition helper_functions : list (string * string) :=
  [("src.algorithm_arns", "AlgorithmArnProvider.get_algorithm_arn");
   ("utils", "convert_to");
   ("sample_utils", "tfhub_to_savedmodel");
   ("sample_utils", "image_file_to_tensor");
   ("sample_utils", "add_imagenet_labels");
   ("sample_utils", "print_probabilities_and_labels")].

(** The claim that no notebook calls code defined in another file of the
    repository. *)
Definition no_in_repo_calls : Prop :=
  forall nb, In nb repository ->
  forall W (h : handler W) (w : W),
    Forall (fun ev => event_origin ev <> InRepo) (trace (nb_code nb W) h w).

(** *** Symbolic execution *)

(** [wp m h k Q]: running [m] from [k] under [h] ends in an outcome and a
    kernel related by [Q]. *)
Definition wp {W A} (m : M W A) (h : handler W) (k : kernel W)
  (Q : exn + A -> kernel W -> Prop) : Prop :=
  Q (fst (m h k)) (snd (m h k)).

(** *** The algorithm ARN flows from the helper module to the estimator *)

Definition algorithm_estimator : string := "sagemaker.algorithm.AlgorithmEstimator".

(** Whenever the journal constructs the [AlgorithmEstimator], its
    [algorithm_arn] is the value that an earlier call to
    [AlgorithmArnProvider.get_algorithm_arn] of src/algorithm_arns.py
    returned, and that call was given the region read from the session. *)
Definition arn_flows (j : list event) : Prop :=
  forall n args,
    constructed <$> j !! n = Some (Some (algorithm_estimator, args)) ->
    exists i m region arn,
      i < m /\ m < n /\
      region_read <$> j !! i = Some (Some region) /\
      helper_result <$> j !! m
        = Some (Some ("src.algorithm_arns",
                      "AlgorithmArnProvider.get_algorithm_arn",
                      [PStr region], arn)) /\
      kw_get "algorithm_arn" args = Some arn.

(** Every call into the repository goes to one of the helper functions. *)
Definition helper_call (ev : event) : Prop :=
  forall mf, in_repo_call ev = Some mf -> In mf helper_functions.

(** ** Reading the manifest back *)

(** [int(s)] for a string of decimal digits. *)
Definition read_decimal (s : string) : option nat :=
  Nat.of_uint <$> NilEmpty.uint_of_string s.

(** [line.split('\t')[0]]: the first tab-separated field of a line. *)
Fixpoint first_field (line : string) : string :=
  match line with
  | EmptyString => ""
  | String c rest =>
      if Ascii.eqb c "009" then "" else String c (first_field rest)
  end.

(** The characters '0' to '9'. *)
Definition is_digit (c : ascii) : bool :=
  Nat.leb 48 (nat_of_ascii c) && Nat.leb (nat_of_ascii c) 57.

Fixpoint digits_only (s : string) : bool :=
  match s with
  | EmptyString => true
  | String c rest => is_digit c && digits_only rest
  end.

(** A string without the character '/'. *)
Fixpoint no_slash (s : string) : bool :=
  match s with
  | EmptyString => true
  | String c rest => negb (Ascii.eqb c "/") && no_slash rest
  end.

(** ** The manifest loop against a working directory *)

Module Lst.

(** The working directory as the manifest loop sees it:
    [open(file, 'a')] creates the file when it is missing and every write
    goes to its end.  Nothing else is served. *)
Definition service : handler (gmap string string) :=
  fun A c w =>
    match c in effect A return (exn + A) * gmap string string with
    | FileAppend file text =>
        (inr tt, <[file := default "" (w !! file) ++ text]> w)
    | _ => (inl (Exn "NotImplementedError" "not served"), w)
    end.

(** What reading [file] gives; a missing file reads as empty. *)
Definition content (w : gmap string string) (file : string) : string :=
  default "" (w !! file).

(** The lines of a manifest that go to [file], in order. *)
Fixpoint lines_for (file : string) (entries : list (string * string))
  : string :=
  match entries with
  | [] => ""
  | (f, text) :: rest =>
      if String.eqb f file then text ++ lines_for file rest
      else lines_for file rest
  end.

End Lst.

(** ** Monitors: how values flow from one call to a later one *)

(** A monitor reads a journal entry by entry.  It keeps what it has seen
    in a state and says which entries it allows next. *)
Record monitor (S : Type) : Type := Monitor {
  observe : S -> event -> S;
  allows : S -> event -> Prop
}.
Arguments Monitor {S} _ _.
Arguments observe {S} _ _ _.
Arguments allows {S} _ _ _.

(** The state after a journal. *)
Definition seen {S} (mon : monitor S) (s : S) (j : list event) : S :=
  foldl (observe mon) s j.

(** Every entry of the journal is allowed in the state it meets. *)
Fixpoint accepts {S} (mon : monitor S) (s : S) (j : list event) : Prop :=
  match j with
  | [] => True
  | ev :: j' => allows mon s ev /\ accepts mon (observe mon s ev) j'
  end.

(** [obeys mon init m s Q]: started after a journal that the monitor
    accepted and that left it in state [s], the program [m] adds only
    entries the monitor allows; when it returns [a] the monitor is in a
    state [s'] with [Q a s']. *)
Definition obeys {W A S} (mon : monitor S) (init : S) (m : M W A) (s : S)
  (Q : A -> S -> Prop) : Prop :=
  forall (h : handler W) (k : kernel W),
    accepts mon init (journal k) -> seen mon init (journal k) = s ->
    accepts mon init (journal (snd (m h k))) /\
    match fst (m h k) with
    | inr a => Q a (seen mon init (journal (snd (m h k))))
    | inl _ => True
    end.

(** Remember the latest value that [f] finds in an entry. *)
Definition latest {X} (f : event -> option X) (s : option X) (ev : event)
  : option X :=
  match f ev with
  | Some x => Some x
  | None => s
  end.

(** *** The bucket of the preprocessing notebook *)

(** The bucket name an entry yields: the name loaded from the pickle, or
    the name of a bucket that [create_bucket] created. *)
Definition bucket_obtained (ev : event) : option string :=
  match ev with
  | Ev c r =>
      match c in effect A return exn + A -> option string with
      | PickleLoadStr file => fun r =>
          match r with
          | inr b =>
              if String.eqb file Preprocessing.bucket_pickle then Some b else None
          | inl _ => None
          end
      | CreateBucket b _ => fun r =>
          match r with
          | inr _ => Some b
          | inl _ => None
          end
      | _ => fun _ => None
      end r
  end.

(** The bucket an entry created. *)
Definition bucket_created (ev : event) : option string :=
  match ev with
  | Ev c r =>
      match c in effect A return exn + A -> option string with
      | CreateBucket b _ => fun r =>
          match r with
          | inr _ => Some b
          | inl _ => None
          end
      | _ => fun _ => None
      end r
  end.

(** File and destination of an [S3Uploader.upload] call. *)
Definition upload_target (ev : event) : option (string * string) :=
  match ev with
  | Ev c _ =>
      match c with
      | S3Upload local_path uri => Some (local_path, uri)
      | _ => None
      end
  end.

(** File and value of a [pickle.dump] call. *)
Definition pickle_dumped (ev : event) : option (string * string) :=
  match ev with
  | Ev c _ =>
      match c with
      | PickleDumpStr file v => Some (file, v)
      | _ => None
      end
  end.

(** Where the two record files go in bucket [b]. *)
Definition rec_upload (b : string) (target : string * string) : Prop :=
  target = ("data_recordio/train.rec", "s3://" ++ b ++ "/data/train") \/
  target = ("data_recordio/val.rec", "s3://" ++ b ++ "/data/val").

Definition upload_monitor : monitor (option string) :=
  Monitor (latest bucket_obtained)
    (fun s ev =>
       match upload_target ev with
       | Some target => exists b, s = Some b /\ rec_upload b target
       | None => True
       end).

Definition pickle_monitor : monitor (option string) :=
  Monitor (latest bucket_created)
    (fun s ev =>
       match pickle_dumped ev with
       | Some (file, v) => file = Preprocessing.bucket_pickle /\ s = Some v
       | None => True
       end).

(** Remember every value that [f] finds, oldest first. *)
Definition collect {X} (f : event -> option X) (s : list X) (ev : event)
  : list X :=
  match f ev with
  | Some x => (s ++ [x])%list
  | None => s
  end.

(** *** Experiment, trial and training job *)

(** The experiment an entry created or loaded. *)
Definition experiment_obtained (ev : event) : option string :=
  match ev with
  | Ev c r =>
      match c in effect A return exn + A -> option string with
      | ExperimentCreate _ | ExperimentLoad _ => fun r =>
          match r with
          | inr e => Some e
          | inl _ => None
          end
      | _ => fun _ => None
      end r
  end.

(** The experiment a [Trial.create] call names. *)
Definition trial_requested (ev : event) : option string :=
  match ev with
  | Ev c _ =>
      match c with
      | TrialCreate _ experiment_name => Some experiment_name
      | _ => None
      end
  end.

(** The experiment a trial was created in and the trial's name. *)
Definition trial_created (ev : event) : option (string * string) :=
  match ev with
  | Ev c r =>
      match c in effect A return exn + A -> option (string * string) with
      | TrialCreate _ experiment_name => fun r =>
          match r with
          | inr t => Some (experiment_name, t)
          | inl _ => None
          end
      | _ => fun _ => None
      end r
  end.

(** The keyword arguments of a [fit] call. *)
Definition fit_args (ev : event) : option kwargs :=
  match ev with
  | Ev c _ =>
      match c with
      | Fit _ args => Some args
      | _ => None
      end
  end.

Definition experiment_config (e t : string) : kwargs :=
  [("experiment_config", PDict [
      ("ExperimentName", PStr e);
      ("TrialName", PStr t);
      ("TrialComponentDisplayName", PStr "Training")])].

Definition experiment_monitor : monitor (option string) :=
  Monitor (latest experiment_obtained)
    (fun s ev =>
       match trial_requested ev with
       | Some e => s = Some e
       | None => True
       end).

Definition trial_monitor : monitor (option (string * string)) :=
  Monitor (latest trial_created)
    (fun s ev =>
       match fit_args ev with
       | Some args => exists e t, s = Some (e, t) /\ args = experiment_config e t
       | None => True
       end).

(** *** Compiling and deploying with Neo *)




(** The model of a [deploy] call. *)
Definition deployed (ev : event) : option sdk_obj :=
  match ev with
  | Ev c _ =>
      match c with
      | Deploy model _ => Some model
      | _ => None
      end
  end.






(** *** The data of the AutoGluon notebook *)

(** The table an entry read with [pd.read_csv]. *)
Definition csv_read (ev : event) : option (list string * list (list string)) :=
  match ev with
  | Ev c r =>
      match c in effect A return exn + A -> option (list string * list (list string)) with
      | ReadCsv _ => fun r =>
          match r with
          | inr csv => Some csv
          | inl _ => None
          end
      | _ => fun _ => None
      end r
  end.

(** The positions an entry sampled. *)
Definition sampled (ev : event) : option (list nat) :=
  match ev with
  | Ev c r =>
      match c in effect A return exn + A -> option (list nat) with
      | SampleRows _ _ _ => fun r =>
          match r with
          | inr picked => Some picked
          | inl _ => None
          end
      | _ => fun _ => None
      end r
  end.

(** The number of rows a [sample] call draws from. *)
Definition sample_request (ev : event) : option nat :=
  match ev with
  | Ev c _ =>
      match c with
      | SampleRows n _ _ => Some n
      | _ => None
      end
  end.

(** File and frame of a [to_csv] call. *)
Definition csv_written (ev : event) : option (string * frame) :=
  match ev with
  | Ev c _ =>
      match c with
      | WriteCsv file f => Some (file, f)
      | _ => None
      end
  end.

(** The S3 path that [upload_data] returned for the local file [file]. *)
Definition uploaded_as (file : string) (ev : event) : option string :=
  match ev with
  | Ev c r =>
      match c in effect A return exn + A -> option string with
      | UploadData local_path _ => fun r =>
          match r with
          | inr s3_path => if String.eqb local_path file then Some s3_path else None
          | inl _ => None
          end
      | _ => fun _ => None
      end r
  end.

(** The data a [transform] call is given. *)
Definition transform_input (ev : event) : option string :=
  match ev with
  | Ev c _ =>
      match c with
      | Transform data _ => Some data
      | _ => None
      end
  end.

(** The three files the notebook writes from a split. *)
Definition split_file (s : AutoGluon.split) (written : string * frame) : Prop :=
  written = ("train.csv", AutoGluon.train s) \/
  written = ("test.csv", AutoGluon.test s) \/
  written = ("X_test.csv", AutoGluon.X_test s).

(** Collect the values of two kinds side by side. *)
Definition collect2 {X Y} (f : event -> option X) (g : event -> option Y)
  (s : list X * list Y) (ev : event) : list X * list Y :=
  (collect f (fst s) ev, collect g (snd s) ev).

Definition split_monitor
  : monitor (list (list string * list (list string)) * list (list nat)) :=
  Monitor (collect2 csv_read sampled)
    (fun s ev =>
       match csv_written ev with
       | Some written =>
           match s with
           | ([csv], [picked]) =>
               exists sp,
                 AutoGluon.split_cell (Pandas.read_frame csv) picked = inr sp /\
                 split_file sp written
           | _ => False
           end
       | None => True
       end).

Definition training_inputs (s3_path : string) : kwargs :=
  [("inputs", PDict [("training", PStr s3_path)])].

Definition train_monitor : monitor (option string) :=
  Monitor (latest (uploaded_as "train.csv"))
    (fun s ev =>
       match fit_args ev with
       | Some args => exists p, s = Some p /\ args = training_inputs p
       | None => True
       end).

Definition transform_monitor : monitor (option string) :=
  Monitor (latest (uploaded_as "test.csv"))
    (fun s ev =>
       match transform_input ev with
       | Some data => s = Some data
       | None => True
       end).

(** Once a table has been read, the notebook goes on past the sampling
    call only if the table has the label column. *)
Definition label_monitor : monitor (list (list string * list (list string))) :=
  Monitor (collect csv_read)
    (fun s ev =>
       match s with
       | [] => True
       | [csv] => In AutoGluon.label (fst csv) \/ is_Some (sample_request ev)
       | _ => False
       end).

(** *** The requests of an invocation loop *)

(** Endpoint and payload of a [predict] call. *)
Definition predicted (ev : event) : option (string * pyval) :=
  match ev with
  | Ev c _ =>
      match c with
      | Predict p data => Some (endpoint p, data)
      | _ => None
      end
  end.

(** The [predict] calls of a journal, in order. *)
Definition predict_calls (j : list event) : list (string * pyval) :=
  omap predicted j.

(** The request number [c] (from 0) goes to endpoint [ep] and carries
    [payload] of the test image number [c]; there are at most ten. *)
Definition invoke_monitor (ep : string) (payload : pyval -> pyval)
  (imgs : list pyval) : monitor (list (string * pyval)) :=
  Monitor (collect predicted)
    (fun s ev =>
       match predicted ev with
       | Some call =>
           length s < 10 /\
           exists img, imgs !! length s = Some img /\ call = (ep, payload img)
       | None => True
       end).

(** The request body of the TensorFlow Serving REST API. *)
Definition instances (img : pyval) : pyval := PDict [("instances", img)].

(** ** The version pin against a kernel and its disk *)

Module Sdk.

(** What the version cells see: the version of the SDK that the running
    kernel imported, the files in the working directory and the package
    installations requested so far. *)
Record state : Type := State {
  running : string;
  disk : gmap string string;
  installs : list string
}.

(** [sagemaker.__version__] is the version the kernel imported: a
    [pip install] is recorded and changes nothing until the kernel is
    restarted.  Files behave as files.  Nothing else is served. *)
Definition service : handler state :=
  fun A c w =>
    match c in effect A return (exn + A) * state with
    | SdkVersion => (inr (running w), w)
    | Shell cmd => (inr tt, State (running w) (disk w) (installs w ++ [cmd])%list)
    | PathExists f => (inr (bool_decide (is_Some (disk w !! f))), w)
    | FileWrite f text =>
        (inr tt, State (running w) (<[f := text]> (disk w)) (installs w))
    | FileRead f =>
        match disk w !! f with
        | Some text => (inr text, w)
        | None => (inl (Exn "FileNotFoundError" f), w)
        end
    | FileRemove f =>
        match disk w !! f with
        | Some _ => (inr tt, State (running w) (delete f (disk w)) (installs w))
        | None => (inl (Exn "FileNotFoundError" f), w)
        end
    | _ => (inl (Exn "NotImplementedError" "not served"), w)
    end.

(** The kernel restarted, now running version [v]. *)
Definition restart (v : string) (w : state) : state :=
  State v (disk w) (installs w).

Definition pin_command : string :=
  "pip install " ++ dquote ++ "sagemaker>=1.14.2,<2" ++ dquote.

Definition rollback_command (v : string) : string :=
  "pip install sagemaker==" ++ v.

(** The first character of a version string is '2' or comes after it. *)
Definition starts_at_2 (v : string) : Prop :=
  match v with
  | EmptyString => False
  | String c _ => 50 <= nat_of_ascii c
  end.

End Sdk.

(** *** Listing before creating or loading *)

(** The names an [Experiment.list] call returned. *)
Definition experiment_listing (ev : event) : option (list string) :=
  match ev with
  | Ev c r =>
      match c in effect A return exn + A -> option (list string) with
      | ExperimentList => fun r =>
          match r with
          | inr names => Some names
          | inl _ => None
          end
      | _ => fun _ => None
      end r
  end.

(** The name an [Experiment.create] call is given. *)
Definition create_request (ev : event) : option string :=
  match ev with
  | Ev c _ =>
      match c with
      | ExperimentCreate name => Some name
      | _ => None
      end
  end.

(** The name an [Experiment.load] call is given. *)
Definition load_request (ev : event) : option string :=
  match ev with
  | Ev c _ =>
      match c with
      | ExperimentLoad name => Some name
      | _ => None
      end
  end.

Definition listing_monitor : monitor (option (list string)) :=
  Monitor (latest experiment_listing)
    (fun s ev =>
       match create_request ev with
       | Some name =>
           name = ModelParallel.experiment_name /\
           exists names, s = Some names /\ ~ In name names
       | None => True
       end /\
       match load_request ev with
       | Some name =>
           name = ModelParallel.experiment_name /\
           exists names, s = Some names /\ In name names
       | None => True
       end).

(** *** The TensorFlow Serving notebooks *)

(** The value a [predict] call returned. *)
Definition predict_response (ev : event) : option pyval :=
  match ev with
  | Ev c r =>
      match c in effect A return exn + A -> option pyval with
      | Predict _ _ => fun r =>
          match r with
          | inr v => Some v
          | inl _ => None
          end
      | _ => fun _ => None
      end r
  end.

(** The arguments of a call to [function] of sample_utils.py. *)
Definition sample_utils_args (function : string) (ev : event)
  : option (list pyval) :=
  match ev with
  | Ev c _ =>
      match c with
      | LocalModule module f args =>
          if String.eqb module "sample_utils" && String.eqb f function
          then Some args else None
      | _ => None
      end
  end.

(** The [model_data] of a [Model] constructor call. *)
Definition model_data_of (ev : event) : option (option pyval) :=
  match constructed ev with
  | Some (cls, args) =>
      if String.eqb cls "sagemaker.tensorflow.serving.Model"
      then Some (kw_get "model_data" args) else None
  | None => None
  end.

Definition model_data_monitor : monitor (option string) :=
  Monitor (latest (uploaded_as "mobilenet.tar.gz"))
    (fun s ev =>
       match model_data_of ev with
       | Some data => exists p, s = Some p /\ data = Some (PStr p)
       | None => True
       end).

Definition labels_monitor : monitor (option pyval) :=
  Monitor (latest predict_response)
    (fun s ev =>
       match sample_utils_args "add_imagenet_labels" ev with
       | Some args => exists v, s = Some v /\ args = [v]
       | None => True
       end).

Definition print_monitor : monitor (option pyval) :=
  Monitor (latest predict_response)
    (fun s ev =>
       match sample_utils_args "print_probabilities_and_labels" ev with
       | Some args => exists v, s = Some v /\ args = [v]
       | None => True
       end).

(** The printing helper is called on what the labelling helper was
    called on. *)
Definition relabel_monitor : monitor (option (list pyval)) :=
  Monitor (latest (sample_utils_args "add_imagenet_labels"))
    (fun s ev =>
       match sample_utils_args "print_probabilities_and_labels" ev with
       | Some args => exists labelled, s = Some labelled /\ args = labelled
       | None => True
       end).

Definition region_monitor : monitor (option string) :=
  Monitor (latest region_read)
    (fun s ev =>
       match model_data_of ev with
       | Some data =>
           exists region, s = Some region /\
             data = Some (PStr (ElasticInference.saved_model region))
       | None => True
       end).

(** The world of [demo_world], except that [add_imagenet_labels] returns
    [None], as a function that works on its argument in place does. *)
Definition in_place_world : handler nat :=
  fun A c n =>
    match c in effect A return (exn + A) * nat with
    | LocalModule _ "add_imagenet_labels" _ => (inr PNone, S n)
    | c => demo_world _ c n
    end.

(** * Lemmas and theorems *)

(** ** Unit tests of the pure helpers *)

Example pad10_example : pad10 7 = "0000000007".
Proof. reflexivity. Qed.
Example drop_last_segment_example :
  drop_last_segment "s3://bucket/" = "s3://bucket".
Proof. reflexivity. Qed.
Example part_from_end_example :
  part_from_end ["data_structured"; "train"; "cat"; "a.jpg"] 3 = inr "train".
Proof. reflexivity. Qed.

(** ** Exceptions reach the top level *)

Lemma settled_nil out : settled [] out.
Proof. intros n ev e H. rewrite lookup_nil in H. discriminate. Qed.

Lemma settled_quiet j out out' : settled j None -> out = out' -> settled j out'.
Proof.
  intros Hq _ n ev e Hn He. destruct (Hq n ev e Hn He) as [_ Habs].
  discriminate.
Qed.

Lemma settled_snoc j {A} (c : effect A) (r : exn + A) :
  settled j None -> settled (j ++ [Ev c r])%list (failure r).
Proof.
  intros Hq n ev e Hn He.
  destruct (decide (n < length j)) as [Hlt | Hge].
  - rewrite lookup_app_l in Hn by exact Hlt.
    destruct (Hq n ev e Hn He) as [_ Habs]. discriminate.
  - rewrite lookup_app_r in Hn by lia.
    destruct (n - length j) as [| d] eqn:Hd; simpl in Hn; [| destruct d; discriminate].
    injection Hn as <-. rewrite length_app. simpl. split; [lia |].
    destruct r as [e' | a]; simpl in He |- *; congruence.
Qed.

Lemma faithful_ret {W A} (a : A) : faithful (@ret W A a).
Proof. intros h k Hq. simpl. eapply settled_quiet; eauto. Qed.

Lemma faithful_throw {W A} (e : exn) : faithful (@throw W A e).
Proof. intros h k Hq. simpl. eapply settled_quiet; eauto. Qed.

Lemma faithful_perform {W A} (c : effect A) : faithful (@perform W A c).
Proof.
  intros h k Hq. unfold perform.
  destruct (h A c (world k)) as [r w']. simpl. by apply settled_snoc.
Qed.

Lemma faithful_bind {W A B} (m : M W A) (f : A -> M W B) :
  faithful m -> (forall a, faithful (f a)) -> faithful (bind m f).
Proof.
  intros Hm Hf h k Hq. unfold bind.
  specialize (Hm h k Hq).
  destruct (m h k) as [[e | a] k']; simpl in *; [exact Hm |].
  apply Hf. exact Hm.
Qed.

Lemma faithful_lift {W A} (r : exn + A) : faithful (@lift W A r).
Proof. destruct r; [apply faithful_throw | apply faithful_ret]. Qed.

Lemma faithful_item {W A} (xs : list A) i : faithful (@item W A xs i).
Proof.
  unfold item. destruct (xs !! i); [apply faithful_ret | apply faithful_throw].
Qed.

Lemma faithful_for_each {W A} (xs : list A) (body : A -> M W unit) :
  (forall x, faithful (body x)) -> faithful (for_each xs body).
Proof.
  intros Hb. induction xs as [| x xs IH]; simpl.
  - apply faithful_ret.
  - apply faithful_bind; [apply Hb | intros _; exact IH].
Qed.

Lemma faithful_construct {W} cls args : faithful (@construct W cls args).
Proof.
  apply faithful_bind; [apply faithful_perform | intros _; apply faithful_ret].
Qed.

Create HintDb faithful.
#[export] Hint Resolve faithful_ret faithful_throw faithful_perform
  faithful_lift faithful_item faithful_construct : faithful.

(** Walk down a notebook: binds, loops and branches. *)
Ltac faithful_step :=
  match goal with
  | |- faithful (bind _ _) => apply faithful_bind; [| intros ?]
  | |- faithful (for_each _ _) => apply faithful_for_each; intros ?
  | |- faithful (if ?b then _ else _) => destruct b
  | |- faithful (match ?x with _ => _ end) => destruct x
  | |- faithful _ => solve [auto with faithful]
  end.

Ltac faithful := repeat (cbv zeta; faithful_step).

Lemma faithful_experiment_setup {W} : faithful (@ModelParallel.experiment_setup W).
Proof. unfold ModelParallel.experiment_setup. faithful. Qed.

Lemma faithful_create_bucket_cell {W} : faithful (@Preprocessing.create_bucket_cell W).
Proof. unfold Preprocessing.create_bucket_cell. faithful. Qed.

Lemma faithful_write_lst {W} ids paths : faithful (@Preprocessing.write_lst W ids paths).
Proof. unfold Preprocessing.write_lst. faithful. Qed.

Lemma faithful_invoke_mnist {W} p mnist : faithful (@invoke_mnist W p mnist).
Proof. unfold invoke_mnist. faithful. Qed.

Lemma faithful_inf1_invoke {W} p mnist : faithful (@Inf1.invoke W p mnist).
Proof. unfold Inf1.invoke. faithful. Qed.

Lemma faithful_pin_sdk {W} : faithful (@Inf1.pin_sdk W).
Proof. unfold Inf1.pin_sdk. faithful. Qed.

Lemma faithful_rollback_sdk {W} : faithful (@Inf1.rollback_sdk W).
Proof. unfold Inf1.rollback_sdk. faithful. Qed.

#[export] Hint Resolve faithful_experiment_setup faithful_create_bucket_cell
  faithful_write_lst faithful_invoke_mnist faithful_inf1_invoke
  faithful_pin_sdk faithful_rollback_sdk : faithful.

Lemma faithful_repository nb W : In nb repository -> faithful (nb_code nb W).
Proof.
  unfold repository. simpl.
  intros [<- | [<- | [<- | [<- | [<- | [<- | [<- | []]]]]]]]; simpl.
  - unfold ModelParallel.notebook. faithful.
  - unfold Preprocessing.notebook. faithful.
  - unfold AutoGluon.notebook. faithful.
  - unfold Neo.notebook, convert_to. faithful.
  - unfold Inf1.notebook, convert_to. faithful.
  - unfold TensorFlowHub.notebook, TensorFlowHub.sample_utils. faithful.
  - unfold ElasticInference.notebook. faithful.
Qed.

Example swallowing_is_not_faithful :
  ~ faithful (try_except (perform (DeleteEndpoint "ep")) (fun _ => ret tt)
              : M nat unit).
Proof.
  intros H.
  specialize (H (outage 0 client_error) (Kernel 0 []) (settled_nil None)).
  destruct (H 0 (Ev (DeleteEndpoint "ep") (inl client_error)) client_error
              eq_refl eq_refl) as [_ Habs].
  discriminate.
Qed.

(** C5.  In every notebook of the repository, whatever the outside world
    does: when a call (in particular any SDK call) raises an exception
    [e], the notebook ends with exactly [e] and the failed call is the
    last effect it performs -- nothing is retried, nothing is caught,
    the exception is not replaced by another one. *)
Theorem sdk_exception_propagates :
  forall nb, In nb repository ->
  forall W (h : handler W) (w : W) (n : nat) A (c : effect A) (e : exn),
    trace (nb_code nb W) h w !! n = Some (Ev c (inl e)) ->
    outcome (nb_code nb W) h w = inl e /\
    S n = length (trace (nb_code nb W) h w).
Proof.
  intros nb Hnb W h w n A c e Hn.
  pose proof (faithful_repository nb W Hnb h (Kernel w []) (settled_nil None))
    as Hs.
  destruct (Hs n _ e Hn eq_refl) as [Hlast Hout].
  split; [| exact Hlast].
  unfold outcome, run.
  destruct (fst (nb_code nb W h (Kernel w []))) as [e' | a];
    simpl in Hout; congruence.
Qed.

Lemma sdk_exception_propagates_witness :
  In elastic_inference repository /\
  (exists A (c : effect A),
     origin_of c = SDK /\
     trace (nb_code elastic_inference nat) (outage 4 client_error) 0 !! 4
       = Some (Ev c (inl client_error))) /\
  outcome (nb_code elastic_inference nat) (outage 4 client_error) 0
    = inl client_error /\
  5 = length (trace (nb_code elastic_inference nat) (outage 4 client_error) 0).
Proof.
  split; [simpl; auto 10 |].
  split; [eexists _, _; split; [| vm_compute; reflexivity]; reflexivity |].
  eapply (sdk_exception_propagates elastic_inference ltac:(simpl; auto 10)
            nat (outage 4 client_error) 0 4).
  vm_compute. reflexivity.
Defined.

(** ** The life cycle of an endpoint *)

Lemma ep_run_app s l1 l2 :
  ep_run s (l1 ++ l2)%list =
  match ep_run s l1 with
  | Some s' => ep_run s' l2
  | None => None
  end.
Proof.
  revert s. induction l1 as [| a l1 IH]; intros s; simpl; [reflexivity |].
  destruct (ep_step s a); [apply IH | reflexivity].
Qed.

Lemma lookup_snoc_old {A} (l : list A) (a : A) i x :
  l !! i = Some x -> (l ++ [a])%list !! i = Some x.
Proof. intros H. rewrite lookup_app_l; [exact H | by eapply lookup_lt_Some]. Qed.

Lemma lookup_snoc_inv {A} (l : list A) (a : A) i x :
  (l ++ [a])%list !! i = Some x ->
  (i < length l /\ l !! i = Some x) \/ (i = length l /\ x = a).
Proof.
  intros H. destruct (decide (i < length l)) as [Hlt | Hge].
  - left. split; [exact Hlt |]. by rewrite lookup_app_l in H.
  - right. rewrite lookup_app_r in H by lia.
    destruct (i - length l) as [| n] eqn:E; simpl in H.
    + split; [lia | congruence].
    + destruct n; discriminate.
Qed.






(** *** Rules of the program logic *)

Lemma tracked_ok {W} s (k : kernel W) : tracked s k -> lifecycle_ok (journal k).
Proof. intros H. exists s. exact H. Qed.

Lemma tracked_snoc {W} s s' (k : kernel W) (w' : W) {A} (c : effect A) r :
  tracked s k -> ep_step s (ep_action_of (Ev c r)) = Some s' ->
  tracked s' (Kernel w' (journal k ++ [Ev c r])%list).
Proof.
  unfold tracked; simpl; intros Hk Hstep.
  rewrite map_app, ep_run_app, Hk. simpl. by rewrite Hstep.
Qed.

Lemma safe_ret {W A} (a : A) s Q : Q a s -> safe (@ret W A a) s Q.
Proof. intros HQ h k Hk. simpl. eauto. Qed.

Lemma safe_throw {W A} (e : exn) s Q : safe (@throw W A e) s Q.
Proof. intros h k Hk. simpl. by eapply tracked_ok. Qed.

Lemma safe_bind {W A B} (m : M W A) (f : A -> M W B) s Q :
  safe m s (fun a s' => safe (f a) s' Q) -> safe (bind m f) s Q.
Proof.
  intros Hm h k Hk. unfold bind. specialize (Hm h k Hk).
  destruct (m h k) as [[e | a] k']; [exact Hm |].
  destruct Hm as (s' & Hk' & Hf). by apply Hf.
Qed.

Lemma safe_perform {W A} (c : effect A) s Q :
  (forall r,
     match ep_step s (ep_action_of (Ev c r)) with
     | Some s' => match r with inr a => Q a s' | inl _ => True end
     | None => False
     end) ->
  safe (@perform W A c) s Q.
Proof.
  intros H h k Hk. unfold perform.
  destruct (h A c (world k)) as [r w']. specialize (H r).
  destruct (ep_step s (ep_action_of (Ev c r))) as [s' |] eqn:Hstep; [| done].
  pose proof (tracked_snoc s s' k w' c r Hk Hstep) as Hk'.
  destruct r as [e | a]; [by eapply tracked_ok | eauto].
Qed.

Lemma safe_deploy {W} model args s Q :
  (forall ep, Q ep (<[ep := false]> s)) ->
  safe (@perform W _ (Deploy model args)) s Q.
Proof. intros H. apply safe_perform. intros [e | ep]; simpl; [done | apply H]. Qed.

Lemma safe_predict {W} p data s Q :
  is_Some (s !! endpoint p) ->
  (forall v, Q v (<[endpoint p := true]> s)) ->
  safe (@perform W _ (Predict p data)) s Q.
Proof.
  intros [b Hb] H. apply safe_perform. intros r. simpl. rewrite Hb.
  destruct r; [done | apply H].
Qed.

Lemma safe_delete {W} ep s Q :
  s !! ep = Some true ->
  Q tt (delete ep s) ->
  safe (@perform W _ (DeleteEndpoint ep)) s Q.
Proof.
  intros Hb H. apply safe_perform. intros r. simpl. rewrite Hb.
  destruct r as [e | []]; [done | apply H].
Qed.

Lemma safe_unrelated {W A} (c : effect A) s Q :
  (forall r, ep_action_of (Ev c r) = Unrelated) ->
  (forall a, Q a s) ->
  safe (@perform W A c) s Q.
Proof.
  intros Hc H. apply safe_perform. intros r. rewrite Hc. simpl.
  destruct r; [done | apply H].
Qed.

Lemma safe_lift {W A} (r : exn + A) s Q :
  (forall a, r = inr a -> Q a s) -> safe (@lift W A r) s Q.
Proof.
  destruct r as [e | a]; intros H; [apply safe_throw | apply safe_ret; auto].
Qed.

Lemma safe_item {W A} (xs : list A) i s Q :
  (forall a, Q a s) -> safe (@item W A xs i) s Q.
Proof.
  intros H. unfold item.
  destruct (xs !! i); [apply safe_ret; auto | apply safe_throw].
Qed.

Lemma safe_mono {W A} (m : M W A) s (Q1 Q2 : A -> gmap string bool -> Prop) :
  safe m s Q1 -> (forall a s', Q1 a s' -> Q2 a s') -> safe m s Q2.
Proof.
  intros Hm HQ h k Hk. specialize (Hm h k Hk).
  destruct (m h k) as [[e | a] k']; [exact Hm |].
  destruct Hm as (s' & Hk' & H1). eauto.
Qed.

(** A loop whose body leaves the endpoints alone. *)
Lemma safe_for_each_neutral {W A} (xs : list A) (body : A -> M W unit) s Q :
  (forall x, safe (body x) s (fun _ s' => s' = s)) ->
  Q tt s ->
  safe (for_each xs body) s Q.
Proof.
  intros Hb HQ. induction xs as [| x xs IH]; simpl.
  - by apply safe_ret.
  - apply safe_bind. eapply safe_mono; [apply Hb |].
    intros _ s' ->. exact IH.
Qed.


(** One step through a notebook. *)
Ltac safe_step :=
  lazymatch goal with
  | |- safe (bind _ _) _ _ => apply safe_bind
  | |- safe (ret _) _ _ => apply safe_ret
  | |- safe (throw _) _ _ => apply safe_throw
  | |- safe (lift _) _ _ => apply safe_lift; intros ? _
  | |- safe (item _ _) _ _ => apply safe_item; intros ?
  | |- safe (perform (Deploy _ _)) _ _ => apply safe_deploy; intros ?
  | |- safe (perform (Predict _ _)) _ _ =>
      apply safe_predict; [simpl; rewrite lookup_insert_eq; eauto | intros ?]
  | |- safe (perform (DeleteEndpoint _)) _ _ =>
      apply safe_delete; [simpl; apply lookup_insert_eq |]
  | |- safe (perform _) _ _ =>
      apply safe_unrelated; [intros ?; reflexivity | intros ?]
  | |- safe (if ?b then _ else _) _ _ => destruct b
  | |- safe (for_each (seq _ _) _) _ _ => simpl for_each
  | |- safe (for_each _ _) _ _ =>
      apply safe_for_each_neutral; [intros [? ?] |]
  | |- safe (construct _ _) _ _ => unfold construct
  | |- safe (convert_to _) _ _ => unfold convert_to
  | |- True => exact I
  | |- _ = _ => reflexivity
  end.

Ltac safe := repeat (cbv zeta; safe_step).




(** The Neo notebook goes through the cycle twice, once per endpoint. *)
Example neo_cycles :
  List.filter
    (fun a => match a with Unrelated => false | _ => true end)
    (map ep_action_of (trace (nb_code neo nat) demo_world 0))
  = (Deployed "endpoint-10" :: replicate 10 (Invoked "endpoint-10")
       ++ [Deleted "endpoint-10"]
       ++ Deployed "endpoint-46" :: replicate 10 (Invoked "endpoint-46")
       ++ [Deleted "endpoint-46"])%list.
Proof. vm_compute. reflexivity. Qed.

(** ** The experiment set-up cell *)

Lemma existsb_eqb_elem_of (x : string) (l : list string) :
  existsb (String.eqb x) l = true <-> x ∈ l.
Proof.
  rewrite existsb_exists. split.
  - intros (y & Hy & Heq). apply String.eqb_eq in Heq as ->.
    by apply list_elem_of_In.
  - intros Hx. exists x. split; [by apply list_elem_of_In | apply String.eqb_refl].
Qed.

Lemma experiment_setup_present (names : gset string) :
  ModelParallel.experiment_name ∈ names ->
  run ModelParallel.experiment_setup Experiments.service names =
  (inr ModelParallel.experiment_name,
   Kernel names
     [Ev ExperimentList (inr (elements names));
      Ev (BotoClient "sagemaker") (inr tt);
      Ev (ExperimentLoad ModelParallel.experiment_name)
         (inr ModelParallel.experiment_name)]).
Proof.
  intros Hin. unfold run, ModelParallel.experiment_setup, bind, perform.
  cbn -[existsb ModelParallel.experiment_name elements decide].
  assert (existsb (String.eqb ModelParallel.experiment_name) (elements names) = true)
    as ->.
  { apply existsb_eqb_elem_of. by apply elem_of_elements. }
  cbn -[ModelParallel.experiment_name elements decide].
  destruct (decide (ModelParallel.experiment_name ∈ names)); [reflexivity | done].
Qed.

Lemma experiment_setup_absent (names : gset string) :
  ModelParallel.experiment_name ∉ names ->
  run ModelParallel.experiment_setup Experiments.service names =
  (inr ModelParallel.experiment_name,
   Kernel (names ∪ {[ModelParallel.experiment_name]})
     [Ev ExperimentList (inr (elements names));
      Ev (BotoClient "sagemaker") (inr tt);
      Ev (ExperimentCreate ModelParallel.experiment_name)
         (inr ModelParallel.experiment_name)]).
Proof.
  intros Hin. unfold run, ModelParallel.experiment_setup, bind, perform.
  cbn -[existsb ModelParallel.experiment_name elements decide].
  assert (existsb (String.eqb ModelParallel.experiment_name) (elements names) = false)
    as ->.
  { apply not_true_is_false. rewrite existsb_eqb_elem_of, elem_of_elements. exact Hin. }
  cbn -[ModelParallel.experiment_name elements decide].
  destruct (decide (ModelParallel.experiment_name ∈ names)); [done | reflexivity].
Qed.

(** C9.  Against the Experiments service, for every set of existing
    experiments: the set-up cell succeeds and evaluates to the experiment
    "SM-MP-DEMO"; afterwards the set of experiment names is the prior set
    united with that name.  If the name existed, the experiment is loaded
    and [Experiment.create] is not called (the set is unchanged);
    otherwise [Experiment.create] is called exactly once, with that name,
    and [Experiment.load] is not called. *)
Theorem experiment_setup_idempotent (names : gset string) :
  let name := ModelParallel.experiment_name in
  let r := run ModelParallel.experiment_setup Experiments.service names in
  name = "SM-MP-DEMO" /\
  fst r = inr name /\
  world (snd r) = names ∪ {[name]} /\
  (name ∈ names ->
     world (snd r) = names /\
     Experiments.create_calls (journal (snd r)) = [] /\
     Experiments.load_calls (journal (snd r)) = [name]) /\
  (name ∉ names ->
     Experiments.create_calls (journal (snd r)) = [name] /\
     Experiments.load_calls (journal (snd r)) = []).
Proof.
  intros name r. subst r.
  split; [reflexivity |].
  destruct (decide (name ∈ names)) as [Hin | Hout].
  - rewrite (experiment_setup_present names Hin). simpl.
    split; [reflexivity |]. split.
    { apply set_eq. intros x. rewrite elem_of_union, elem_of_singleton.
      split; [intros Hx; by left | intros [Hx | ->]; assumption]. }
    split; [intros _; repeat split | done].
  - rewrite (experiment_setup_absent names Hout). simpl.
    split; [reflexivity |]. split; [reflexivity |].
    split; [done | intros _; repeat split].
Qed.

Lemma experiment_setup_idempotent_witness :
  let names : gset string := {["SM-MP-DEMO"]} ∪ {["customer-churn"]} in
  let r := run ModelParallel.experiment_setup Experiments.service names in
  ModelParallel.experiment_name ∈ names /\
  fst r = inr "SM-MP-DEMO" /\
  world (snd r) = names /\
  Experiments.create_calls (journal (snd r)) = [] /\
  Experiments.load_calls (journal (snd r)) = ["SM-MP-DEMO"].
Proof.
  intros names r.
  assert (Hin : ModelParallel.experiment_name ∈ names).
  { apply elem_of_union_l. by apply elem_of_singleton. }
  split; [exact Hin |].
  destruct (experiment_setup_idempotent names) as (_ & Hout & _ & Hpresent & _).
  split; [exact Hout |]. exact (Hpresent Hin).
Defined.

(** Running the cell a second time changes nothing. *)
Corollary experiment_setup_twice (names : gset string) :
  let after := world (snd (run ModelParallel.experiment_setup Experiments.service names)) in
  world (snd (run ModelParallel.experiment_setup Experiments.service after)) = after.
Proof.
  intros after.
  assert (ModelParallel.experiment_name ∈ after) as Hin.
  { subst after.
    destruct (decide (ModelParallel.experiment_name ∈ names)) as [Hin | Hout].
    - by rewrite (experiment_setup_present names Hin).
    - rewrite (experiment_setup_absent names Hout). simpl.
      apply elem_of_union_r. by apply elem_of_singleton. }
  by rewrite (experiment_setup_present after Hin).
Qed.

(** ** The bucket cell and the disk *)

(** On an empty disk the first run creates a bucket and pickles its name;
    the second run loads that name, where a run on a disk without the
    pickle would have created a second bucket. *)
Lemma bucket_cell_reloads_stored_name : ~ no_persistent_state.
Proof.
  intros H. destruct (H Disk.empty) as [Hout _].
  vm_compute in Hout. discriminate.
Qed.

Example bucket_cell_second_run :
  let w1 := world (snd (run Preprocessing.create_bucket_cell Disk.service Disk.empty)) in
  run Preprocessing.create_bucket_cell Disk.service w1
  = (inr "sagemaker-builtin-ic-uuid-0",
     Kernel w1
       [Ev (PathExists Preprocessing.bucket_pickle) (inr true);
        Ev (PickleLoadStr Preprocessing.bucket_pickle)
           (inr "sagemaker-builtin-ic-uuid-0")]).
Proof. vm_compute. reflexivity. Qed.

Lemma bucket_cell_load (w : Disk.state) (stored : string) :
  Disk.files w !! Preprocessing.bucket_pickle = Some stored ->
  run Preprocessing.create_bucket_cell Disk.service w
  = (inr stored,
     Kernel w
       [Ev (PathExists Preprocessing.bucket_pickle) (inr true);
        Ev (PickleLoadStr Preprocessing.bucket_pickle) (inr stored)]).
Proof.
  intros Hf. unfold run, Preprocessing.create_bucket_cell, bind, perform.
  cbn -[Preprocessing.bucket_pickle]. rewrite Hf.
  rewrite bool_decide_eq_true_2 by eauto.
  cbn -[Preprocessing.bucket_pickle]. rewrite Hf. reflexivity.
Qed.

Lemma bucket_cell_create (w : Disk.state) :
  let name := "sagemaker-builtin-ic-" ++ Disk.uuid (Disk.draws w) in
  Disk.files w !! Preprocessing.bucket_pickle = None ->
  name ∉ Disk.buckets w ->
  run Preprocessing.create_bucket_cell Disk.service w
  = (inr name,
     Kernel (Disk.State (<[Preprocessing.bucket_pickle := name]> (Disk.files w))
                        (Disk.buckets w ∪ {[name]}) (S (Disk.draws w)))
       [Ev (PathExists Preprocessing.bucket_pickle) (inr false);
        Ev Uuid4 (inr (Disk.uuid (Disk.draws w)));
        Ev (BotoResource "s3") (inr tt);
        Ev SagemakerSession (inr tt);
        Ev RegionName (inr "us-west-2");
        Ev (CreateBucket name "us-west-2") (inr tt);
        Ev (PickleDumpStr Preprocessing.bucket_pickle name) (inr tt)]).
Proof.
  intros name Hf Hb. unfold run, Preprocessing.create_bucket_cell, bind, perform.
  cbn -[Preprocessing.bucket_pickle Disk.uuid]. rewrite Hf.
  rewrite bool_decide_eq_false_2 by (intros [? ?]; discriminate).
  cbn -[Preprocessing.bucket_pickle Disk.uuid].
  fold name. destruct (decide (name ∈ Disk.buckets w)); [done | reflexivity].
Qed.

(** C2, amended.  The bucket cell keeps state on local disk.  With no
    pickle on disk and the fresh name free, a run draws a uuid, creates the
    bucket "sagemaker-builtin-ic-<uuid>" and pickles the name.  With a
    pickle on disk, a run returns the stored name and does nothing else: no
    uuid is drawn, no bucket is created, the world is unchanged.  So once a
    run has returned a bucket name, every later run returns that same name. *)
Theorem bucket_cell_persists (w : Disk.state) :
  (forall stored,
     Disk.files w !! Preprocessing.bucket_pickle = Some stored ->
     run Preprocessing.create_bucket_cell Disk.service w
     = (inr stored,
        Kernel w
          [Ev (PathExists Preprocessing.bucket_pickle) (inr true);
           Ev (PickleLoadStr Preprocessing.bucket_pickle) (inr stored)])) /\
  (let name := "sagemaker-builtin-ic-" ++ Disk.uuid (Disk.draws w) in
   Disk.files w !! Preprocessing.bucket_pickle = None ->
   name ∉ Disk.buckets w ->
   fst (run Preprocessing.create_bucket_cell Disk.service w) = inr name /\
   Disk.files (world (snd (run Preprocessing.create_bucket_cell Disk.service w)))
     !! Preprocessing.bucket_pickle = Some name /\
   Disk.buckets (world (snd (run Preprocessing.create_bucket_cell Disk.service w)))
     = Disk.buckets w ∪ {[name]}) /\
  (forall name w',
     run Preprocessing.create_bucket_cell Disk.service w = (inr name, w') ->
     fst (run Preprocessing.create_bucket_cell Disk.service (world w')) = inr name /\
     world (snd (run Preprocessing.create_bucket_cell Disk.service (world w')))
       = world w').
Proof.
  split; [apply bucket_cell_load |]. split.
  - intros name Hf Hb. rewrite (bucket_cell_create w Hf Hb). simpl.
    split; [reflexivity |]. split; [apply lookup_insert_eq | reflexivity].
  - intros name w' Hrun.
    assert (Disk.files (world w') !! Preprocessing.bucket_pickle = Some name) as Hf'.
    { destruct (Disk.files w !! Preprocessing.bucket_pickle) as [stored |] eqn:Hf.
      - rewrite (bucket_cell_load w stored Hf) in Hrun.
        injection Hrun as <- <-. exact Hf.
      - revert Hrun.
        unfold run, Preprocessing.create_bucket_cell, bind, perform.
        cbn -[Preprocessing.bucket_pickle Disk.uuid]. rewrite Hf.
        rewrite bool_decide_eq_false_2 by (intros [? ?]; discriminate).
        cbn -[Preprocessing.bucket_pickle Disk.uuid].
        destruct (decide (_ ∈ Disk.buckets w)); [discriminate |].
        intros Hrun. injection Hrun as <- <-. simpl. apply lookup_insert_eq. }
    rewrite (bucket_cell_load (world w') name Hf'). split; reflexivity.
Qed.

Lemma bucket_cell_persists_witness :
  fst (run Preprocessing.create_bucket_cell Disk.service Disk.empty)
    = inr "sagemaker-builtin-ic-uuid-0" /\
  let w1 := snd (run Preprocessing.create_bucket_cell Disk.service Disk.empty) in
  fst (run Preprocessing.create_bucket_cell Disk.service (world w1))
    = inr "sagemaker-builtin-ic-uuid-0" /\
  world (snd (run Preprocessing.create_bucket_cell Disk.service (world w1)))
    = world w1.
Proof.
  split; [vm_compute; reflexivity |].
  intros w1.
  apply (proj2 (proj2 (bucket_cell_persists Disk.empty))
           "sagemaker-builtin-ic-uuid-0" w1).
  vm_compute. reflexivity.
Defined.

(** ** The order on strings is a total order *)

Lemma ascii_compare_refl (a : ascii) : Ascii.compare a a = Eq.
Proof. unfold Ascii.compare. apply N.compare_refl. Qed.

Lemma ascii_compare_lt_trans (a b c : ascii) :
  Ascii.compare a b = Lt -> Ascii.compare b c = Lt -> Ascii.compare a c = Lt.
Proof.
  unfold Ascii.compare. rewrite !N.compare_lt_iff. apply N.lt_trans.
Qed.

Lemma string_compare_refl (s : string) : String.compare s s = Eq.
Proof.
  induction s as [| c s IH]; simpl; [reflexivity |].
  by rewrite ascii_compare_refl.
Qed.

Lemma string_compare_lt_trans (a b c : string) :
  String.compare a b = Lt -> String.compare b c = Lt -> String.compare a c = Lt.
Proof.
  revert b c. induction a as [| x a IH]; intros [| y b] [| z c]; simpl;
    try discriminate; try reflexivity.
  destruct (Ascii.compare x y) eqn:Hxy; try discriminate;
    destruct (Ascii.compare y z) eqn:Hyz; try discriminate; intros Hab Hbc.
  - apply Ascii.compare_eq_iff in Hxy as ->. rewrite Hyz. by eapply IH.
  - apply Ascii.compare_eq_iff in Hxy as ->. by rewrite Hyz.
  - apply Ascii.compare_eq_iff in Hyz as <-. by rewrite Hxy.
  - by rewrite (ascii_compare_lt_trans x y z).
Qed.

Lemma str_le_alt (a b : string) : str_le a b <-> a = b \/ str_lt a b.
Proof.
  unfold str_le, str_lt, String.leb, String.ltb.
  destruct (String.compare a b) eqn:Hc.
  - apply String.compare_eq_iff in Hc. tauto.
  - tauto.
  - split; [discriminate |]. intros [-> | ?]; [| discriminate].
    rewrite string_compare_refl in Hc. discriminate.
Qed.

Lemma str_lt_irrefl (a : string) : ~ str_lt a a.
Proof.
  unfold str_lt, String.ltb. by rewrite string_compare_refl.
Qed.

Lemma str_lt_trans (a b c : string) : str_lt a b -> str_lt b c -> str_lt a c.
Proof.
  unfold str_lt, String.ltb. intros Hab Hbc.
  destruct (String.compare a b) eqn:H1; try discriminate.
  destruct (String.compare b c) eqn:H2; try discriminate.
  by rewrite (string_compare_lt_trans a b c).
Qed.

#[global] Instance str_le_trans : Transitive str_le.
Proof.
  intros a b c. rewrite !str_le_alt.
  intros [-> | Hab] [-> | Hbc]; eauto using str_lt_trans.
Qed.

#[global] Instance str_le_total : Total str_le.
Proof. intros a b. apply String.leb_total. Qed.

Lemma str_lt_not_le (a b : string) : str_lt a b -> ~ str_le b a.
Proof.
  intros Hab Hba. apply str_le_alt in Hba as [-> | Hba].
  - by apply (str_lt_irrefl a).
  - by apply (str_lt_irrefl a), (str_lt_trans a b a).
Qed.

Lemma sorted_strongly (xs : list string) : StronglySorted str_le (sorted xs).
Proof. apply StronglySorted_merge_sort; apply _. Qed.

Lemma sorted_perm (xs : list string) : sorted xs ≡ₚ xs.
Proof. apply merge_sort_Permutation. Qed.

Lemma StronglySorted_lookup {A} (R : relation A) (l : list A) i j x y :
  StronglySorted R l -> i < j -> l !! i = Some x -> l !! j = Some y -> R x y.
Proof.
  intros Hs. revert i j x y.
  induction Hs as [| a l Hs IH Hall]; intros i j x y Hij Hi Hj.
  - rewrite lookup_nil in Hi. discriminate.
  - destruct j as [| j]; [lia |]. simpl in Hj. destruct i as [| i]; simpl in Hi.
    + injection Hi as <-. rewrite Forall_forall in Hall. apply Hall.
      by eapply list_elem_of_lookup_2.
    + apply (IH i j); [lia | assumption | assumption].
Qed.

(** ** The category ids *)

Lemma enumerate_snoc {A} (l : list A) (x : A) :
  enumerate (l ++ [x])%list = (enumerate l ++ [(length l, x)])%list.
Proof.
  unfold enumerate. rewrite imap_app. simpl. by rewrite Nat.add_0_r.
Qed.

Lemma enumerate_lookup {A} (l : list A) i x :
  enumerate l !! i = Some x <-> fst x = i /\ l !! i = Some (snd x).
Proof.
  unfold enumerate. rewrite list_lookup_imap. destruct x as [j y].
  destruct (l !! i) as [z |]; simpl.
  - split; [intros [= <- <-]; done | intros [<- [= <-]]; done].
  - split; [discriminate | intros [_ ?]; discriminate].
Qed.

(** A later occurrence overwrites an earlier one: each name is bound to
    the position of its last occurrence. *)
Lemma index_dict_lookup (l : list string) (name : string) (i : nat) :
  index_dict l !! name = Some i <->
  l !! i = Some name /\ forall j, i < j -> l !! j <> Some name.
Proof.
  unfold index_dict. revert i.
  induction l as [| x l IH] using rev_ind; intros i.
  - simpl. rewrite lookup_empty, lookup_nil.
    split; [discriminate | intros [? _]; discriminate].
  - rewrite enumerate_snoc, foldl_app. simpl.
    destruct (decide (x = name)) as [-> | Hne].
    + rewrite lookup_insert_eq. split.
      * intros [= <-]. split; [by rewrite list_lookup_middle |].
        intros j Hj Hl. apply lookup_lt_Some in Hl. rewrite length_app in Hl.
        simpl in Hl. lia.
      * intros [Hi Hlast]. f_equal.
        destruct (decide (i = length l)) as [-> | Hi']; [reflexivity |].
        assert (i < length l).
        { apply lookup_lt_Some in Hi. rewrite length_app in Hi. simpl in Hi. lia. }
        exfalso. apply (Hlast (length l)); [assumption |].
        by rewrite list_lookup_middle.
    + rewrite lookup_insert_ne by exact Hne. rewrite IH. split.
      * intros [Hi Hlast]. split; [by apply lookup_snoc_old |].
        intros j Hj Hl. apply lookup_snoc_inv in Hl as [[_ Hl] | [_ Hl]].
        -- by apply (Hlast j).
        -- congruence.
      * intros [Hi Hlast].
        apply lookup_snoc_inv in Hi as [[_ Hi] | [_ Hi]]; [| congruence].
        split; [exact Hi |]. intros j Hj Hl. apply (Hlast j Hj).
        by apply lookup_snoc_old.
Qed.

Lemma index_dict_is_Some (l : list string) (name : string) :
  is_Some (index_dict l !! name) <-> name ∈ l.
Proof.
  split.
  - intros [i Hi]. apply index_dict_lookup in Hi as [Hi _].
    by eapply list_elem_of_lookup_2.
  - intros Hin. induction l as [| x l IH] using rev_ind.
    + by apply elem_of_nil in Hin.
    + unfold index_dict. rewrite enumerate_snoc, foldl_app. simpl.
      destruct (decide (x = name)) as [-> | Hne].
      * rewrite lookup_insert_eq. eauto.
      * rewrite lookup_insert_ne by exact Hne. apply IH.
        apply elem_of_app in Hin as [Hin | Hin]; [exact Hin |].
        apply list_elem_of_singleton in Hin. congruence.
Qed.

Lemma category_ids_unfold labels :
  Preprocessing.category_ids labels
  = index_dict (sorted (Preprocessing.values labels)).
Proof. reflexivity. Qed.

(** ** Properties of every journal entry *)

Lemma emits_ret {W A} P (a : A) : emits P (@ret W A a).
Proof. intros h k Hk. exact Hk. Qed.

Lemma emits_throw {W A} P (e : exn) : emits P (@throw W A e).
Proof. intros h k Hk. exact Hk. Qed.

Lemma emits_lift {W A} P (r : exn + A) : emits P (@lift W A r).
Proof. destruct r; [apply emits_throw | apply emits_ret]. Qed.

Lemma emits_item {W A} P (xs : list A) i : emits P (@item W A xs i).
Proof. unfold item. destruct (xs !! i); [apply emits_ret | apply emits_throw]. Qed.

Lemma emits_perform {W A} (P : event -> Prop) (c : effect A) :
  (forall r, P (Ev c r)) -> emits P (@perform W A c).
Proof.
  intros Hc h k Hk. unfold perform.
  destruct (h A c (world k)) as [r w']. simpl.
  apply Forall_app. split; [exact Hk |]. constructor; [apply Hc | constructor].
Qed.

Lemma emits_bind {W A B} P (m : M W A) (f : A -> M W B) :
  emits P m -> (forall a, emits P (f a)) -> emits P (bind m f).
Proof.
  intros Hm Hf h k Hk. unfold bind. specialize (Hm h k Hk).
  destruct (m h k) as [[e | a] k']; simpl in *; [exact Hm |].
  by apply Hf.
Qed.

Lemma emits_bind_lift {W A B} P (r : exn + A) (f : A -> M W B) :
  (forall a, r = inr a -> emits P (f a)) -> emits P (bind (lift r) f).
Proof.
  intros Hf. destruct r as [e | a]; simpl.
  - intros h k Hk. exact Hk.
  - intros h k Hk. apply (Hf a eq_refl h k Hk).
Qed.

Lemma emits_for_each {W A} P (xs : list A) (body : A -> M W unit) :
  (forall x, x ∈ xs -> emits P (body x)) -> emits P (for_each xs body).
Proof.
  induction xs as [| x xs IH]; intros Hb; simpl.
  - apply emits_ret.
  - apply emits_bind.
    + apply Hb. by left.
    + intros _. apply IH. intros y Hy. apply Hb. by right.
Qed.

Lemma emits_run {W A} P (m : M W A) :
  emits P m -> forall (h : handler W) (w : W), Forall P (trace m h w).
Proof. intros Hm h w. apply (Hm h (Kernel w [])). constructor. Qed.

Lemma lst_entry_inr ids idx p file text :
  Preprocessing.lst_entry ids idx p = inr (file, text) ->
  exists parent split id,
    part_from_end p 2 = inr parent /\
    part_from_end p 3 = inr split /\
    ids !! parent = Some id /\
    file = split ++ ".lst" /\
    text = pad10 idx ++ tab ++ decimal id ++ tab ++ as_posix p ++ newline.
Proof.
  unfold Preprocessing.lst_entry.
  destruct (part_from_end p 2) as [e | parent]; [discriminate |].
  destruct (ids !! parent) as [id |] eqn:Hid; [| discriminate].
  destruct (part_from_end p 3) as [e | split]; [discriminate |].
  intros [= <- <-]. exists parent, split, id. repeat split. exact Hid.
Qed.

Lemma write_lst_emits {W} ids image_paths :
  emits (lst_event ids image_paths) (@Preprocessing.write_lst W ids image_paths).
Proof.
  unfold Preprocessing.write_lst. apply emits_for_each.
  intros [idx p] Hin.
  apply list_elem_of_lookup in Hin as [i Hi].
  apply enumerate_lookup in Hi as [<- Hp]. simpl in Hp.
  apply emits_bind_lift. intros [file text] He.
  apply emits_perform. intros r. simpl.
  apply lst_entry_inr in He as (parent & split & id & H2 & H3 & Hid & -> & ->).
  exists idx, p, parent, split, id. repeat split; assumption.
Qed.

Lemma remove_dups_NoDup (l : list string) : NoDup l -> remove_dups l = l.
Proof.
  induction 1 as [| x l Hx Hl IH]; simpl; [reflexivity |].
  destruct (decide_rel elem_of x l); [done | by rewrite IH].
Qed.

(** Two labels with the same name: the ids are 1 and 2, not 0 and 1. *)
Lemma duplicate_names_skip_an_id :
  ~ ids_are_consecutive [(1, "cat"); (2, "cat"); (3, "dog")].
Proof.
  intros H. destruct (H 0) as [H0 _].
  destruct H0 as [name Hname]; [vm_compute; lia |].
  rewrite category_ids_unfold in Hname.
  apply index_dict_lookup in Hname as [Hfirst Hlast].
  vm_compute in Hfirst. injection Hfirst as <-.
  apply (Hlast 1); [lia | reflexivity].
Qed.

Example category_ids_duplicates :
  let ids := Preprocessing.category_ids [(1, "cat"); (2, "cat"); (3, "dog")] in
  ids !! "cat" = Some 1 /\ ids !! "dog" = Some 2 /\ size ids = 2.
Proof. vm_compute. auto. Qed.

Example category_ids_distinct :
  let ids := Preprocessing.category_ids [(17, "dog"); (18, "cat"); (21, "bird")] in
  ids !! "bird" = Some 0 /\ ids !! "cat" = Some 1 /\ ids !! "dog" = Some 2.
Proof. vm_compute. auto. Qed.

(** C8, amended.  [category_ids] gives each category name the position
    of its last occurrence in the sorted list of names.  It binds exactly
    the category names; a lexicographically smaller name gets a strictly
    smaller id, so the assignment is injective and order preserving; every
    id is below the number of labels.  When the category names are
    pairwise distinct the ids are exactly the consecutive integers
    0..n-1.  Every line the manifest loop appends to a .lst file carries
    the zero-padded position of the image, the id [category_ids] gives to
    the name of the image's parent directory, and the image's path. *)
Theorem category_ids_order_preserving (category_labels : list (nat * string)) :
  let names := Preprocessing.values category_labels in
  let ids := Preprocessing.category_ids category_labels in
  (forall name i,
     ids !! name = Some i <->
     sorted names !! i = Some name /\
     forall j, i < j -> sorted names !! j <> Some name) /\
  (forall name, In name names <-> exists i, ids !! name = Some i) /\
  (forall a b i j,
     ids !! a = Some i -> ids !! b = Some j -> str_lt a b -> i < j) /\
  (forall a b i, ids !! a = Some i -> ids !! b = Some i -> a = b) /\
  (forall a i, ids !! a = Some i -> i < length names) /\
  (NoDup names ->
   forall i, i < length (remove_dups names) <-> exists name, ids !! name = Some i) /\
  (forall (image_paths : list path) W (h : handler W) (w : W) n file text r,
     trace (Preprocessing.write_lst ids image_paths) h w !! n
       = Some (Ev (FileAppend file text) r) ->
     exists idx p parent id,
       image_paths !! idx = Some p /\
       part_from_end p 2 = inr parent /\
       ids !! parent = Some id /\
       text = pad10 idx ++ tab ++ decimal id ++ tab ++ as_posix p ++ newline).
Proof.
  intros names ids.
  pose proof (sorted_strongly names) as Hsorted.
  pose proof (sorted_perm names) as Hperm.
  assert (Hids : forall a i, ids !! a = Some i <->
            sorted names !! i = Some a /\
            forall j, i < j -> sorted names !! j <> Some a).
  { intros a i. subst ids. rewrite category_ids_unfold. apply index_dict_lookup. }
  split; [exact Hids |].
  split; [| split; [| split; [| split; [| split]]]].
  - intros name. rewrite <- list_elem_of_In, <- Hperm.
    rewrite <- index_dict_is_Some. reflexivity.
  - intros a b i j Ha Hb Hlt.
    apply Hids in Ha as [Ha _]. apply Hids in Hb as [Hb _].
    destruct (decide (i < j)) as [Hij | Hij]; [exact Hij | exfalso].
    destruct (decide (j = i)) as [-> | Hne].
    + rewrite Ha in Hb. injection Hb as ->. by apply (str_lt_irrefl b).
    + apply (str_lt_not_le a b Hlt).
      apply (StronglySorted_lookup str_le (sorted names) j i); [assumption | lia | assumption..].
  - intros a b i Ha Hb.
    apply Hids in Ha as [Ha _]. apply Hids in Hb as [Hb _]. congruence.
  - intros a i Ha. apply Hids in Ha as [Ha _].
    apply lookup_lt_Some in Ha. by rewrite Hperm in Ha.
  - intros Hnd i. rewrite (remove_dups_NoDup names Hnd). split.
    + intros Hi. rewrite <- Hperm in Hi.
      destruct (lookup_lt_is_Some_2 _ _ Hi) as [name Hname].
      exists name. apply Hids. split; [exact Hname |].
      intros j Hj Hname'. rewrite <- Hperm in Hnd.
      pose proof (NoDup_lookup _ _ _ _ Hnd Hname Hname'). lia.
    + intros [name Hname]. apply Hids in Hname as [Hname _].
      apply lookup_lt_Some in Hname. by rewrite Hperm in Hname.
  - intros image_paths W h w n file text r Hn.
    pose proof (emits_run _ _ (write_lst_emits ids image_paths) h w) as Hall.
    rewrite Forall_lookup in Hall. specialize (Hall n _ Hn). simpl in Hall.
    destruct Hall as (idx & p & parent & split & id & Hp & H2 & _ & Hid & _ & ->).
    exists idx, p, parent, id. repeat split; assumption.
Qed.

Lemma category_ids_order_preserving_witness :
  NoDup (Preprocessing.values sample_labels) /\
  forall i,
    i < length (remove_dups (Preprocessing.values sample_labels)) <->
    exists name, Preprocessing.category_ids sample_labels !! name = Some i.
Proof.
  assert (Hnd : NoDup (Preprocessing.values sample_labels)).
  { apply NoDup_ListNoDup.
    constructor; [intros [H | []]; discriminate |].
    constructor; [intros [] | constructor]. }
  split; [exact Hnd |].
  destruct (category_ids_order_preserving sample_labels)
    as (_ & _ & _ & _ & _ & Hconsecutive & _).
  exact (Hconsecutive Hnd).
Defined.

(** ** The manifest loop as a function *)

Lemma file_appends_app j1 j2 :
  file_appends (j1 ++ j2)%list = (file_appends j1 ++ file_appends j2)%list.
Proof. apply omap_app. Qed.

Lemma write_lst_from {W} (h : handler W) ids image_paths :
  appends_succeed h ->
  forall (first : nat) (k : kernel W),
    file_appends (journal (snd (
      for_each (imap (fun i x => (first + i, x)) image_paths)
        (fun '(idx, p) =>
           entry <- lift (Preprocessing.lst_entry ids idx p) ;;
           perform (FileAppend (fst entry) (snd entry))) h k)))
    = (file_appends (journal k) ++ manifest_from ids first image_paths)%list.
Proof.
  intros Hh. induction image_paths as [| p ps IH]; intros first k.
  - simpl. by rewrite app_nil_r.
  - rewrite imap_cons. simpl. rewrite Nat.add_0_r.
    unfold bind at 1. unfold bind at 1.
    destruct (Preprocessing.lst_entry ids first p) as [e | [file text]]; simpl.
    + by rewrite app_nil_r.
    + unfold perform at 1.
      pose proof (Hh file text (world k)) as Hw.
      destruct (h unit (FileAppend file text) (world k)) as [r w'].
      simpl in Hw. subst r.
      rewrite (imap_ext _ (fun i x => (S first + i, x))); last first.
      { intros i x _. simpl. f_equal. lia. }
      rewrite IH. simpl. rewrite file_appends_app. simpl.
      by rewrite <- app_assoc.
Qed.

Lemma write_lst_appends {W} (h : handler W) (w : W) category_labels image_paths :
  appends_succeed h ->
  file_appends (trace (Preprocessing.write_lst
                         (Preprocessing.category_ids category_labels) image_paths) h w)
  = manifest category_labels image_paths.
Proof.
  intros Hh. unfold trace, run, Preprocessing.write_lst, enumerate, manifest.
  apply (write_lst_from h _ image_paths Hh 0 (Kernel w [])).
Qed.

Lemma manifest_from_lookup ids first image_paths i entry :
  manifest_from ids first image_paths !! i = Some entry ->
  exists p, image_paths !! i = Some p /\
    Preprocessing.lst_entry ids (first + i) p = inr entry.
Proof.
  revert first i. induction image_paths as [| p ps IH]; intros first i; simpl.
  - rewrite lookup_nil. discriminate.
  - destruct (Preprocessing.lst_entry ids first p) as [e | entry0] eqn:He.
    + rewrite lookup_nil. discriminate.
    + destruct i as [| i]; simpl.
      * intros [= <-]. exists p. by rewrite Nat.add_0_r.
      * intros Hi. destruct (IH (S first) i Hi) as (q & Hq & Hentry).
        exists q. split; [exact Hq |]. by rewrite Nat.add_succ_r.
Qed.

(** A unit test of the manifest loop. *)
Example manifest_sample :
  manifest sample_labels sample_paths =
  [("train.lst", "0000000000" ++ tab ++ "1" ++ tab ++ "data_structured/train/dog/rex.jpg" ++ newline);
   ("val.lst", "0000000001" ++ tab ++ "0" ++ tab ++ "data_structured/val/cat/tom.jpg" ++ newline);
   ("train.lst", "0000000002" ++ tab ++ "0" ++ tab ++ "data_structured/train/cat/kit.jpg" ++ newline)].
Proof. vm_compute. reflexivity. Qed.

Lemma manifest_is_testable : ~ manifest_not_testable.
Proof.
  intros H. apply H. exists manifest. split.
  - intros category_labels image_paths W h w Hh. by apply write_lst_appends.
  - rewrite manifest_sample. discriminate.
Qed.

Lemma demo_world_appends : appends_succeed demo_world.
Proof. intros file text w. reflexivity. Qed.

(** C1, amended.  The repository does contain deterministic logic of its
    own that a unit test can check: the lines the manifest loop appends
    are the function [manifest] of the category labels and the image
    paths, whatever else the outside world does, as long as appending to
    the .lst files succeeds; the entry for the image at position [idx]
    goes to "<split>.lst" and is the tab-separated line of [idx] padded
    with zeros to ten digits, the category id of the parent directory and
    the path, ended by a newline. *)
Theorem manifest_loop_is_a_function :
  forall category_labels image_paths W (h : handler W) (w : W),
    appends_succeed h ->
    file_appends (trace (Preprocessing.write_lst
                           (Preprocessing.category_ids category_labels)
                           image_paths) h w)
    = manifest category_labels image_paths /\
    forall idx file text,
      manifest category_labels image_paths !! idx = Some (file, text) ->
      exists p parent split id,
        image_paths !! idx = Some p /\
        part_from_end p 2 = inr parent /\
        part_from_end p 3 = inr split /\
        Preprocessing.category_ids category_labels !! parent = Some id /\
        file = split ++ ".lst" /\
        text = pad10 idx ++ tab ++ decimal id ++ tab ++ as_posix p ++ newline.
Proof.
  intros category_labels image_paths W h w Hh.
  split; [by apply write_lst_appends |].
  intros idx file text Hidx.
  apply manifest_from_lookup in Hidx as (p & Hp & Hentry). simpl in Hentry.
  apply lst_entry_inr in Hentry as (parent & split & id & H2 & H3 & Hid & -> & ->).
  exists p, parent, split, id. repeat split; assumption.
Qed.

Lemma manifest_loop_is_a_function_witness :
  appends_succeed demo_world /\
  file_appends (trace (Preprocessing.write_lst
                         (Preprocessing.category_ids sample_labels)
                         sample_paths) demo_world 0)
  = manifest sample_labels sample_paths.
Proof.
  split; [exact demo_world_appends |].
  apply (manifest_loop_is_a_function sample_labels sample_paths nat demo_world 0).
  exact demo_world_appends.
Defined.

(** ** The train/test split *)

Lemma mem_nat_In x xs : Pandas.mem_nat x xs = true <-> In x xs.
Proof.
  unfold Pandas.mem_nat. rewrite existsb_exists. split.
  - intros (y & Hy & Heq). apply Nat.eqb_eq in Heq as ->. exact Hy.
  - intros Hx. exists x. split; [exact Hx | apply Nat.eqb_refl].
Qed.

Lemma mem_str_In x xs : Pandas.mem_str x xs = true <-> In x xs.
Proof.
  unfold Pandas.mem_str. rewrite existsb_exists. split.
  - intros (y & Hy & Heq). apply String.eqb_eq in Heq as ->. exact Hy.
  - intros Hx. exists x. split; [exact Hx | apply String.eqb_refl].
Qed.

Lemma enumerate_index {A} (l : list A) : map fst (enumerate l) = seq 0 (length l).
Proof.
  apply list_eq. intros i. unfold enumerate.
  rewrite list_lookup_fmap, list_lookup_imap.
  destruct (l !! i) as [x |] eqn:Hi; simpl.
  - symmetry. apply lookup_seq. split; [reflexivity | by eapply lookup_lt_Some].
  - symmetry. apply lookup_ge_None. rewrite length_seq. by apply lookup_ge_None.
Qed.

Lemma read_frame_index csv :
  Pandas.index (Pandas.read_frame csv) = seq 0 (length (snd csv)).
Proof. apply enumerate_index. Qed.

(** The sampled rows carry the sampled positions as index labels. *)
Lemma take_rows_index csv picked :
  Forall (fun i => i < length (snd csv)) picked ->
  Pandas.index (Pandas.take_rows picked (Pandas.read_frame csv)) = picked.
Proof.
  unfold Pandas.index, Pandas.take_rows, Pandas.read_frame. simpl.
  induction 1 as [| i picked Hi _ IH]; simpl; [reflexivity |].
  destruct (lookup_lt_is_Some_2 (snd csv) i Hi) as [r Hr].
  assert (enumerate (snd csv) !! i = Some (i, r)) as ->.
  { by apply enumerate_lookup. }
  simpl. f_equal. exact IH.
Qed.

Lemma filter_split_Permutation {A} (f : A -> bool) (l : list A) :
  (List.filter f l ++ List.filter (fun x => negb (f x)) l)%list ≡ₚ l.
Proof.
  induction l as [| x l IH]; simpl; [reflexivity |].
  destruct (f x); simpl.
  - by rewrite IH.
  - rewrite <- Permutation_middle. by rewrite IH.
Qed.

Lemma take_rows_body csv picked :
  NoDup picked ->
  Forall (fun i => i < length (snd csv)) picked ->
  body (Pandas.take_rows picked (Pandas.read_frame csv))
  ≡ₚ List.filter (fun r => Pandas.mem_nat (fst r) picked)
       (body (Pandas.read_frame csv)).
Proof.
  intros Hnd Hrange.
  pose proof (take_rows_index csv picked Hrange) as Hidx.
  assert (NoDup (body (Pandas.read_frame csv))) as Hdata.
  { apply (NoDup_fmap_1 fst). simpl. change (fst <$> ?l) with (map fst l).
    rewrite enumerate_index. apply NoDup_seq. }
  apply NoDup_Permutation.
  - apply (NoDup_fmap_1 fst). change (fst <$> ?l) with (map fst l).
    unfold Pandas.index in Hidx. by rewrite Hidx.
  - by apply NoDup_ListNoDup, List.NoDup_filter, NoDup_ListNoDup.
  - intros [i r]. rewrite !list_elem_of_In, filter_In. simpl.
    rewrite mem_nat_In, <- !list_elem_of_In.
    unfold Pandas.take_rows. simpl. rewrite list_elem_of_omap. split.
    + intros (j & Hj & Hl). apply enumerate_lookup in Hl as Hl'.
      destruct Hl' as [Hfst _]. simpl in Hfst. subst j.
      split; [by eapply list_elem_of_lookup_2 | exact Hj].
    + intros [Hin Hi]. exists i. split; [exact Hi |].
      apply list_elem_of_lookup in Hin as [j Hj].
      apply enumerate_lookup in Hj as Hj'. destruct Hj' as [Hfst _].
      simpl in Hfst. by subst j.
Qed.

Lemma enumerate_length {A} (l : list A) : length (enumerate l) = length l.
Proof. unfold enumerate. apply length_imap. Qed.

Lemma position_In label cols :
  In label cols -> exists j, Pandas.position label cols = Some j.
Proof.
  induction cols as [| c cols IH]; simpl; [done |].
  intros Hin. destruct (String.eqb c label) eqn:Heq; [eauto |].
  destruct Hin as [-> | Hin]; [by rewrite String.eqb_refl in Heq |].
  destruct (IH Hin) as [j ->]. simpl. eauto.
Qed.

(** C7.  For the frame [data] read by [read_csv] and any positions
    [picked] that [data.sample] drew without replacement: [test =
    data.drop(train.index)] exists, no index label is in both [train] and
    [test], and the rows of [train] followed by the rows of [test] are a
    rearrangement of the rows of [data] (each row exactly once).
    [X_test = test.drop(columns=['y'])] has the index of [test], row for
    row, and each of its rows is the row of [test] without the cells of
    column 'y'; when [data] has a column 'y' the whole cell succeeds. *)
Theorem train_test_partition
  (csv : list string * list (list string)) (picked : list nat) :
  let data := Pandas.read_frame csv in
  let train := Pandas.take_rows picked data in
  NoDup picked ->
  Forall (fun i => i < length (body data)) picked ->
  exists test,
    Pandas.drop_rows (Pandas.index train) data = inr test /\
    (forall i, In i (Pandas.index train) -> ~ In i (Pandas.index test)) /\
    (body train ++ body test)%list ≡ₚ body data /\
    (forall X_test,
       Pandas.drop_columns [AutoGluon.label] test = inr X_test ->
       Pandas.index X_test = Pandas.index test /\
       length (body X_test) = length (body test) /\
       columns X_test
         = List.filter (fun c => negb (String.eqb c AutoGluon.label)) (columns test) /\
       forall n r, body test !! n = Some r ->
         body X_test !! n
           = Some (fst r, Pandas.keep_cells (columns test) [AutoGluon.label] (snd r))) /\
    (In AutoGluon.label (columns data) ->
     exists y X,
       AutoGluon.split_cell data picked = inr (AutoGluon.Split train test y X)).
Proof.
  intros data train Hnd Hrange.
  assert (Hrange' : Forall (fun i => i < length (snd csv)) picked).
  { subst data. simpl in Hrange. by rewrite enumerate_length in Hrange. }
  pose proof (take_rows_index csv picked Hrange') as Hidx.
  fold data in Hidx. fold train in Hidx.
  set (test := Frame (columns data)
                 (List.filter (fun r => negb (Pandas.mem_nat (fst r) picked))
                              (body data))).
  assert (Hdrop : Pandas.drop_rows (Pandas.index train) data = inr test).
  { unfold Pandas.drop_rows. rewrite Hidx.
    assert (forallb (fun l => Pandas.mem_nat l (Pandas.index data)) picked = true) as ->.
    { apply forallb_forall. intros i Hi. apply mem_nat_In.
      subst data. rewrite read_frame_index. apply in_seq.
      rewrite Forall_forall in Hrange'. apply list_elem_of_In, Hrange' in Hi. lia. }
    reflexivity. }
  exists test. split; [exact Hdrop |]. split; [| split; [| split]].
  - rewrite Hidx. intros i Hi Hti. unfold Pandas.index, test in Hti. simpl in Hti.
    apply in_map_iff in Hti as (r & <- & Hr).
    apply filter_In in Hr as [_ Hr]. apply negb_true_iff in Hr.
    apply mem_nat_In in Hi. congruence.
  - subst train data. rewrite (take_rows_body csv picked Hnd Hrange').
    apply filter_split_Permutation.
  - intros X_test HX. unfold Pandas.drop_columns in HX.
    destruct (forallb _ _); [| discriminate]. injection HX as <-. simpl.
    split; [| split; [| split]].
    + unfold Pandas.index. simpl. rewrite map_map. reflexivity.
    + apply length_map.
    + apply List.filter_ext. intros c. unfold Pandas.mem_str. simpl.
      rewrite orb_false_r. by rewrite String.eqb_sym.
    + intros n r Hn. change (map ?f ?l) with (f <$> l).
      rewrite list_lookup_fmap. fold test. by rewrite Hn.
  - intros Hy. unfold AutoGluon.split_cell. fold train. rewrite Hdrop.
    destruct (position_In _ _ Hy) as [j Hj].
    unfold Pandas.column. change (columns test) with (columns data). rewrite Hj.
    unfold Pandas.drop_columns. change (columns test) with (columns data).
    assert (forallb (fun l => Pandas.mem_str l (columns data)) [AutoGluon.label] = true) as ->.
    { simpl. rewrite andb_true_r. by apply mem_str_In. }
    eauto.
Qed.

Example split_sample :
  AutoGluon.split_cell (Pandas.read_frame sample_csv) [2; 0]
  = inr (AutoGluon.Split
           (Frame ["age"; "y"] [(2, ["52"; "no"]); (0, ["30"; "no"])])
           (Frame ["age"; "y"] [(1, ["41"; "yes"]); (3, ["28"; "yes"])])
           [(1, "yes"); (3, "yes")]
           (Frame ["age"] [(1, ["41"]); (3, ["28"])])).
Proof. vm_compute. reflexivity. Qed.

Lemma train_test_partition_witness :
  NoDup [2; 0] /\
  Forall (fun i => i < length (body (Pandas.read_frame sample_csv))) [2; 0] /\
  exists test,
    Pandas.drop_rows
      (Pandas.index (Pandas.take_rows [2; 0] (Pandas.read_frame sample_csv)))
      (Pandas.read_frame sample_csv) = inr test /\
    (body (Pandas.take_rows [2; 0] (Pandas.read_frame sample_csv)) ++ body test)%list
      ≡ₚ body (Pandas.read_frame sample_csv).
Proof.
  assert (Hnd : NoDup [2; 0]).
  { apply NoDup_ListNoDup.
    constructor; [intros [H | []]; discriminate |].
    constructor; [intros [] | constructor]. }
  assert (Hr : Forall (fun i => i < length (body (Pandas.read_frame sample_csv))) [2; 0]).
  { repeat constructor; simpl; lia. }
  split; [exact Hnd |]. split; [exact Hr |].
  destruct (train_test_partition sample_csv [2; 0] Hnd Hr)
    as (test & Hdrop & _ & Hperm & _).
  exists test. split; assumption.
Defined.

(** ** Calls into helper modules *)

(** The AutoGluon notebook calls [get_algorithm_arn] of
    src/algorithm_arns.py. *)
Lemma autogluon_calls_algorithm_arns : ~ no_in_repo_calls.
Proof.
  intros H.
  specialize (H autogluon ltac:(simpl; auto 10) nat demo_world 0).
  rewrite Forall_lookup in H.
  apply (H 4 (Ev (LocalModule "src.algorithm_arns"
                    "AlgorithmArnProvider.get_algorithm_arn" [PStr "us-west-2"])
                 (inr (PStr "arn:aws:sagemaker:us-west-2:594846645681:algorithm/autogluon-tabular")))).
  - vm_compute. reflexivity.
  - reflexivity.
Qed.

(** *** Rules of symbolic execution *)

Lemma wp_ret {W A} (a : A) (h : handler W) k Q : Q (inr a) k -> wp (ret a) h k Q.
Proof. exact id. Qed.

Lemma wp_throw {W A} (e : exn) (h : handler W) k (Q : exn + A -> _ -> Prop) :
  Q (inl e) k -> wp (throw e) h k Q.
Proof. exact id. Qed.

Lemma wp_bind {W A B} (m : M W A) (f : A -> M W B) (h : handler W) k Q :
  wp m h k (fun r k' =>
              match r with
              | inr a => wp (f a) h k' Q
              | inl e => Q (inl e) k'
              end) ->
  wp (bind m f) h k Q.
Proof.
  unfold wp, bind. destruct (m h k) as [[e | a] k']; simpl; exact id.
Qed.

Lemma wp_perform {W A} (c : effect A) (h : handler W) k Q :
  (forall r w', Q r (Kernel w' (journal k ++ [Ev c r])%list)) ->
  wp (perform c) h k Q.
Proof.
  intros H. unfold wp, perform. destruct (h A c (world k)) as [r w']. apply H.
Qed.

Lemma wp_lift {W A} (r : exn + A) (h : handler W) k Q :
  (forall e, r = inl e -> Q (inl e) k) ->
  (forall a, r = inr a -> Q (inr a) k) ->
  wp (lift r) h k Q.
Proof. destruct r; unfold wp; simpl; auto. Qed.

Ltac wp_step :=
  lazymatch goal with
  | |- wp (bind _ _) _ _ _ => apply wp_bind
  | |- wp (perform _) _ _ _ =>
      apply wp_perform; intros [?e | ?a] ?w; cbv beta iota
  | |- wp (ret _) _ _ _ => apply wp_ret
  | |- wp (throw _) _ _ _ => apply wp_throw
  | |- wp (lift _) _ _ _ => apply wp_lift; intros ? _; cbv beta iota
  | |- wp (construct _ _) _ _ _ => unfold construct
  | |- wp (if ?b then _ else _) _ _ _ => destruct b
  end.

Ltac wp_run := repeat (cbv zeta; wp_step).

(** Look at the journal entry by entry. *)
Ltac arn_entries H n :=
  simpl in H;
  first
    [ discriminate H
    | destruct n as [| n];
      [ simpl in H;
        first
          [ discriminate H
          | injection H as <-; eexists 2, 4, _, _; simpl;
            repeat split; first [lia | reflexivity] ]
      | arn_entries H n ] ].

Lemma autogluon_arn_flows W (h : handler W) (w : W) :
  arn_flows (trace AutoGluon.notebook h w).
Proof.
  unfold trace, run.
  change (wp AutoGluon.notebook h (Kernel w [])
            (fun _ k => arn_flows (journal k))).
  unfold AutoGluon.notebook. wp_run.
  all: intros n args H; arn_entries H n.
Qed.

Lemma helper_call_perform {W A} (c : effect A) :
  match in_repo_call (Ev c (inl client_error)) with
  | Some mf => bool_decide (mf ∈ helper_functions)
  | None => true
  end = true ->
  emits helper_call (@perform W A c).
Proof.
  intros Hc. apply emits_perform. intros r mf Hmf.
  assert (in_repo_call (Ev c (inl client_error)) = Some mf) as Hmf'.
  { rewrite <- Hmf. by destruct c. }
  rewrite Hmf' in Hc. apply bool_decide_eq_true in Hc.
  by apply list_elem_of_In.
Qed.

Ltac helpers_step :=
  lazymatch goal with
  | |- emits _ (bind _ _) => apply emits_bind; [| intros ?]
  | |- emits _ (for_each _ _) => apply emits_for_each; intros ? _
  | |- emits _ (ret _) => apply emits_ret
  | |- emits _ (throw _) => apply emits_throw
  | |- emits _ (lift _) => apply emits_lift
  | |- emits _ (item _ _) => apply emits_item
  | |- emits _ (perform _) => apply helper_call_perform; reflexivity
  | |- emits _ (if ?b then _ else _) => destruct b
  | |- emits _ (match ?x with _ => _ end) => destruct x
  | |- emits _ (construct _ _) => unfold construct
  | |- emits _ (convert_to _) => unfold convert_to
  end.

Ltac helpers := repeat (cbv zeta; helpers_step).

Lemma helpers_only nb W : In nb repository -> emits helper_call (nb_code nb W).
Proof.
  unfold repository. simpl.
  intros [<- | [<- | [<- | [<- | [<- | [<- | [<- | []]]]]]]]; simpl.
  - unfold ModelParallel.notebook, ModelParallel.experiment_setup. helpers.
  - unfold Preprocessing.notebook, Preprocessing.write_lst,
      Preprocessing.create_bucket_cell. helpers.
  - unfold AutoGluon.notebook. helpers.
  - unfold Neo.notebook, invoke_mnist. helpers.
  - unfold Inf1.notebook, Inf1.invoke, Inf1.pin_sdk, Inf1.rollback_sdk. helpers.
  - unfold TensorFlowHub.notebook, TensorFlowHub.sample_utils. helpers.
  - unfold ElasticInference.notebook. helpers.
Qed.

(** C3, amended.  Notebooks do call code defined in other files of the
    repository, but only functions of helper modules: whatever the outside
    world does, every call a notebook makes into the repository goes to
    one of [helper_functions]; and in the AutoGluon notebook the
    [algorithm_arn] given to the [AlgorithmEstimator] is the value returned
    by [AlgorithmArnProvider.get_algorithm_arn] of src/algorithm_arns.py,
    called with the region of the session. *)
Theorem notebooks_call_helper_modules :
  forall nb, In nb repository ->
  forall W (h : handler W) (w : W),
    (forall n ev mf,
       trace (nb_code nb W) h w !! n = Some ev ->
       in_repo_call ev = Some mf -> In mf helper_functions) /\
    arn_flows (trace (nb_code autogluon W) h w).
Proof.
  intros nb Hnb W h w. split.
  - intros n ev mf Hn Hmf.
    pose proof (emits_run _ _ (helpers_only nb W Hnb) h w) as Hall.
    rewrite Forall_lookup in Hall. by apply (Hall n ev Hn mf).
  - apply autogluon_arn_flows.
Qed.

Lemma notebooks_call_helper_modules_witness :
  In autogluon repository /\
  in_repo_call <$> trace (nb_code autogluon nat) demo_world 0 !! 4
    = Some (Some ("src.algorithm_arns", "AlgorithmArnProvider.get_algorithm_arn")) /\
  In ("src.algorithm_arns", "AlgorithmArnProvider.get_algorithm_arn")
     helper_functions /\
  arn_flows (trace (nb_code autogluon nat) demo_world 0).
Proof.
  split; [simpl; auto 10 |]. split; [vm_compute; reflexivity |].
  destruct (notebooks_call_helper_modules autogluon ltac:(simpl; auto 10)
              nat demo_world 0) as [Hcalls Hflow].
  split; [| exact Hflow].
  eapply (Hcalls 4); [vm_compute; reflexivity | reflexivity].
Defined.

(** ** Zero-padded image ids *)

Lemma zeros_succ (k : nat) :
  String.concat "" (replicate (S k) "0")
  = String "0" (String.concat "" (replicate k "0")).
Proof. destruct k; reflexivity. Qed.

Lemma zeros_length (k : nat) :
  String.length (String.concat "" (replicate k "0")) = k.
Proof.
  induction k as [| k IH]; [reflexivity |].
  rewrite zeros_succ. simpl. by rewrite IH.
Qed.

Lemma string_length_app (a b : string) :
  String.length (a ++ b) = String.length a + String.length b.
Proof. induction a as [| c a IH]; simpl; [reflexivity | by rewrite IH]. Qed.

Lemma read_decimal_zero (s : string) :
  read_decimal (String "0" s) = read_decimal s.
Proof.
  unfold read_decimal. simpl.
  destruct (NilEmpty.uint_of_string s) as [d |]; reflexivity.
Qed.

Lemma read_decimal_decimal (n : nat) : read_decimal (decimal n) = Some n.
Proof.
  unfold read_decimal, decimal.
  rewrite NilEmpty.usu. simpl. f_equal. apply DecimalNat.Unsigned.of_to.
Qed.

Lemma read_decimal_pad10 (n : nat) : read_decimal (pad10 n) = Some n.
Proof.
  unfold pad10. cbv zeta.
  induction (10 - String.length (decimal n)) as [| k IH].
  - apply read_decimal_decimal.
  - rewrite zeros_succ.
    change (read_decimal
              (String "0" (String.concat "" (replicate k "0") ++ decimal n))
            = Some n).
    rewrite read_decimal_zero. exact IH.
Qed.

Lemma pad10_inj (n m : nat) : pad10 n = pad10 m -> n = m.
Proof.
  intros H. apply (f_equal read_decimal) in H.
  rewrite !read_decimal_pad10 in H. congruence.
Qed.

Lemma digits_only_decimal (n : nat) : digits_only (decimal n) = true.
Proof.
  unfold decimal. induction (Nat.to_uint n); simpl; try reflexivity; assumption.
Qed.

Lemma digits_only_pad10 (n : nat) : digits_only (pad10 n) = true.
Proof.
  unfold pad10. cbv zeta.
  induction (10 - String.length (decimal n)) as [| k IH].
  - apply digits_only_decimal.
  - rewrite zeros_succ.
    change (digits_only
              (String "0" (String.concat "" (replicate k "0") ++ decimal n))
            = true).
    exact IH.
Qed.

Lemma first_field_digits (d rest : string) :
  digits_only d = true -> first_field (d ++ tab ++ rest) = d.
Proof.
  induction d as [| c d IH]; simpl; [reflexivity |].
  intros [Hc Hd]%andb_prop.
  destruct (Ascii.eqb c "009") eqn:Hct.
  - apply Ascii.eqb_eq in Hct. subst c. discriminate Hc.
  - f_equal. by apply IH.
Qed.

(** X1.  The image id [f'{idx:010}'] can be read back: parsing it as a
    decimal number gives [idx], so different positions get different ids;
    it is made of digits only and is as long as the longer of ten
    characters and the decimal numeral of [idx] (never cut). *)
Theorem image_id_round_trip (idx : nat) :
  read_decimal (pad10 idx) = Some idx /\
  digits_only (pad10 idx) = true /\
  String.length (pad10 idx) = Nat.max 10 (String.length (decimal idx)) /\
  forall idx', pad10 idx = pad10 idx' -> idx = idx'.
Proof.
  split; [apply read_decimal_pad10 |].
  split; [apply digits_only_pad10 |].
  split; [| intros idx'; apply pad10_inj].
  unfold pad10. cbv zeta. rewrite string_length_app, zeros_length. lia.
Qed.

(** ** The lines of the manifest *)

Lemma manifest_line ids first image_paths i file line :
  manifest_from ids first image_paths !! i = Some (file, line) ->
  first_field line = pad10 (first + i).
Proof.
  intros H. apply manifest_from_lookup in H as (p & _ & Hentry).
  apply lst_entry_inr in Hentry as (parent & split & id & _ & _ & _ & _ & ->).
  apply first_field_digits, digits_only_pad10.
Qed.

(** X2.  The position of an image can be read back from its manifest
    line: the first tab-separated field of the line written for the image
    at position [i] is [i] padded to ten digits and parses to [i].  Hence
    no two lines, in whichever .lst file they end up, carry the same
    image id. *)
Theorem manifest_lines_carry_position category_labels image_paths i file line :
  manifest category_labels image_paths !! i = Some (file, line) ->
  first_field line = pad10 i /\
  read_decimal (first_field line) = Some i /\
  forall j file' line',
    manifest category_labels image_paths !! j = Some (file', line') ->
    first_field line' = first_field line -> j = i.
Proof.
  intros Hi. pose proof (manifest_line _ _ _ _ _ _ Hi) as Hf. simpl in Hf.
  split; [exact Hf |]. split; [rewrite Hf; apply read_decimal_pad10 |].
  intros j file' line' Hj Heq.
  pose proof (manifest_line _ _ _ _ _ _ Hj) as Hf'. simpl in Hf'.
  apply pad10_inj. congruence.
Qed.

Lemma manifest_lines_carry_position_witness :
  first_field ("0000000002" ++ tab ++ "0" ++ tab
               ++ "data_structured/train/cat/kit.jpg" ++ newline)
  = pad10 2.
Proof.
  apply (manifest_lines_carry_position sample_labels sample_paths 2 "train.lst").
  vm_compute. reflexivity.
Defined.

(** ** Malformed paths and unknown categories *)

Lemma part_from_end_short (p : path) n :
  length p < n -> part_from_end p n = inl (Exn "IndexError" "tuple index out of range").
Proof.
  intros H. unfold part_from_end.
  destruct (Nat.leb n (length p)) eqn:Hle; [| reflexivity].
  apply Nat.leb_le in Hle. lia.
Qed.

Lemma part_from_end_inr (p : path) n s :
  part_from_end p n = inr s <-> n <= length p /\ p !! (length p - n) = Some s.
Proof.
  unfold part_from_end. destruct (Nat.leb n (length p)) eqn:Hle.
  - apply Nat.leb_le in Hle.
    destruct (p !! (length p - n)) as [x |]; split.
    + intros [= ->]. by split.
    + intros [_ [= ->]]. reflexivity.
    + discriminate.
    + intros [_ [=]].
  - apply Nat.leb_gt in Hle. split; [discriminate | intros [H _]; lia].
Qed.

(** X3.  What the body of the manifest loop does with a path, in the
    order the statements are evaluated: a path with fewer than two parts
    raises [IndexError]; otherwise the parent directory is looked up in
    [category_ids] first, so an unknown category raises [KeyError] with
    the directory name, also for a path of two parts; a known category
    under a path of exactly two parts raises [IndexError] for the missing
    split; with three parts or more and a known category the line goes
    to "<split>.lst". *)
Theorem lst_entry_cases (ids : gmap string nat) (idx : nat) (p : path) :
  (length p < 2 ->
   Preprocessing.lst_entry ids idx p
   = inl (Exn "IndexError" "tuple index out of range")) /\
  (forall parent,
     p !! (length p - 2) = Some parent -> 2 <= length p ->
     ids !! parent = None ->
     Preprocessing.lst_entry ids idx p = inl (Exn "KeyError" parent)) /\
  (forall parent id,
     p !! (length p - 2) = Some parent -> length p = 2 ->
     ids !! parent = Some id ->
     Preprocessing.lst_entry ids idx p
     = inl (Exn "IndexError" "tuple index out of range")) /\
  (forall parent id split,
     p !! (length p - 2) = Some parent -> p !! (length p - 3) = Some split ->
     3 <= length p -> ids !! parent = Some id ->
     Preprocessing.lst_entry ids idx p
     = inr (split ++ ".lst",
            pad10 idx ++ tab ++ decimal id ++ tab ++ as_posix p ++ newline)).
Proof.
  unfold Preprocessing.lst_entry. cbv zeta. repeat split.
  - intros H. by rewrite part_from_end_short.
  - intros parent Hp Hlen Hid.
    assert (part_from_end p 2 = inr parent) as -> by by apply part_from_end_inr.
    by rewrite Hid.
  - intros parent id Hp Hlen Hid.
    assert (part_from_end p 2 = inr parent) as ->
      by (apply part_from_end_inr; split; [lia | done]).
    rewrite Hid. rewrite part_from_end_short; [reflexivity | lia].
  - intros parent id split Hp Hs Hlen Hid.
    assert (part_from_end p 2 = inr parent) as ->
      by (apply part_from_end_inr; split; [lia | done]).
    rewrite Hid.
    assert (part_from_end p 3 = inr split) as -> by by apply part_from_end_inr.
    reflexivity.
Qed.

Lemma lst_entry_cases_witness :
  Preprocessing.lst_entry (Preprocessing.category_ids sample_labels) 0 ["bird"; "x.jpg"]
  = inl (Exn "KeyError" "bird").
Proof.
  apply (lst_entry_cases (Preprocessing.category_ids sample_labels) 0
           ["bird"; "x.jpg"]).
  - reflexivity.
  - simpl. lia.
  - vm_compute. reflexivity.
Defined.

(** ** The loop stops at the first image it cannot place *)

Lemma write_lst_step {W} (h : handler W) ids q qs first k file text :
  appends_succeed h ->
  Preprocessing.lst_entry ids first q = inr (file, text) ->
  for_each (imap (fun i x => (first + i, x)) (q :: qs))
    (fun '(idx, p) =>
       entry <- lift (Preprocessing.lst_entry ids idx p) ;;
       perform (FileAppend (fst entry) (snd entry))) h k
  = for_each (imap (fun i x => (S first + i, x)) qs)
      (fun '(idx, p) =>
         entry <- lift (Preprocessing.lst_entry ids idx p) ;;
         perform (FileAppend (fst entry) (snd entry))) h
      (Kernel (snd (h unit (FileAppend file text) (world k)))
              (journal k ++ [Ev (FileAppend file text) (inr tt)])%list).
Proof.
  intros Hh Hq. rewrite imap_cons. simpl. rewrite Nat.add_0_r.
  unfold bind at 1. unfold bind at 1. rewrite Hq. simpl.
  unfold perform at 1.
  pose proof (Hh file text (world k)) as Hw.
  destruct (h unit (FileAppend file text) (world k)) as [r w'].
  simpl in Hw. subst r.
  rewrite (imap_ext _ (fun i x => (S first + i, x))); [reflexivity |].
  intros j x _. simpl. f_equal. lia.
Qed.

Lemma write_lst_fail {W} (h : handler W) ids q qs first k e :
  Preprocessing.lst_entry ids first q = inl e ->
  for_each (imap (fun i x => (first + i, x)) (q :: qs))
    (fun '(idx, p) =>
       entry <- lift (Preprocessing.lst_entry ids idx p) ;;
       perform (FileAppend (fst entry) (snd entry))) h k
  = (inl e, k).
Proof.
  intros Hq. rewrite imap_cons. simpl. rewrite Nat.add_0_r.
  unfold bind at 1. unfold bind at 1. by rewrite Hq.
Qed.

Lemma write_lst_stops_from {W} (h : handler W) ids :
  appends_succeed h ->
  forall image_paths (first : nat) (k : kernel W) i p e,
    image_paths !! i = Some p ->
    Preprocessing.lst_entry ids (first + i) p = inl e ->
    (forall j q, j < i -> image_paths !! j = Some q ->
       exists entry, Preprocessing.lst_entry ids (first + j) q = inr entry) ->
    let r := for_each (imap (fun i x => (first + i, x)) image_paths)
               (fun '(idx, p) =>
                  entry <- lift (Preprocessing.lst_entry ids idx p) ;;
                  perform (FileAppend (fst entry) (snd entry))) h k in
    fst r = inl e /\
    length (file_appends (journal (snd r)))
    = length (file_appends (journal k)) + i.
Proof.
  intros Hh. induction image_paths as [| q qs IH]; intros first k i p e Hp He Hbefore.
  - by rewrite lookup_nil in Hp.
  - cbv zeta. destruct i as [| i].
    + simpl in Hp. injection Hp as ->. rewrite Nat.add_0_r in He.
      rewrite (write_lst_fail h ids p qs first k e He). simpl.
      split; [reflexivity | lia].
    + destruct (Hbefore 0 q) as [[file text] Hq]; [lia | reflexivity |].
      rewrite Nat.add_0_r in Hq.
      rewrite (write_lst_step h ids q qs first k file text Hh Hq).
      specialize (IH (S first)
                    (Kernel (snd (h unit (FileAppend file text) (world k)))
                       (journal k ++ [Ev (FileAppend file text) (inr tt)])%list)
                    i p e).
      cbv zeta in IH. destruct IH as [IH1 IH2].
      * exact Hp.
      * by replace (S first + i) with (first + S i) by lia.
      * intros j x Hj Hx. replace (S first + j) with (first + S j) by lia.
        apply Hbefore; [lia | exact Hx].
      * split; [exact IH1 |]. rewrite IH2. simpl.
        rewrite file_appends_app. rewrite length_app. simpl. lia.
Qed.

Lemma write_lst_completes_from {W} (h : handler W) ids :
  appends_succeed h ->
  forall image_paths (first : nat) (k : kernel W),
    (forall j q, image_paths !! j = Some q ->
       exists entry, Preprocessing.lst_entry ids (first + j) q = inr entry) ->
    let r := for_each (imap (fun i x => (first + i, x)) image_paths)
               (fun '(idx, p) =>
                  entry <- lift (Preprocessing.lst_entry ids idx p) ;;
                  perform (FileAppend (fst entry) (snd entry))) h k in
    fst r = inr tt /\
    length (file_appends (journal (snd r)))
    = length (file_appends (journal k)) + length image_paths.
Proof.
  intros Hh. induction image_paths as [| q qs IH]; intros first k Hall.
  - simpl. split; [reflexivity | lia].
  - cbv zeta.
    destruct (Hall 0 q) as [[file text] Hq]; [reflexivity |].
    rewrite Nat.add_0_r in Hq.
    rewrite (write_lst_step h ids q qs first k file text Hh Hq).
    specialize (IH (S first)
                  (Kernel (snd (h unit (FileAppend file text) (world k)))
                     (journal k ++ [Ev (FileAppend file text) (inr tt)])%list)).
    cbv zeta in IH. destruct IH as [IH1 IH2].
    + intros j x Hx. replace (S first + j) with (first + S j) by lia.
      by apply Hall.
    + split; [exact IH1 |]. rewrite IH2. simpl.
      rewrite file_appends_app. rewrite length_app. simpl. lia.
Qed.

(** X4.  The manifest loop has no error handling of its own and leaves
    partial files: when the image at position [i] is the first whose
    entry raises (a malformed path, an unknown category), the loop ends
    with that exception after having appended exactly the [i] lines of
    the images before it; when no entry raises it returns after one
    append per image.  (On a disk where appending succeeds.) *)
Theorem write_lst_stops_at_first_error {W} (h : handler W) (w : W)
  (ids : gmap string nat) (image_paths : list path) :
  appends_succeed h ->
  (forall i p e,
     image_paths !! i = Some p ->
     Preprocessing.lst_entry ids i p = inl e ->
     (forall j q, j < i -> image_paths !! j = Some q ->
        exists entry, Preprocessing.lst_entry ids j q = inr entry) ->
     outcome (Preprocessing.write_lst ids image_paths) h w = inl e /\
     length (file_appends (trace (Preprocessing.write_lst ids image_paths) h w)) = i) /\
  ((forall j q, image_paths !! j = Some q ->
      exists entry, Preprocessing.lst_entry ids j q = inr entry) ->
   outcome (Preprocessing.write_lst ids image_paths) h w = inr tt /\
   length (file_appends (trace (Preprocessing.write_lst ids image_paths) h w))
   = length image_paths).
Proof.
  intros Hh. unfold outcome, trace, run, Preprocessing.write_lst, enumerate.
  split.
  - intros i p e Hp He Hbefore.
    apply (write_lst_stops_from h ids Hh image_paths 0 (Kernel w []) i p e Hp He Hbefore).
  - intros Hall.
    apply (write_lst_completes_from h ids Hh image_paths 0 (Kernel w []) Hall).
Qed.

Lemma write_lst_stops_at_first_error_witness :
  outcome (Preprocessing.write_lst (Preprocessing.category_ids sample_labels)
             [["data_structured"; "train"; "dog"; "rex.jpg"];
              ["data_structured"; "train"; "bird"; "tweety.jpg"];
              ["data_structured"; "val"; "cat"; "tom.jpg"]]) demo_world 0
  = inl (Exn "KeyError" "bird") /\
  length (file_appends (trace (Preprocessing.write_lst
             (Preprocessing.category_ids sample_labels)
             [["data_structured"; "train"; "dog"; "rex.jpg"];
              ["data_structured"; "train"; "bird"; "tweety.jpg"];
              ["data_structured"; "val"; "cat"; "tom.jpg"]]) demo_world 0)) = 1.
Proof.
  apply (proj1 (write_lst_stops_at_first_error demo_world 0
                  (Preprocessing.category_ids sample_labels) _ demo_world_appends)
           1 ["data_structured"; "train"; "bird"; "tweety.jpg"]).
  - reflexivity.
  - vm_compute. reflexivity.
  - intros [| j] q Hj; [| lia]. intros [= <-]. eexists. vm_compute. reflexivity.
Defined.

(** ** Running the manifest cell again *)

Lemma string_app_assoc (a b c : string) : (a ++ b) ++ c = a ++ (b ++ c).
Proof.
  induction a as [| x a IH]; [reflexivity |].
  change (String x ((a ++ b) ++ c) = String x (a ++ (b ++ c))). by rewrite IH.
Qed.

Lemma string_app_nil_r (a : string) : a ++ "" = a.
Proof.
  induction a as [| x a IH]; [reflexivity |].
  change (String x (a ++ "") = String x a). by rewrite IH.
Qed.

Lemma write_lst_on_disk ids image_paths :
  forall (first : nat) (k : kernel (gmap string string)) file,
    Lst.content (world (snd (
      for_each (imap (fun i x => (first + i, x)) image_paths)
        (fun '(idx, p) =>
           entry <- lift (Preprocessing.lst_entry ids idx p) ;;
           perform (FileAppend (fst entry) (snd entry))) Lst.service k))) file
    = Lst.content (world k) file
        ++ Lst.lines_for file (manifest_from ids first image_paths).
Proof.
  induction image_paths as [| p ps IH]; intros first k file.
  - simpl. by rewrite string_app_nil_r.
  - rewrite imap_cons. simpl. rewrite Nat.add_0_r.
    unfold bind at 1. unfold bind at 1.
    destruct (Preprocessing.lst_entry ids first p) as [e | [f text]]; simpl.
    + by rewrite string_app_nil_r.
    + rewrite (imap_ext _ (fun i x => (S first + i, x))); last first.
      { intros i x _. simpl. f_equal. lia. }
      rewrite IH. simpl. unfold Lst.content.
      destruct (String.eqb f file) eqn:Hf.
      * apply String.eqb_eq in Hf. subst f.
        rewrite lookup_insert_eq. simpl. apply string_app_assoc.
      * apply String.eqb_neq in Hf.
        by rewrite lookup_insert_ne.
Qed.

(** X5.  The manifest files are opened in append mode, so the cell is not
    idempotent: one run leaves in each file what was there followed by
    this run's lines for the file, and running the cell a second time
    leaves every line twice.  Nothing is truncated or removed. *)
Theorem write_lst_appends_again category_labels image_paths
  (w : gmap string string) (file : string) :
  let cell := Preprocessing.write_lst
                (Preprocessing.category_ids category_labels) image_paths in
  let lines := Lst.lines_for file (manifest category_labels image_paths) in
  let w1 := world (snd (run cell Lst.service w)) in
  let w2 := world (snd (run cell Lst.service w1)) in
  Lst.content w1 file = Lst.content w file ++ lines /\
  Lst.content w2 file = Lst.content w file ++ lines ++ lines.
Proof.
  cbv zeta.
  assert (forall w0,
    Lst.content (world (snd (run (Preprocessing.write_lst
      (Preprocessing.category_ids category_labels) image_paths) Lst.service w0))) file
    = Lst.content w0 file
        ++ Lst.lines_for file (manifest category_labels image_paths)) as Hrun.
  { intros w0. unfold run, Preprocessing.write_lst, enumerate, manifest.
    apply (write_lst_on_disk _ image_paths 0 (Kernel w0 [])). }
  split; [apply Hrun |].
  rewrite Hrun, Hrun. apply string_app_assoc.
Qed.

(** ** Splitting an S3 URI on '/' *)

Lemma split_slash_nonempty (s : string) : split_slash s <> [].
Proof.
  induction s as [| c s IH]; simpl; [discriminate |].
  destruct (Ascii.eqb c "/"); [discriminate |].
  destruct (split_slash s); [done | discriminate].
Qed.

Lemma concat_slash_cons (w : string) (ws : list string) :
  ws <> [] -> String.concat "/" (w :: ws) = w ++ "/" ++ String.concat "/" ws.
Proof. destruct ws; [done | reflexivity]. Qed.

Lemma concat_slash_head (c : ascii) (w : string) (ws : list string) :
  String.concat "/" (String c w :: ws) = String c (String.concat "/" (w :: ws)).
Proof. destruct ws; reflexivity. Qed.

Lemma split_slash_join (s : string) : String.concat "/" (split_slash s) = s.
Proof.
  induction s as [| c s IH]; [reflexivity |].
  simpl. destruct (Ascii.eqb c "/") eqn:Hc.
  - apply Ascii.eqb_eq in Hc. subst c.
    rewrite concat_slash_cons by apply split_slash_nonempty.
    by rewrite IH.
  - pose proof (split_slash_nonempty s) as Hne.
    destruct (split_slash s) as [| w ws]; [done |].
    rewrite concat_slash_head. by rewrite IH.
Qed.

Lemma split_slash_no_slash (s : string) : no_slash s = true -> split_slash s = [s].
Proof.
  induction s as [| c s IH]; [reflexivity |].
  simpl. intros [Hc Hs]%andb_prop. apply negb_true_iff in Hc. rewrite Hc.
  by rewrite IH.
Qed.

Lemma split_slash_app (a b : string) :
  split_slash (a ++ "/" ++ b) = (split_slash a ++ split_slash b)%list.
Proof.
  induction a as [| c a IH]; [reflexivity |].
  change (split_slash (String c (a ++ "/" ++ b))
          = (split_slash (String c a) ++ split_slash b)%list).
  simpl. rewrite IH. destruct (Ascii.eqb c "/"); [reflexivity |].
  pose proof (split_slash_nonempty a) as Hne.
  destruct (split_slash a); [done | reflexivity].
Qed.

(** X6.  ['/'.join(s.split('/')[:-1])], the expression both Neo
    notebooks apply to the estimator's output path: joining the pieces of
    a split gives the string back; the expression cuts the string at its
    last '/', so a URI that ends in '/' only loses that character and a
    string without '/' becomes empty. *)
Theorem drop_last_segment_cuts_at_last_slash (a b : string) :
  String.concat "/" (split_slash a) = a /\
  (no_slash b = true -> drop_last_segment (a ++ "/" ++ b) = a) /\
  drop_last_segment (a ++ "/") = a /\
  (no_slash b = true -> drop_last_segment b = "").
Proof.
  assert (no_slash b = true -> drop_last_segment (a ++ "/" ++ b) = a) as Hcut.
  { intros Hb. unfold drop_last_segment.
    rewrite split_slash_app, (split_slash_no_slash b Hb).
    rewrite removelast_last. apply split_slash_join. }
  split; [apply split_slash_join |]. split; [exact Hcut |]. split.
  - unfold drop_last_segment.
    change (a ++ "/") with (a ++ "/" ++ "").
    rewrite split_slash_app. simpl split_slash at 2.
    rewrite removelast_last. apply split_slash_join.
  - intros Hb. unfold drop_last_segment. by rewrite split_slash_no_slash.
Qed.

Lemma drop_last_segment_cuts_at_last_slash_witness :
  drop_last_segment ("s3://sagemaker-us-west-2-123456789012/" ++ "/" ++ "output")
  = "s3://sagemaker-us-west-2-123456789012/".
Proof.
  apply (proj1 (proj2 (drop_last_segment_cuts_at_last_slash
                         "s3://sagemaker-us-west-2-123456789012/" "output"))).
  reflexivity.
Defined.

(** ** Monitors *)

Lemma seen_snoc {S} (mon : monitor S) s j ev :
  seen mon s (j ++ [ev])%list = observe mon (seen mon s j) ev.
Proof. unfold seen. by rewrite foldl_app. Qed.

Lemma accepts_snoc {S} (mon : monitor S) j ev : forall s,
  accepts mon s j -> allows mon (seen mon s j) ev ->
  accepts mon s (j ++ [ev])%list.
Proof.
  induction j as [| x j IH]; intros s; simpl.
  - intros _ H. by split.
  - intros [Hx Hj] H. split; [exact Hx |]. by apply IH.
Qed.

Lemma accepts_lookup {S} (mon : monitor S) j : forall s n ev,
  accepts mon s j -> j !! n = Some ev ->
  allows mon (seen mon s (take n j)) ev.
Proof.
  induction j as [| x j IH]; intros s n ev; simpl.
  - by rewrite lookup_nil.
  - intros [Hx Hj]. destruct n as [| n]; simpl.
    + by intros [= <-].
    + intros Hn. by apply IH.
Qed.

Lemma latest_found {X} (f : event -> option X) j x :
  foldl (latest f) None j = Some x ->
  exists i, i < length j /\ f <$> j !! i = Some (Some x).
Proof.
  induction j as [| ev j IH] using rev_ind; simpl; [discriminate |].
  rewrite foldl_app. simpl. unfold latest at 1.
  destruct (f ev) as [y |] eqn:Hev.
  - intros [= <-]. exists (length j). rewrite length_app. simpl.
    split; [lia |]. rewrite lookup_app_r by lia.
    rewrite Nat.sub_diag. simpl. by rewrite Hev.
  - intros H. destruct (IH H) as (i & Hi & Hf). exists i.
    rewrite length_app. simpl. split; [lia |].
    by rewrite lookup_app_l by lia.
Qed.

(** From the monitor back to positions in the journal. *)
Lemma latest_before {X} (f : event -> option X) (j : list event) n x :
  foldl (latest f) None (take n j) = Some x ->
  exists i, i < n /\ f <$> j !! i = Some (Some x).
Proof.
  intros H. apply latest_found in H as (i & Hi & Hf).
  rewrite length_take in Hi.
  exists i. split; [lia |]. rewrite lookup_take_lt in Hf by lia. exact Hf.
Qed.

Lemma obeys_ret {W A S} (mon : monitor S) init (a : A) s Q :
  Q a s -> obeys mon init (@ret W A a) s Q.
Proof. intros HQ h k Hk <-. simpl. by split. Qed.

Lemma obeys_throw {W A S} (mon : monitor S) init (e : exn) s Q :
  obeys mon init (@throw W A e) s Q.
Proof. intros h k Hk _. simpl. by split. Qed.

Lemma obeys_bind {W A B S} (mon : monitor S) init (m : M W A) (f : A -> M W B) s Q :
  obeys mon init m s (fun a s' => obeys mon init (f a) s' Q) ->
  obeys mon init (bind m f) s Q.
Proof.
  intros Hm h k Hk Hs. unfold bind. specialize (Hm h k Hk Hs).
  destruct (m h k) as [[e | a] k']; simpl in *; [exact Hm |].
  destruct Hm as [Hk' Hf]. by apply Hf.
Qed.

Lemma obeys_perform {W A S} (mon : monitor S) init (c : effect A) s
  (Q : A -> S -> Prop) :
  (forall r, allows mon s (Ev c r) /\
             match r with
             | inr a => Q a (observe mon s (Ev c r))
             | inl _ => True
             end) ->
  obeys mon init (@perform W A c) s Q.
Proof.
  intros H h k Hk Hs. unfold perform.
  destruct (h A c (world k)) as [r w']. simpl.
  destruct (H r) as [Hallow HQ]. subst s. split.
  - by apply accepts_snoc.
  - rewrite seen_snoc. exact HQ.
Qed.

Lemma obeys_lift {W A S} (mon : monitor S) init (r : exn + A) s Q :
  (forall a, r = inr a -> Q a s) -> obeys mon init (@lift W A r) s Q.
Proof.
  destruct r as [e | a]; intros H; [apply obeys_throw | apply obeys_ret; auto].
Qed.

Lemma obeys_item {W A S} (mon : monitor S) init (xs : list A) i s Q :
  (forall a, xs !! i = Some a -> Q a s) -> obeys mon init (@item W A xs i) s Q.
Proof.
  intros H. unfold item.
  destruct (xs !! i); [apply obeys_ret; auto | apply obeys_throw].
Qed.

Lemma obeys_mono {W A S} (mon : monitor S) init (m : M W A) s
  (Q1 Q2 : A -> S -> Prop) :
  obeys mon init m s Q1 -> (forall a s', Q1 a s' -> Q2 a s') ->
  obeys mon init m s Q2.
Proof.
  intros Hm HQ h k Hk Hs. specialize (Hm h k Hk Hs).
  destruct (m h k) as [[e | a] k']; simpl in *; [exact Hm |].
  destruct Hm as [Hk' H1]. split; [exact Hk' | by apply HQ].
Qed.

(** A loop whose body keeps an invariant of the monitor's state. *)
Lemma obeys_for_each {W A S} (mon : monitor S) init (xs : list A)
  (body : A -> M W unit) (Inv : S -> Prop) s Q :
  (forall x s', Inv s' -> obeys mon init (body x) s' (fun _ s'' => Inv s'')) ->
  Inv s ->
  (forall s', Inv s' -> Q tt s') ->
  obeys mon init (for_each xs body) s Q.
Proof.
  intros Hb Hs HQ. revert s Hs. induction xs as [| x xs IH]; intros s Hs; simpl.
  - apply obeys_ret. by apply HQ.
  - apply obeys_bind. eapply obeys_mono; [by apply Hb |].
    intros [] s' Hs'. by apply IH.
Qed.

Lemma obeys_run {W A S} (mon : monitor S) init (m : M W A) Q :
  obeys mon init m init Q ->
  forall (h : handler W) (w : W),
    accepts mon init (trace m h w) /\
    match outcome m h w with
    | inr a => Q a (seen mon init (trace m h w))
    | inl _ => True
    end.
Proof. intros Hm h w. apply (Hm h (Kernel w [])); [exact I | reflexivity]. Qed.

(** One step through a program under a monitor.  Loops are taken with
    the invariant that the monitor stays in the state it is in. *)
Ltac obeys_step :=
  lazymatch goal with
  | |- obeys _ _ (bind _ _) _ _ => apply obeys_bind
  | |- obeys _ _ (ret _) _ _ => apply obeys_ret
  | |- obeys _ _ (throw _) _ _ => apply obeys_throw
  | |- obeys _ _ (lift _) _ _ => apply obeys_lift; intros ? ?
  | |- obeys _ _ (item _ _) _ _ => apply obeys_item; intros ? ?
  | |- obeys _ _ (perform _) _ _ =>
      apply obeys_perform; intros [?e | ?a];
      (split; [| try exact I]); cbn -[for_each]
  | |- obeys _ _ (for_each _ _) ?s _ =>
      apply (obeys_for_each _ _ _ _ (fun s' => s' = s));
      [intros ? ? -> | reflexivity | intros ? ->]
  | |- obeys _ _ (let '(_, _) := ?x in _) _ _ => destruct x
  | |- obeys _ _ (if ?b then _ else _) _ _ => destruct b
  | |- obeys _ _ (construct _ _) _ _ => unfold construct
  | |- obeys _ _ (convert_to _) _ _ => unfold convert_to
  | |- True => exact I
  end.

Ltac obeys := repeat (cbv zeta; obeys_step).

(** ** Where the record files are uploaded *)

Lemma create_bucket_cell_obeys_upload {W} :
  obeys upload_monitor None (@Preprocessing.create_bucket_cell W) None
    (fun b s' => s' = Some b).
Proof. unfold Preprocessing.create_bucket_cell. obeys; reflexivity. Qed.

Lemma preprocessing_obeys_upload {W} :
  obeys upload_monitor None (@Preprocessing.notebook W) None (fun _ _ => True).
Proof.
  unfold Preprocessing.notebook, Preprocessing.write_lst. obeys.
  { reflexivity. }
  eapply obeys_mono; [apply create_bucket_cell_obeys_upload |].
  intros b s' ->. obeys.
  all: exists b; split; [reflexivity | first [by left | by right]].
Qed.

(** X7.  In the preprocessing notebook, whatever the outside world
    answers: each [S3Uploader.upload] call is preceded by the entry that
    gave the bucket its name, either the successful load of the pickled
    name or the successful [create_bucket]; "data_recordio/train.rec"
    goes to "s3://<bucket>/data/train" and "data_recordio/val.rec" to
    "s3://<bucket>/data/val" of that bucket, and nothing else is
    uploaded. *)
Theorem uploads_go_to_the_cell_bucket W (h : handler W) (w : W) n target :
  upload_target <$> trace Preprocessing.notebook h w !! n = Some (Some target) ->
  exists i b,
    i < n /\
    bucket_obtained <$> trace Preprocessing.notebook h w !! i = Some (Some b) /\
    rec_upload b target.
Proof.
  intros Hn.
  destruct (obeys_run _ _ _ _ (@preprocessing_obeys_upload W) h w) as [Hacc _].
  destruct (trace Preprocessing.notebook h w !! n) as [ev |] eqn:Hev;
    [| discriminate].
  injection Hn as Hn.
  pose proof (accepts_lookup _ _ _ _ _ Hacc Hev) as Hallow.
  simpl in Hallow. rewrite Hn in Hallow.
  destruct Hallow as (b & Hb & Hrec).
  apply latest_before in Hb as (i & Hi & Hf). by exists i, b.
Qed.

Lemma uploads_go_to_the_cell_bucket_witness :
  exists i b,
    i < 22 /\
    bucket_obtained <$> trace Preprocessing.notebook demo_world 0 !! i
      = Some (Some b) /\
    rec_upload b ("data_recordio/train.rec",
                  "s3://sagemaker-builtin-ic-uuid-15/data/train").
Proof.
  apply (uploads_go_to_the_cell_bucket nat demo_world 0 22).
  vm_compute. reflexivity.
Defined.

(** ** What the bucket cell pickles and returns *)

Lemma create_bucket_cell_obeys_pickle {W} :
  obeys pickle_monitor None (@Preprocessing.create_bucket_cell W) None
    (fun _ _ => True).
Proof.
  unfold Preprocessing.create_bucket_cell. obeys; by split.
Qed.

(** X8.  The bucket cell, whatever the outside world answers: it pickles
    a name only into "pickled_data/builtin_bucket_name.pickle" and only
    after [create_bucket] succeeded for that very name, so a failed
    creation leaves no pickle behind; and the name it returns is one it
    loaded from the pickle or one whose bucket it created. *)
Theorem bucket_cell_pickles_created_name W (h : handler W) (w : W) :
  (forall n file v,
     pickle_dumped <$> trace Preprocessing.create_bucket_cell h w !! n
       = Some (Some (file, v)) ->
     file = Preprocessing.bucket_pickle /\
     exists i, i < n /\
       bucket_created <$> trace Preprocessing.create_bucket_cell h w !! i
         = Some (Some v)) /\
  (forall b,
     outcome Preprocessing.create_bucket_cell h w = inr b ->
     exists i,
       bucket_obtained <$> trace Preprocessing.create_bucket_cell h w !! i
         = Some (Some b)).
Proof.
  split.
  - intros n file v Hn.
    destruct (obeys_run _ _ _ _ (@create_bucket_cell_obeys_pickle W) h w)
      as [Hacc _].
    destruct (trace Preprocessing.create_bucket_cell h w !! n) as [ev |] eqn:Hev;
      [| discriminate].
    injection Hn as Hn.
    pose proof (accepts_lookup _ _ _ _ _ Hacc Hev) as Hallow.
    simpl in Hallow. rewrite Hn in Hallow. destruct Hallow as [-> Hs].
    split; [reflexivity |]. by apply latest_before in Hs.
  - intros b Hb.
    destruct (obeys_run _ _ _ _ (@create_bucket_cell_obeys_upload W) h w)
      as [_ Hout].
    rewrite Hb in Hout. apply latest_found in Hout as (i & _ & Hi). by exists i.
Qed.

Lemma bucket_cell_pickles_created_name_witness :
  exists i,
    bucket_obtained <$> trace Preprocessing.create_bucket_cell demo_world 0 !! i
      = Some (Some "sagemaker-builtin-ic-uuid-1").
Proof.
  apply (proj2 (bucket_cell_pickles_created_name nat demo_world 0)).
  vm_compute. reflexivity.
Defined.

Lemma collect_all {X} (f : event -> option X) (j : list event) :
  foldl (collect f) [] j = omap f j.
Proof.
  induction j as [| ev j IH] using rev_ind; [reflexivity |].
  rewrite foldl_app, omap_app, IH. simpl. unfold collect.
  destruct (f ev); simpl; [reflexivity | by rewrite app_nil_r].
Qed.

(** An earlier entry with a value is among the values collected. *)
Lemma collect_before {X} (f : event -> option X) (j : list event) i n x :
  i < n -> f <$> j !! i = Some (Some x) ->
  x ∈ foldl (collect f) [] (take n j).
Proof.
  intros Hi Hx. rewrite collect_all. apply list_elem_of_omap.
  destruct (j !! i) as [ev |] eqn:Hev; [| discriminate].
  injection Hx as Hx. exists ev. split; [| exact Hx].
  apply list_elem_of_lookup. exists i. by rewrite lookup_take_lt.
Qed.

(** ** The training job joins the experiment *)

Lemma trial_created_requested ev e t :
  trial_created ev = Some (e, t) -> trial_requested ev = Some e.
Proof.
  destruct ev as [A c r]. destruct c; simpl; try discriminate.
  destruct r; [discriminate |]. by intros [= -> _].
Qed.

Lemma model_parallel_obeys_experiment {W} :
  obeys experiment_monitor None (@ModelParallel.notebook W) None (fun _ _ => True).
Proof.
  unfold ModelParallel.notebook, ModelParallel.experiment_setup.
  obeys; reflexivity.
Qed.

Lemma model_parallel_obeys_trial {W} :
  obeys trial_monitor None (@ModelParallel.notebook W) None (fun _ _ => True).
Proof.
  unfold ModelParallel.notebook, ModelParallel.experiment_setup.
  obeys; by eexists _, _.
Qed.

(** X9.  In the model-parallel notebook, whatever the outside world
    answers: the [experiment_config] of the training job names the
    experiment that the set-up cell created or loaded and the trial that
    [Trial.create] returned, and that trial was created in this same
    experiment; the three calls come in this order. *)
Theorem training_job_joins_the_experiment W (h : handler W) (w : W) n args :
  fit_args <$> trace ModelParallel.notebook h w !! n = Some (Some args) ->
  exists i m e t,
    i < m /\ m < n /\
    experiment_obtained <$> trace ModelParallel.notebook h w !! i = Some (Some e) /\
    trial_created <$> trace ModelParallel.notebook h w !! m = Some (Some (e, t)) /\
    args = experiment_config e t.
Proof.
  intros Hn.
  destruct (obeys_run _ _ _ _ (@model_parallel_obeys_trial W) h w) as [Hacc _].
  destruct (obeys_run _ _ _ _ (@model_parallel_obeys_experiment W) h w) as [Hacc' _].
  set (j := trace ModelParallel.notebook h w) in *.
  destruct (j !! n) as [ev |] eqn:Hev; [| discriminate].
  injection Hn as Hn.
  pose proof (accepts_lookup _ _ _ _ _ Hacc Hev) as Hallow.
  simpl in Hallow. rewrite Hn in Hallow.
  destruct Hallow as (e & t & Hs & ->).
  apply latest_before in Hs as (m & Hm & Hf).
  destruct (j !! m) as [ev' |] eqn:Hev'; [| discriminate].
  injection Hf as Hf.
  pose proof (accepts_lookup _ _ _ _ _ Hacc' Hev') as Hallow'.
  simpl in Hallow'. rewrite (trial_created_requested _ _ _ Hf) in Hallow'.
  apply latest_before in Hallow' as (i & Hi & He).
  exists i, m, e, t. rewrite Hev'. simpl. rewrite Hf. by repeat split.
Qed.

Lemma training_job_joins_the_experiment_witness :
  exists i m e t,
    i < m /\ m < 13 /\
    experiment_obtained <$> trace ModelParallel.notebook demo_world 0 !! i
      = Some (Some e) /\
    trial_created <$> trace ModelParallel.notebook demo_world 0 !! m
      = Some (Some (e, t)) /\
    experiment_config "SM-MP-DEMO" "SMD-MP-demo-2021-01-01-00-00-00"
    = experiment_config e t.
Proof.
  apply (training_job_joins_the_experiment nat demo_world 0 13).
  vm_compute. reflexivity.
Defined.

(** ** Compiling with Neo *)







(** ** Compiling for Inf1 *)







(** ** More on the pandas operations *)

Lemma position_not_In label cols :
  ~ In label cols -> Pandas.position label cols = None.
Proof.
  induction cols as [| c cols IH]; simpl; [done |].
  intros Hin. destruct (String.eqb c label) eqn:Heq.
  - apply String.eqb_eq in Heq. tauto.
  - rewrite IH; [reflexivity | tauto].
Qed.

Lemma position_Some_In label cols j :
  Pandas.position label cols = Some j -> In label cols.
Proof.
  destruct (in_dec string_dec label cols) as [Hin | Hin]; [done |].
  by rewrite position_not_In.
Qed.

(** The rows sampled are rows of the frame, so their labels can be
    dropped from it. *)
Lemma drop_sampled_rows (data : frame) (picked : list nat) :
  exists test,
    Pandas.drop_rows (Pandas.index (Pandas.take_rows picked data)) data = inr test /\
    columns test = columns data.
Proof.
  unfold Pandas.drop_rows.
  assert (forallb (fun l => Pandas.mem_nat l (Pandas.index data))
            (Pandas.index (Pandas.take_rows picked data)) = true) as ->.
  { apply forallb_forall. intros l Hl. apply mem_nat_In.
    unfold Pandas.index, Pandas.take_rows in *. simpl in Hl.
    apply in_map_iff in Hl as (r & <- & Hr).
    apply list_elem_of_In, list_elem_of_omap in Hr as (i & _ & Hi).
    apply in_map. apply list_elem_of_In. by eapply list_elem_of_lookup_2. }
  eexists. split; reflexivity.
Qed.

Lemma drop_label_column (test : frame) :
  In AutoGluon.label (columns test) ->
  exists X, Pandas.drop_columns [AutoGluon.label] test = inr X.
Proof.
  intros Hy. unfold Pandas.drop_columns. simpl forallb.
  apply mem_str_In in Hy. rewrite Hy. simpl. eauto.
Qed.

Lemma split_cell_result (data : frame) (picked : list nat) :
  (~ In AutoGluon.label (columns data) ->
   AutoGluon.split_cell data picked = inl (Exn "KeyError" "y")) /\
  (In AutoGluon.label (columns data) ->
   exists s, AutoGluon.split_cell data picked = inr s /\
     AutoGluon.train s = Pandas.take_rows picked data /\
     Pandas.drop_rows (Pandas.index (AutoGluon.train s)) data
       = inr (AutoGluon.test s) /\
     Pandas.column AutoGluon.label (AutoGluon.test s) = inr (AutoGluon.y_test s) /\
     Pandas.drop_columns [AutoGluon.label] (AutoGluon.test s)
       = inr (AutoGluon.X_test s)).
Proof.
  destruct (drop_sampled_rows data picked) as (test & Hdrop & Hcols).
  unfold AutoGluon.split_cell. rewrite Hdrop. split.
  - intros Hno. unfold Pandas.column. rewrite Hcols.
    by rewrite position_not_In.
  - intros Hy. rewrite <- Hcols in Hy.
    destruct (position_In _ _ Hy) as [j Hj].
    destruct (drop_label_column test Hy) as [X HX].
    unfold Pandas.column at 1. rewrite Hj, HX.
    eexists. split; [reflexivity |]. simpl.
    unfold Pandas.column. rewrite Hj. by repeat split.
Qed.

Lemma split_cell_label data picked s :
  AutoGluon.split_cell data picked = inr s -> In AutoGluon.label (columns data).
Proof.
  intros Hs. destruct (in_dec string_dec AutoGluon.label (columns data)) as [H | H];
    [exact H |].
  destruct (split_cell_result data picked) as [Hfail _].
  rewrite Hfail in Hs by exact H. discriminate.
Qed.

(** X14.  The split cell fails for one reason only: it raises
    [KeyError('y')], and nothing else, exactly when the data has no
    column 'y', whatever positions the sampling returned (repeated or out
    of range ones included); with a column 'y' it always succeeds.  When
    it succeeds, [train] holds the sampled rows, [test] is the data
    without the index labels of [train], [y_test] is the column 'y' of
    [test] and [X_test] is [test] without that column. *)
Theorem split_cell_fails_without_label (data : frame) (picked : list nat) :
  (forall e,
     AutoGluon.split_cell data picked = inl e <->
     ~ In AutoGluon.label (columns data) /\ e = Exn "KeyError" "y") /\
  (In AutoGluon.label (columns data) <->
   exists s, AutoGluon.split_cell data picked = inr s) /\
  (forall s,
     AutoGluon.split_cell data picked = inr s ->
     AutoGluon.train s = Pandas.take_rows picked data /\
     Pandas.drop_rows (Pandas.index (AutoGluon.train s)) data
       = inr (AutoGluon.test s) /\
     Pandas.column AutoGluon.label (AutoGluon.test s) = inr (AutoGluon.y_test s) /\
     Pandas.drop_columns [AutoGluon.label] (AutoGluon.test s)
       = inr (AutoGluon.X_test s)).
Proof.
  destruct (split_cell_result data picked) as [Hfail Hok].
  destruct (in_dec string_dec AutoGluon.label (columns data)) as [Hy | Hno].
  - destruct (Hok Hy) as (s & Hs & Hparts).
    split; [| split].
    + intros e. rewrite Hs. split; [discriminate | tauto].
    + split; [eauto | intros _; exact Hy].
    + intros s' Hs'. rewrite Hs in Hs'. by injection Hs' as <-.
  - specialize (Hfail Hno). split; [| split].
    + intros e. rewrite Hfail. split.
      * intros [= <-]. by split.
      * by intros [_ ->].
    + split; [tauto |]. intros [s Hs]. rewrite Hfail in Hs. discriminate.
    + intros s Hs. rewrite Hfail in Hs. discriminate.
Qed.

Lemma split_cell_fails_without_label_witness :
  AutoGluon.train
    (AutoGluon.Split
       (Frame ["age"; "y"] [(2, ["52"; "no"]); (0, ["30"; "no"])])
       (Frame ["age"; "y"] [(1, ["41"; "yes"]); (3, ["28"; "yes"])])
       [(1, "yes"); (3, "yes")]
       (Frame ["age"] [(1, ["41"]); (3, ["28"])]))
  = Pandas.take_rows [2; 0] (Pandas.read_frame sample_csv).
Proof.
  apply (proj2 (proj2 (split_cell_fails_without_label
                         (Pandas.read_frame sample_csv) [2; 0]))).
  vm_compute. reflexivity.
Defined.

(** ** Dropping columns keeps the other columns *)

Lemma keep_cells_nil cols labels : Pandas.keep_cells cols labels [] = [].
Proof. unfold Pandas.keep_cells. by destruct cols. Qed.

Lemma keep_cells_cons c cols labels v cells :
  Pandas.keep_cells (c :: cols) labels (v :: cells)
  = if Pandas.mem_str c labels then Pandas.keep_cells cols labels cells
    else v :: Pandas.keep_cells cols labels cells.
Proof.
  unfold Pandas.keep_cells. simpl. by destruct (Pandas.mem_str c labels).
Qed.

Lemma mem_str_eqb (c d : string) labels :
  String.eqb d c = true -> Pandas.mem_str d labels = Pandas.mem_str c labels.
Proof. intros H. apply String.eqb_eq in H. by subst. Qed.

(** Where a kept column ends up, and that its cells move with it. *)
Lemma position_after_drop (c : string) (labels cols : list string) :
  Pandas.mem_str c labels = false ->
  match Pandas.position c cols with
  | None =>
      Pandas.position c
        (List.filter (fun d => negb (Pandas.mem_str d labels)) cols) = None
  | Some j' =>
      exists j,
        Pandas.position c
          (List.filter (fun d => negb (Pandas.mem_str d labels)) cols) = Some j /\
        forall cells, Pandas.keep_cells cols labels cells !! j = cells !! j'
  end.
Proof.
  intros Hc. induction cols as [| d cols IH]; simpl; [reflexivity |].
  destruct (String.eqb d c) eqn:Hd.
  - rewrite (mem_str_eqb c d labels Hd), Hc. simpl. rewrite Hd.
    exists 0. split; [reflexivity |].
    intros [| v cells]; [by rewrite keep_cells_nil |].
    rewrite keep_cells_cons, (mem_str_eqb c d labels Hd), Hc. reflexivity.
  - destruct (Pandas.mem_str d labels) eqn:Hdl; simpl.
    + destruct (Pandas.position c cols) as [j' |]; simpl; [| exact IH].
      destruct IH as (j & Hj & Hcells). exists j. split; [exact Hj |].
      intros [| v cells]; [by rewrite keep_cells_nil |].
      rewrite keep_cells_cons, Hdl. simpl. apply Hcells.
    + rewrite Hd.
      destruct (Pandas.position c cols) as [j' |]; simpl.
      * destruct IH as (j & -> & Hcells). exists (S j). split; [reflexivity |].
        intros [| v cells]; [by rewrite keep_cells_nil |].
        rewrite keep_cells_cons, Hdl. simpl. apply Hcells.
      * by rewrite IH.
Qed.

Lemma position_dropped (c : string) (labels cols : list string) :
  Pandas.mem_str c labels = true ->
  Pandas.position c
    (List.filter (fun d => negb (Pandas.mem_str d labels)) cols) = None.
Proof.
  intros Hc. apply position_not_In. intros Hin.
  apply filter_In in Hin as [_ Hin]. by rewrite Hc in Hin.
Qed.

Lemma forallb_false_witness {A} (p : A -> bool) (l : list A) :
  forallb p l = false -> exists x, In x l /\ p x = false.
Proof.
  induction l as [| x l IH]; simpl; [discriminate |].
  destruct (p x) eqn:Hx; simpl.
  - intros H. destruct (IH H) as (y & Hy & Hp). eauto.
  - intros _. eauto.
Qed.

Lemma drop_columns_result (labels : list string) (f : frame) :
  (Pandas.drop_columns labels f = inl (Exn "KeyError" "labels not found in axis")
   <-> exists l, In l labels /\ ~ In l (columns f)) /\
  (forall X, Pandas.drop_columns labels f = inr X ->
     Pandas.index X = Pandas.index f /\
     (forall c, In c labels -> Pandas.column c X = inl (Exn "KeyError" c)) /\
     (forall c, ~ In c labels -> Pandas.column c X = Pandas.column c f)).
Proof.
  unfold Pandas.drop_columns.
  destruct (forallb (fun l => Pandas.mem_str l (columns f)) labels) eqn:Hall.
  - split.
    + split; [discriminate |]. intros (l & Hl & Hno).
      rewrite forallb_forall in Hall. apply Hall, mem_str_In in Hl. tauto.
    + intros X [= <-]. split; [| split].
      * unfold Pandas.index. simpl. rewrite map_map. reflexivity.
      * intros c Hc. unfold Pandas.column. simpl.
        rewrite position_dropped; [reflexivity | by apply mem_str_In].
      * intros c Hc. unfold Pandas.column. simpl.
        assert (Pandas.mem_str c labels = false) as Hmem.
        { destruct (Pandas.mem_str c labels) eqn:H; [| reflexivity].
          apply mem_str_In in H. tauto. }
        pose proof (position_after_drop c labels (columns f) Hmem) as Hpos.
        destruct (Pandas.position c (columns f)) as [j' |].
        -- destruct Hpos as (j & -> & Hcells). f_equal.
           rewrite map_map. apply map_ext. intros r. simpl.
           by rewrite Hcells.
        -- by rewrite Hpos.
  - split; [| discriminate]. split; [| reflexivity]. intros _.
    apply forallb_false_witness in Hall as (l & Hl & Hmem).
    exists l. split; [exact Hl |]. intros Hin.
    apply mem_str_In in Hin. congruence.
Qed.

Lemma column_index (label : string) (f : frame) (series : list (nat * string)) :
  Pandas.column label f = inr series -> map fst series = Pandas.index f.
Proof.
  unfold Pandas.column. destruct (Pandas.position label (columns f)); [| discriminate].
  intros [= <-]. unfold Pandas.index. by rewrite map_map.
Qed.

(** X15.  What the split cell hands to the model and what it keeps back:
    whenever the cell succeeds, [X_test] and [y_test] have the index of
    [test], row for row; selecting 'y' from [X_test] raises
    [KeyError('y')]; and every other column reads the same from [X_test]
    as from [test], cell for cell.  So the features sent to the endpoint
    contain nothing of the label and lose nothing else. *)
Theorem X_test_hides_only_the_label (data : frame) (picked : list nat)
  (s : AutoGluon.split) :
  AutoGluon.split_cell data picked = inr s ->
  Pandas.index (AutoGluon.X_test s) = Pandas.index (AutoGluon.test s) /\
  map fst (AutoGluon.y_test s) = Pandas.index (AutoGluon.test s) /\
  Pandas.column "y" (AutoGluon.test s) = inr (AutoGluon.y_test s) /\
  Pandas.column "y" (AutoGluon.X_test s) = inl (Exn "KeyError" "y") /\
  (forall c, c <> "y" ->
     Pandas.column c (AutoGluon.X_test s) = Pandas.column c (AutoGluon.test s)).
Proof.
  intros Hs.
  destruct (split_cell_result data picked) as [_ Hok].
  destruct (Hok (split_cell_label _ _ _ Hs)) as (s' & Hs' & _ & _ & Hy & HX).
  rewrite Hs in Hs'. injection Hs' as <-.
  destruct (drop_columns_result [AutoGluon.label] (AutoGluon.test s))
    as [_ Hdrop].
  destruct (Hdrop _ HX) as (Hindex & Hgone & Hkept).
  split; [exact Hindex |]. split; [by eapply column_index |].
  split; [exact Hy |]. split.
  - apply Hgone. by left.
  - intros c Hc. apply Hkept. intros [Heq | []]. by apply Hc.
Qed.

Lemma X_test_hides_only_the_label_witness :
  Pandas.column "y" (Frame ["age"] [(1, ["41"]); (3, ["28"])])
  = inl (Exn "KeyError" "y").
Proof.
  apply (X_test_hides_only_the_label (Pandas.read_frame sample_csv) [2; 0]
           (AutoGluon.Split
              (Frame ["age"; "y"] [(2, ["52"; "no"]); (0, ["30"; "no"])])
              (Frame ["age"; "y"] [(1, ["41"; "yes"]); (3, ["28"; "yes"])])
              [(1, "yes"); (3, "yes")]
              (Frame ["age"] [(1, ["41"]); (3, ["28"])]))).
  vm_compute. reflexivity.
Defined.

(** ** The data of the AutoGluon notebook *)

Lemma collect2_all {X Y} (f : event -> option X) (g : event -> option Y) j :
  foldl (collect2 f g) ([], []) j = (omap f j, omap g j).
Proof.
  induction j as [| ev j IH] using rev_ind; [reflexivity |].
  rewrite foldl_app, !omap_app, IH. simpl. unfold collect2, collect. simpl.
  destruct (f ev), (g ev); simpl; by rewrite ?app_nil_r.
Qed.

Lemma omap_before {X} (f : event -> option X) (j : list event) i n x :
  i < n -> f <$> j !! i = Some (Some x) -> x ∈ omap f (take n j).
Proof. intros Hi Hx. rewrite <- collect_all. by eapply collect_before. Qed.

Lemma autogluon_obeys_split {W} :
  obeys split_monitor ([], []) (@AutoGluon.notebook W) ([], []) (fun _ _ => True).
Proof.
  unfold AutoGluon.notebook. obeys.
  all: eexists; split; [eassumption |]; unfold split_file; auto.
Qed.

Lemma autogluon_obeys_train {W} :
  obeys train_monitor None (@AutoGluon.notebook W) None (fun _ _ => True).
Proof. unfold AutoGluon.notebook. obeys. all: by eexists. Qed.

Lemma autogluon_obeys_transform {W} :
  obeys transform_monitor None (@AutoGluon.notebook W) None (fun _ _ => True).
Proof. unfold AutoGluon.notebook. obeys. all: reflexivity. Qed.

Lemma autogluon_obeys_label {W} :
  obeys label_monitor [] (@AutoGluon.notebook W) [] (fun _ _ => True).
Proof.
  unfold AutoGluon.notebook. obeys.
  all: first [ by right; eexists
             | left; eapply (split_cell_label (Pandas.read_frame _)); eassumption ].
Qed.

(** X12.  The data path of the AutoGluon notebook, whatever the outside
    world answers: every file written with [to_csv] is one of the three
    parts of the split of the table that [read_csv] returned, at the
    positions that [sample] returned ("train.csv" holds [train],
    "test.csv" holds [test], "X_test.csv" holds [X_test]); the training
    job reads the S3 path that [upload_data] returned for "train.csv";
    the batch transform reads the path returned for "test.csv". *)
Theorem autogluon_data_path W (h : handler W) (w : W) :
  let j := trace AutoGluon.notebook h w in
  (forall i m n csv picked written,
     i < n -> m < n ->
     csv_read <$> j !! i = Some (Some csv) ->
     sampled <$> j !! m = Some (Some picked) ->
     csv_written <$> j !! n = Some (Some written) ->
     exists sp,
       AutoGluon.split_cell (Pandas.read_frame csv) picked = inr sp /\
       split_file sp written) /\
  (forall n args,
     fit_args <$> j !! n = Some (Some args) ->
     exists i p, i < n /\
       uploaded_as "train.csv" <$> j !! i = Some (Some p) /\
       args = training_inputs p) /\
  (forall n data,
     transform_input <$> j !! n = Some (Some data) ->
     exists i, i < n /\ uploaded_as "test.csv" <$> j !! i = Some (Some data)).
Proof.
  intros j. split; [| split].
  - intros i m n csv picked written Hi Hm Hcsv Hpicked Hn.
    destruct (obeys_run _ _ _ _ (@autogluon_obeys_split W) h w) as [Hacc _].
    fold j in Hacc.
    destruct (j !! n) as [ev |] eqn:Hev; [| discriminate].
    injection Hn as Hn.
    pose proof (accepts_lookup _ _ _ _ _ Hacc Hev) as Hallow.
    simpl in Hallow. rewrite Hn in Hallow. unfold seen in Hallow.
    simpl in Hallow. rewrite collect2_all in Hallow.
    pose proof (omap_before csv_read j i n csv Hi Hcsv) as Hin1.
    pose proof (omap_before sampled j m n picked Hm Hpicked) as Hin2.
    destruct (omap csv_read (take n j)) as [| csv' [| ? ?]]; [done | | done].
    destruct (omap sampled (take n j)) as [| picked' [| ? ?]]; [done | | done].
    apply list_elem_of_singleton in Hin1, Hin2. by subst.
  - intros n args Hn.
    destruct (obeys_run _ _ _ _ (@autogluon_obeys_train W) h w) as [Hacc _].
    fold j in Hacc.
    destruct (j !! n) as [ev |] eqn:Hev; [| discriminate].
    injection Hn as Hn.
    pose proof (accepts_lookup _ _ _ _ _ Hacc Hev) as Hallow.
    simpl in Hallow. rewrite Hn in Hallow.
    destruct Hallow as (p & Hs & ->).
    apply latest_before in Hs as (i & Hi & Hf). by exists i, p.
  - intros n data Hn.
    destruct (obeys_run _ _ _ _ (@autogluon_obeys_transform W) h w) as [Hacc _].
    fold j in Hacc.
    destruct (j !! n) as [ev |] eqn:Hev; [| discriminate].
    injection Hn as Hn.
    pose proof (accepts_lookup _ _ _ _ _ Hacc Hev) as Hallow.
    simpl in Hallow. rewrite Hn in Hallow.
    by apply latest_before in Hallow.
Qed.

(** X13.  A table without the label column stops the AutoGluon
    notebook: after [read_csv] has returned a table that has no column
    'y', the only call the notebook still makes is the sampling call;
    nothing is written to disk, uploaded, trained or deployed. *)
Theorem autogluon_stops_without_label W (h : handler W) (w : W) i n csv ev :
  i < n ->
  csv_read <$> trace AutoGluon.notebook h w !! i = Some (Some csv) ->
  ~ In AutoGluon.label (fst csv) ->
  trace AutoGluon.notebook h w !! n = Some ev ->
  is_Some (sample_request ev) /\
  csv_written ev = None /\ fit_args ev = None /\ deployed ev = None /\
  forall file, uploaded_as file ev = None.
Proof.
  intros Hi Hcsv Hno Hev.
  destruct (obeys_run _ _ _ _ (@autogluon_obeys_label W) h w) as [Hacc _].
  pose proof (accepts_lookup _ _ _ _ _ Hacc Hev) as Hallow.
  simpl in Hallow. unfold seen in Hallow. simpl in Hallow.
  pose proof (collect_before csv_read _ i n csv Hi Hcsv) as Hin.
  destruct (foldl (collect csv_read) [] (take n (trace AutoGluon.notebook h w)))
    as [| csv' [| ? ?]]; [by apply elem_of_nil in Hin | | done].
  apply list_elem_of_singleton in Hin. subst csv'.
  destruct Hallow as [Hy | Hs]; [done |].
  split; [exact Hs |].
  destruct ev as [A c r]. destruct c; simpl in Hs; by destruct Hs.
Qed.

Lemma autogluon_stops_without_label_witness :
  is_Some (sample_request (Ev (SampleRows 1 "0.7" 42) (inr [0]))).
Proof.
  pose (h := fun A (c : effect A) (n : nat) =>
               match c in effect A return (exn + A) * nat with
               | ReadCsv _ => (inr (["age"; "job"], [["30"; "clerk"]]), S n)
               | SampleRows _ _ _ => (inr [0], S n)
               | c => demo_world _ c n
               end).
  apply (autogluon_stops_without_label nat h 0 10 11
           (["age"; "job"], [["30"; "clerk"]])
           (Ev (SampleRows 1 "0.7" 42) (inr [0]))).
  - lia.
  - vm_compute. reflexivity.
  - simpl. intros [H | [H | []]]; discriminate.
  - vm_compute. reflexivity.
Defined.

Lemma autogluon_data_path_witness :
  exists i p, i < 19 /\
    uploaded_as "train.csv" <$> trace AutoGluon.notebook demo_world 0 !! i
      = Some (Some p) /\
    training_inputs "s3://sagemaker-us-west-2-123456789012/sagemaker/autogluon-tabular/data/train.csv"
    = training_inputs p.
Proof.
  apply (proj1 (proj2 (autogluon_data_path nat demo_world 0)) 19).
  vm_compute. reflexivity.
Defined.

(** ** The invocation loops *)

(** Where an element of [omap f j] comes from. *)
Lemma omap_cons_unfold {X} (f : event -> option X) ev (j : list event) :
  omap f (ev :: j)
  = match f ev with
    | Some y => y :: omap f j
    | None => omap f j
    end.
Proof. reflexivity. Qed.

Lemma omap_lookup_inv {X} (f : event -> option X) (j : list event) c x :
  omap f j !! c = Some x ->
  exists n ev, j !! n = Some ev /\ f ev = Some x /\
    length (omap f (take n j)) = c.
Proof.
  revert c. induction j as [| ev j IH]; intros c.
  - intros H. by destruct c.
  - rewrite omap_cons_unfold. destruct (f ev) as [y |] eqn:Hy.
    + destruct c as [| c].
      * intros [= ->]. by exists 0, ev.
      * intros Hc. destruct (IH c Hc) as (n & ev' & Hn & Hf & Hlen).
        exists (S n), ev'. split; [exact Hn |]. split; [exact Hf |].
        change (take (S n) (ev :: j)) with (ev :: take n j).
        rewrite omap_cons_unfold, Hy. simpl. by rewrite Hlen.
    + intros Hc. destruct (IH c Hc) as (n & ev' & Hn & Hf & Hlen).
      exists (S n), ev'. split; [exact Hn |]. split; [exact Hf |].
      change (take (S n) (ev :: j)) with (ev :: take n j).
      by rewrite omap_cons_unfold, Hy.
Qed.

Lemma invoke_mnist_obeys {W} (p : predictor) (mnist : datasets) :
  obeys (invoke_monitor (endpoint p) instances (images (ds_test mnist))) []
    (@invoke_mnist W p mnist) []
    (fun _ s => length s = 10 /\
                10 <= length (images (ds_test mnist)) /\
                10 <= length (labels (ds_test mnist))).
Proof.
  unfold invoke_mnist. simpl for_each. obeys.
  all: try (split; [lia | eexists; split; [eassumption | reflexivity]]).
  split; [reflexivity |].
  split; eapply (lookup_lt_Some _ 9); eassumption.
Qed.

Lemma inf1_invoke_obeys {W} (p : predictor) (mnist : datasets) :
  obeys (invoke_monitor (endpoint p) (fun img => img) (images (ds_test mnist))) []
    (@Inf1.invoke W p mnist) []
    (fun _ s => length s = 10 /\
                10 <= length (images (ds_test mnist)) /\
                10 <= length (labels (ds_test mnist))).
Proof.
  unfold Inf1.invoke. simpl for_each. obeys.
  all: try (split; [lia | eexists; split; [eassumption | reflexivity]]).
  split; [reflexivity |].
  split; eapply (lookup_lt_Some _ 9); eassumption.
Qed.

Lemma invoke_requests {W} (m : M W unit) ep payload imgs
  (Q : unit -> list (string * pyval) -> Prop) :
  obeys (invoke_monitor ep payload imgs) [] m [] Q ->
  forall (h : handler W) (w : W) c call,
    predict_calls (trace m h w) !! c = Some call ->
    c < 10 /\ exists img, imgs !! c = Some img /\ call = (ep, payload img).
Proof.
  intros Hm h w c call Hc.
  destruct (obeys_run _ _ _ _ Hm h w) as [Hacc _].
  apply omap_lookup_inv in Hc as (n & ev & Hev & Hcall & Hlen).
  pose proof (accepts_lookup _ _ _ _ _ Hacc Hev) as Hallow.
  simpl in Hallow. rewrite Hcall in Hallow. unfold seen in Hallow.
  simpl in Hallow. rewrite collect_all, Hlen in Hallow. exact Hallow.
Qed.

(** X16.  The two invocation loops, whatever the endpoint answers.  The
    loop of the Neo notebook sends at most ten requests, all to the
    predictor's endpoint; request number [c] carries
    [{"instances": mnist.test.images[c]}], in this order, never an image
    twice or out of order.  The loop of the Inf1 notebook does the same
    with the bare image as payload.  Neither loop checks the size of the
    data set: it returns normally only after ten requests, which needs
    ten test images and ten labels; with fewer it ends in an exception. *)
Theorem invocation_loops_send_first_ten W (h : handler W) (w : W)
  (p : predictor) (mnist : datasets) :
  let imgs := images (ds_test mnist) in
  (forall c call,
     predict_calls (trace (invoke_mnist p mnist) h w) !! c = Some call ->
     c < 10 /\
     exists img, imgs !! c = Some img /\ call = (endpoint p, instances img)) /\
  (forall c call,
     predict_calls (trace (Inf1.invoke p mnist) h w) !! c = Some call ->
     c < 10 /\ exists img, imgs !! c = Some img /\ call = (endpoint p, img)) /\
  (outcome (invoke_mnist p mnist) h w = inr tt ->
   length (predict_calls (trace (invoke_mnist p mnist) h w)) = 10 /\
   10 <= length imgs /\ 10 <= length (labels (ds_test mnist))) /\
  (outcome (Inf1.invoke p mnist) h w = inr tt ->
   length (predict_calls (trace (Inf1.invoke p mnist) h w)) = 10 /\
   10 <= length imgs /\ 10 <= length (labels (ds_test mnist))).
Proof.
  intros imgs. split; [| split; [| split]].
  - apply (invoke_requests _ _ _ _ _ (invoke_mnist_obeys p mnist)).
  - apply (invoke_requests _ _ _ _ _ (inf1_invoke_obeys p mnist)).
  - intros Hout.
    destruct (obeys_run _ _ _ _ (@invoke_mnist_obeys W p mnist) h w) as [_ HQ].
    rewrite Hout in HQ. unfold seen in HQ. simpl in HQ.
    by rewrite collect_all in HQ.
  - intros Hout.
    destruct (obeys_run _ _ _ _ (@inf1_invoke_obeys W p mnist) h w) as [_ HQ].
    rewrite Hout in HQ. unfold seen in HQ. simpl in HQ.
    by rewrite collect_all in HQ.
Qed.

Lemma invocation_loops_send_first_ten_witness :
  length (predict_calls (trace (invoke_mnist (Predictor "endpoint-10" [])
                                  demo_datasets) demo_world 0)) = 10.
Proof.
  apply (proj1 (proj2 (proj2 (invocation_loops_send_first_ten nat demo_world 0
                  (Predictor "endpoint-10" []) demo_datasets)))).
  vm_compute. reflexivity.
Defined.

(** ** Pinning the SDK and rolling back *)

Lemma ascii_compare_nat (a b : ascii) :
  Ascii.compare a b = Nat.compare (nat_of_ascii a) (nat_of_ascii b).
Proof.
  unfold Ascii.compare, nat_of_ascii. by rewrite N2Nat.inj_compare.
Qed.

(** ['2' <= v] on strings looks at the first character only. *)
Lemma version_test (v : string) :
  String.leb "2" v = true <-> Sdk.starts_at_2 v.
Proof.
  unfold String.leb. destruct v as [| c rest]; simpl; [done |].
  rewrite ascii_compare_nat.
  change (nat_of_ascii "2") with 50.
  destruct (Nat.compare_spec 50 (nat_of_ascii c)) as [Heq | Hlt | Hgt].
  - destruct rest; simpl; split; intros _; (done || lia).
  - split; intros _; (done || lia).
  - split; [discriminate | lia].
Qed.

Lemma pin_sdk_new (w : Sdk.state) :
  Sdk.starts_at_2 (Sdk.running w) ->
  run Inf1.pin_sdk Sdk.service w
  = (inr tt,
     Kernel (Sdk.State (Sdk.running w)
               (<[Inf1.version_file := Sdk.running w]> (Sdk.disk w))
               (Sdk.installs w ++ [Sdk.pin_command])%list)
       [Ev SdkVersion (inr (Sdk.running w));
        Ev SdkVersion (inr (Sdk.running w));
        Ev (FileWrite Inf1.version_file (Sdk.running w)) (inr tt);
        Ev (Shell Sdk.pin_command) (inr tt);
        Ev SdkVersion (inr (Sdk.running w))]).
Proof.
  intros Hv. apply version_test in Hv.
  unfold run, Inf1.pin_sdk, bind, perform. simpl. rewrite Hv. reflexivity.
Qed.

Lemma pin_sdk_old (w : Sdk.state) :
  ~ Sdk.starts_at_2 (Sdk.running w) ->
  run Inf1.pin_sdk Sdk.service w
  = (inr tt,
     Kernel w [Ev SdkVersion (inr (Sdk.running w));
               Ev SdkVersion (inr (Sdk.running w))]).
Proof.
  intros Hv. rewrite <- version_test in Hv. apply not_true_is_false in Hv.
  unfold run, Inf1.pin_sdk, bind, perform. simpl. rewrite Hv. reflexivity.
Qed.

Lemma rollback_sdk_present (w : Sdk.state) (v : string) :
  Sdk.disk w !! Inf1.version_file = Some v ->
  run Inf1.rollback_sdk Sdk.service w
  = (inr tt,
     Kernel (Sdk.State (Sdk.running w)
               (delete Inf1.version_file (Sdk.disk w))
               (Sdk.installs w ++ [Sdk.rollback_command v])%list)
       [Ev (PathExists Inf1.version_file) (inr true);
        Ev (FileRead Inf1.version_file) (inr v);
        Ev (Shell ("pip install sagemaker==" ++ v)) (inr tt);
        Ev (FileRemove Inf1.version_file) (inr tt)]).
Proof.
  intros Hf. unfold run, Inf1.rollback_sdk, bind, perform.
  cbn -[Inf1.version_file String.append]. rewrite Hf.
  rewrite bool_decide_eq_true_2 by eauto.
  cbn -[Inf1.version_file String.append]. rewrite Hf.
  cbn -[Inf1.version_file String.append]. rewrite Hf. reflexivity.
Qed.

Lemma rollback_sdk_absent (w : Sdk.state) :
  Sdk.disk w !! Inf1.version_file = None ->
  run Inf1.rollback_sdk Sdk.service w
  = (inr tt, Kernel w [Ev (PathExists Inf1.version_file) (inr false)]).
Proof.
  intros Hf. unfold run, Inf1.rollback_sdk, bind, perform.
  cbn -[Inf1.version_file]. rewrite Hf.
  rewrite bool_decide_eq_false_2 by (intros [? ?]; discriminate).
  reflexivity.
Qed.

(** X17.  The version cells of the Inf1 notebook against a kernel and
    its disk, starting without "orig_sm_version.txt".  The test
    [sagemaker.__version__ >= '2'] compares text, so it looks at the first
    character only (a version "10.0" counts as older than 2).  When it
    holds, the first cell stores the running version in the file and
    requests the 1.x SDK; the rollback cell, run later in a kernel of
    whatever version, requests exactly the stored version again and
    removes the file, leaving the disk as it was.  When it does not hold,
    the first cell changes nothing and the rollback cell does nothing. *)
Theorem pin_and_rollback (w : Sdk.state) :
  Sdk.disk w !! Inf1.version_file = None ->
  let w1 := world (snd (run Inf1.pin_sdk Sdk.service w)) in
  (String.leb "2" (Sdk.running w) = true <-> Sdk.starts_at_2 (Sdk.running w)) /\
  (Sdk.starts_at_2 (Sdk.running w) ->
   Sdk.disk w1 !! Inf1.version_file = Some (Sdk.running w) /\
   Sdk.installs w1 = (Sdk.installs w ++ [Sdk.pin_command])%list /\
   forall later,
     let w2 := world (snd (run Inf1.rollback_sdk Sdk.service
                             (Sdk.restart later w1))) in
     Sdk.disk w2 = Sdk.disk w /\
     Sdk.installs w2
     = (Sdk.installs w ++ [Sdk.pin_command;
                           Sdk.rollback_command (Sdk.running w)])%list) /\
  (~ Sdk.starts_at_2 (Sdk.running w) ->
   w1 = w /\
   world (snd (run Inf1.rollback_sdk Sdk.service w1)) = w1 /\
   trace Inf1.rollback_sdk Sdk.service w1
   = [Ev (PathExists Inf1.version_file) (inr false)]).
Proof.
  intros Hfile w1. split; [apply version_test |]. split.
  - intros Hv. subst w1. rewrite (pin_sdk_new w Hv). simpl.
    split; [apply lookup_insert_eq |]. split; [reflexivity |].
    intros later.
    rewrite (rollback_sdk_present _ (Sdk.running w)); last first.
    { simpl. apply lookup_insert_eq. }
    simpl. split.
    + by rewrite delete_insert_eq, delete_id.
    + by rewrite <- app_assoc.
  - intros Hv. subst w1. rewrite (pin_sdk_old w Hv). simpl.
    unfold trace. rewrite (rollback_sdk_absent w Hfile). by repeat split.
Qed.

Lemma pin_and_rollback_witness :
  Sdk.disk (world (snd (run Inf1.rollback_sdk Sdk.service
     (Sdk.restart "1.72.0"
        (world (snd (run Inf1.pin_sdk Sdk.service (Sdk.State "2.16.1" ∅ []))))))))
  = ∅.
Proof.
  assert (Sdk.starts_at_2 "2.16.1") as Hv by (vm_compute; lia).
  destruct (pin_and_rollback (Sdk.State "2.16.1" ∅ []) (lookup_empty _))
    as (_ & Hnew & _).
  destruct (Hnew Hv) as (_ & _ & Hback).
  exact (proj1 (Hback "1.72.0")).
Defined.

(** ** A complete run leaves no endpoint behind *)

(** An endpoint that was deployed is deleted later or still in service. *)
Lemma ep_run_leftover (l : list ep_action) : forall s s' d ep,
  ep_run s l = Some s' -> l !! d = Some (Deployed ep) ->
  (exists x, d < x /\ l !! x = Some (Deleted ep)) \/ is_Some (s' !! ep).
Proof.
  induction l as [| a l IH] using rev_ind; intros s s' d ep Hrun Hd.
  - by rewrite lookup_nil in Hd.
  - rewrite ep_run_app in Hrun.
    destruct (ep_run s l) as [s1 |] eqn:Hl; [| discriminate].
    simpl in Hrun.
    destruct (ep_step s1 a) as [s2 |] eqn:Hstep; [| discriminate].
    injection Hrun as ->.
    assert (is_Some (s1 !! ep) ->
            (exists x, d < x /\ (l ++ [a])%list !! x = Some (Deleted ep))
            \/ is_Some (s' !! ep)
            \/ a = Deleted ep) as Hkeep.
    { intros [b Hb]. destruct a as [ep' | ep' | ep' |]; simpl in Hstep.
      - injection Hstep as <-. right. left.
        destruct (decide (ep' = ep)) as [-> | Hne];
          [rewrite lookup_insert_eq | rewrite lookup_insert_ne by done]; eauto.
      - destruct (s1 !! ep'); [| discriminate]. injection Hstep as <-.
        right. left.
        destruct (decide (ep' = ep)) as [-> | Hne];
          [rewrite lookup_insert_eq | rewrite lookup_insert_ne by done]; eauto.
      - destruct (decide (ep' = ep)) as [-> | Hne]; [by right; right |].
        destruct (s1 !! ep') as [[|] |]; try discriminate.
        injection Hstep as <-. right. left.
        rewrite lookup_delete_ne by done. eauto.
      - injection Hstep as <-. right. left. eauto. }
    destruct (decide (d < length l)) as [Hlt | Hge].
    + rewrite lookup_app_l in Hd by exact Hlt.
      destruct (IH s s1 d ep Hl Hd) as [(x & Hx & Hdel) | Hin].
      * left. exists x. split; [exact Hx |].
        rewrite lookup_app_l; [exact Hdel | by eapply lookup_lt_Some].
      * destruct (Hkeep Hin) as [H | [H | ->]]; [by left | by right |].
        left. exists (length l). split; [exact Hlt |].
        rewrite lookup_app_r by lia. by rewrite Nat.sub_diag.
    + assert (d = length l) as ->.
      { apply lookup_lt_Some in Hd. rewrite length_app in Hd. simpl in Hd. lia. }
      rewrite lookup_app_r in Hd by lia. rewrite Nat.sub_diag in Hd.
      injection Hd as ->. simpl in Hstep. injection Hstep as <-.
      right. rewrite lookup_insert_eq. eauto.
Qed.

Ltac endpoints_gone :=
  repeat first [ rewrite delete_insert_eq | rewrite delete_empty ];
  reflexivity.

Lemma safe_repository_clean nb W : In nb repository ->
  safe (nb_code nb W) ∅ (fun _ s => s = ∅).
Proof.
  unfold repository. simpl.
  intros [<- | [<- | [<- | [<- | [<- | [<- | [<- | []]]]]]]]; simpl.
  - unfold ModelParallel.notebook, ModelParallel.experiment_setup. safe.
  - unfold Preprocessing.notebook, Preprocessing.create_bucket_cell,
      Preprocessing.write_lst.
    safe.
  - unfold AutoGluon.notebook. safe. endpoints_gone.
  - unfold Neo.notebook, invoke_mnist. safe. endpoints_gone.
  - unfold Inf1.notebook, Inf1.invoke, Inf1.pin_sdk, Inf1.rollback_sdk. safe.
    all: endpoints_gone.
  - unfold TensorFlowHub.notebook, TensorFlowHub.sample_utils. safe.
    endpoints_gone.
  - unfold ElasticInference.notebook. safe. endpoints_gone.
Qed.

(** X18.  No notebook leaves an endpoint behind when it runs to the end:
    in every notebook and whatever the outside world answers, if the run
    returns normally then every endpoint that a [deploy] call created is
    deleted by a later [delete_endpoint] call.  There is no [try] /
    [finally] around the calls in between, so this needs the normal
    return: when a [predict] raises, the endpoint stays in service (shown
    for the Elastic Inference notebook in a world where the [predict]
    call fails). *)
Theorem complete_runs_delete_their_endpoints :
  (forall nb, In nb repository ->
   forall W (h : handler W) (w : W) d ep,
     outcome (nb_code nb W) h w = inr tt ->
     map ep_action_of (trace (nb_code nb W) h w) !! d = Some (Deployed ep) ->
     exists x, d < x /\
       map ep_action_of (trace (nb_code nb W) h w) !! x = Some (Deleted ep)) /\
  (let acts := map ep_action_of
                 (trace (@ElasticInference.notebook nat) (outage 6 client_error) 0) in
   outcome (@ElasticInference.notebook nat) (outage 6 client_error) 0
     = inl client_error /\
   acts !! 4 = Some (Deployed "endpoint-4") /\
   forall x, acts !! x <> Some (Deleted "endpoint-4")).
Proof.
  split.
  - intros nb Hnb W h w d ep Hout Hd.
    pose proof (safe_repository_clean nb W Hnb h (Kernel w []) eq_refl) as Hsafe.
    unfold outcome, trace, run in *.
    destruct (nb_code nb W h (Kernel w [])) as [[e | []] k']; [discriminate |].
    destruct Hsafe as (s' & Hk' & ->). unfold tracked in Hk'. simpl in *.
    destruct (ep_run_leftover _ _ _ _ _ Hk' Hd) as [H | [b Hb]]; [exact H |].
    by rewrite lookup_empty in Hb.
  - cbv zeta. split; [vm_compute; reflexivity |].
    split; [vm_compute; reflexivity |].
    intros x. do 8 (destruct x as [| x]; [vm_compute; discriminate |]).
    vm_compute. discriminate.
Qed.

Lemma complete_runs_delete_their_endpoints_witness :
  exists x, 4 < x /\
    map ep_action_of (trace (nb_code elastic_inference nat) demo_world 0) !! x
    = Some (Deleted "endpoint-4").
Proof.
  apply (proj1 complete_runs_delete_their_endpoints elastic_inference).
  - unfold repository. simpl. tauto.
  - vm_compute. reflexivity.
  - vm_compute. reflexivity.
Defined.

(** ** Listing before creating or loading *)

Lemma experiment_setup_obeys_listing {W} :
  obeys listing_monitor None (@ModelParallel.experiment_setup W) None
    (fun _ _ => True).
Proof.
  unfold ModelParallel.experiment_setup.
  apply obeys_bind, obeys_perform.
  intros [e | names]; (split; [by split |]); [exact I |].
  cbn -[ModelParallel.experiment_name].
  destruct (existsb (String.eqb ModelParallel.experiment_name) names) eqn:Hex;
    cbn -[ModelParallel.experiment_name]; obeys.
  all: try by split.
  - split; [exact I |]. split; [reflexivity |]. exists names.
    split; [reflexivity |]. by apply list_elem_of_In, existsb_eqb_elem_of.
  - split; [exact I |]. split; [reflexivity |]. exists names.
    split; [reflexivity |]. by apply list_elem_of_In, existsb_eqb_elem_of.
  - split; [| exact I]. split; [reflexivity |]. exists names.
    split; [reflexivity |]. intros Hin.
    apply list_elem_of_In, existsb_eqb_elem_of in Hin. congruence.
  - split; [| exact I]. split; [reflexivity |]. exists names.
    split; [reflexivity |]. intros Hin.
    apply list_elem_of_In, existsb_eqb_elem_of in Hin. congruence.
Qed.

(** X19.  The experiment set-up cell, whatever the outside world
    answers: it never creates the experiment after a listing that shows
    its name and never loads it after a listing that does not; whichever
    it does, it does for the name "SM-MP-DEMO" and after the listing; and
    the name it returns is the one [create] or [load] returned. *)
Theorem experiment_setup_follows_the_listing W (h : handler W) (w : W) :
  let j := trace ModelParallel.experiment_setup h w in
  (forall n name,
     create_request <$> j !! n = Some (Some name) ->
     name = ModelParallel.experiment_name /\
     exists i names, i < n /\
       experiment_listing <$> j !! i = Some (Some names) /\ ~ In name names) /\
  (forall n name,
     load_request <$> j !! n = Some (Some name) ->
     name = ModelParallel.experiment_name /\
     exists i names, i < n /\
       experiment_listing <$> j !! i = Some (Some names) /\ In name names) /\
  (forall e,
     outcome ModelParallel.experiment_setup h w = inr e ->
     exists i, experiment_obtained <$> j !! i = Some (Some e)).
Proof.
  intros j.
  destruct (obeys_run _ _ _ _ (@experiment_setup_obeys_listing W) h w) as [Hacc _].
  fold j in Hacc. split; [| split].
  - intros n name Hn.
    destruct (j !! n) as [ev |] eqn:Hev; [| discriminate].
    injection Hn as Hn.
    destruct (accepts_lookup _ _ _ _ _ Hacc Hev) as [Hallow _].
    simpl in Hallow. rewrite Hn in Hallow.
    destruct Hallow as (-> & names & Hs & Hno).
    split; [reflexivity |].
    apply latest_before in Hs as (i & Hi & Hf). by exists i, names.
  - intros n name Hn.
    destruct (j !! n) as [ev |] eqn:Hev; [| discriminate].
    injection Hn as Hn.
    destruct (accepts_lookup _ _ _ _ _ Hacc Hev) as [_ Hallow].
    simpl in Hallow. rewrite Hn in Hallow.
    destruct Hallow as (-> & names & Hs & Hin).
    split; [reflexivity |].
    apply latest_before in Hs as (i & Hi & Hf). by exists i, names.
  - intros e He.
    assert (obeys (Monitor (latest experiment_obtained) (fun _ _ => True)) None
              (@ModelParallel.experiment_setup W) None
              (fun e s => s = Some e)) as Hm.
    { unfold ModelParallel.experiment_setup. obeys; reflexivity. }
    destruct (obeys_run _ _ _ _ Hm h w) as [_ Hout].
    rewrite He in Hout. apply latest_found in Hout as (i & _ & Hi). by exists i.
Qed.

Lemma experiment_setup_follows_the_listing_witness :
  exists i, experiment_obtained <$> trace ModelParallel.experiment_setup demo_world 0 !! i
            = Some (Some "SM-MP-DEMO").
Proof.
  apply (proj2 (proj2 (experiment_setup_follows_the_listing nat demo_world 0))).
  vm_compute. reflexivity.
Defined.

(** ** The TensorFlow Serving notebooks *)

Lemma tensorflow_hub_obeys_model_data {W} :
  obeys model_data_monitor None (@TensorFlowHub.notebook W) None (fun _ _ => True).
Proof.
  unfold TensorFlowHub.notebook, TensorFlowHub.sample_utils. obeys.
  all: by eexists.
Qed.

Lemma tensorflow_hub_obeys_labels {W} :
  obeys labels_monitor None (@TensorFlowHub.notebook W) None (fun _ _ => True).
Proof.
  unfold TensorFlowHub.notebook, TensorFlowHub.sample_utils. obeys.
  all: by eexists.
Qed.

Lemma tensorflow_hub_obeys_print {W} :
  obeys print_monitor None (@TensorFlowHub.notebook W) None (fun _ _ => True).
Proof.
  unfold TensorFlowHub.notebook, TensorFlowHub.sample_utils. obeys.
  all: by eexists.
Qed.

Lemma tensorflow_hub_obeys_relabel {W} :
  obeys relabel_monitor None (@TensorFlowHub.notebook W) None (fun _ _ => True).
Proof.
  unfold TensorFlowHub.notebook, TensorFlowHub.sample_utils. obeys.
  all: by eexists.
Qed.

Lemma elastic_inference_obeys_region {W} :
  obeys region_monitor None (@ElasticInference.notebook W) None (fun _ _ => True).
Proof. unfold ElasticInference.notebook. obeys. all: by eexists. Qed.

(** From a monitor that remembers the latest value to positions. *)
Lemma latest_allows {W X Y} (f : event -> option X) (g : event -> option Y)
  (R : X -> Y -> Prop) (m : M W unit) :
  obeys (Monitor (latest f)
           (fun s ev =>
              match g ev with
              | Some y => exists x, s = Some x /\ R x y
              | None => True
              end)) None m None (fun _ _ => True) ->
  forall (h : handler W) (w : W) n y,
    g <$> trace m h w !! n = Some (Some y) ->
    exists i x, i < n /\ f <$> trace m h w !! i = Some (Some x) /\ R x y.
Proof.
  intros Hm h w n y Hn.
  destruct (obeys_run _ _ _ _ Hm h w) as [Hacc _].
  destruct (trace m h w !! n) as [ev |] eqn:Hev; [| discriminate].
  injection Hn as Hn.
  pose proof (accepts_lookup _ _ _ _ _ Hacc Hev) as Hallow.
  simpl in Hallow. rewrite Hn in Hallow.
  destruct Hallow as (x & Hs & HR).
  apply latest_before in Hs as (i & Hi & Hf). by exists i, x.
Qed.

(** X20.  How values are handed on in the two TensorFlow Serving
    notebooks, whatever the outside world answers.  TensorFlow Hub: the
    [Model] is built from the S3 path that [upload_data] returned for
    "mobilenet.tar.gz"; each call of [add_imagenet_labels] and each call
    of [print_probabilities_and_labels] is given the response of the
    [predict] call before it (the value [add_imagenet_labels] returns is
    not used), and the printing call comes after a labelling call with
    the same argument.  Elastic Inference: the [Model] is
    built from the ResNet archive in the sample-data bucket of the region
    read from the boto3 session. *)
Theorem serving_notebooks_hand_values_on W (h : handler W) (w : W) :
  (forall n data,
     model_data_of <$> trace TensorFlowHub.notebook h w !! n = Some (Some data) ->
     exists i p, i < n /\
       uploaded_as "mobilenet.tar.gz" <$> trace TensorFlowHub.notebook h w !! i
         = Some (Some p) /\
       data = Some (PStr p)) /\
  (forall n args,
     sample_utils_args "add_imagenet_labels"
       <$> trace TensorFlowHub.notebook h w !! n = Some (Some args) ->
     exists i v, i < n /\
       predict_response <$> trace TensorFlowHub.notebook h w !! i = Some (Some v) /\
       args = [v]) /\
  (forall n args,
     sample_utils_args "print_probabilities_and_labels"
       <$> trace TensorFlowHub.notebook h w !! n = Some (Some args) ->
     exists i v, i < n /\
       predict_response <$> trace TensorFlowHub.notebook h w !! i = Some (Some v) /\
       args = [v]) /\
  (forall n args,
     sample_utils_args "print_probabilities_and_labels"
       <$> trace TensorFlowHub.notebook h w !! n = Some (Some args) ->
     exists i labelled, i < n /\
       sample_utils_args "add_imagenet_labels"
         <$> trace TensorFlowHub.notebook h w !! i = Some (Some labelled) /\
       args = labelled) /\
  (forall n data,
     model_data_of <$> trace ElasticInference.notebook h w !! n = Some (Some data) ->
     exists i region, i < n /\
       region_read <$> trace ElasticInference.notebook h w !! i
         = Some (Some region) /\
       data = Some (PStr (ElasticInference.saved_model region))).
Proof.
  split; [| split; [| split; [| split]]].
  - apply (latest_allows _ _ (fun p data => data = Some (PStr p)) _
             (@tensorflow_hub_obeys_model_data W)).
  - apply (latest_allows _ _ (fun v args => args = [v]) _
             (@tensorflow_hub_obeys_labels W)).
  - apply (latest_allows _ _ (fun v args => args = [v]) _
             (@tensorflow_hub_obeys_print W)).
  - apply (latest_allows _ _ (fun labelled args => args = labelled) _
             (@tensorflow_hub_obeys_relabel W)).
  - apply (latest_allows _ _
             (fun region data =>
                data = Some (PStr (ElasticInference.saved_model region))) _
             (@elastic_inference_obeys_region W)).
Qed.

Lemma serving_notebooks_hand_values_on_witness :
  exists i v, i < 14 /\
    predict_response <$> trace TensorFlowHub.notebook in_place_world 0 !! i
      = Some (Some v) /\
    [PDict [("predictions", PList [PInt 7])]] = [v].
Proof.
  apply (proj1 (proj2 (proj2
           (serving_notebooks_hand_values_on nat in_place_world 0))) 14).
  vm_compute. reflexivity.
Defined.

(** ** The manifest of a structured image tree *)

Lemma part_from_end_app (pre : path) (a b c : string) :
  part_from_end (pre ++ [a; b; c])%list 2 = inr b /\
  part_from_end (pre ++ [a; b; c])%list 3 = inr a.
Proof.
  assert (length (pre ++ [a; b; c])%list = length pre + 3) as Hlen
    by (rewrite length_app; reflexivity).
  split; apply part_from_end_inr; rewrite Hlen; (split; [lia |]); unfold path.
  - replace (length pre + 3 - 2) with (length pre + 1) by lia.
    rewrite lookup_app_r by lia.
    by replace (length pre + 1 - length pre) with 1 by lia.
  - replace (length pre + 3 - 3) with (length pre + 0) by lia.
    rewrite lookup_app_r by lia.
    by replace (length pre + 0 - length pre) with 0 by lia.
Qed.

Lemma category_known (category_labels : list (nat * string)) (category : string) :
  In category (Preprocessing.values category_labels) ->
  exists id, Preprocessing.category_ids category_labels !! category = Some id.
Proof.
  intros Hin. rewrite category_ids_unfold.
  apply index_dict_is_Some. rewrite sorted_perm. by apply list_elem_of_In.
Qed.

(** X21.  For the directory layout the notebooks build,
    <root>/<split>/<category>/<image> with every category directory
    named in [category_labels], the manifest loop cannot fail on its own:
    on a disk where appending succeeds it returns normally after exactly
    one append per image, and the line of the image at position [i] goes
    to "<split>.lst" and names the id of its category and its path. *)
Theorem manifest_of_structured_tree {W} (h : handler W) (w : W)
  (category_labels : list (nat * string)) (image_paths : list path) :
  appends_succeed h ->
  (forall p, In p image_paths ->
     exists pre split category file,
       p = (pre ++ [split; category; file])%list /\
       In category (Preprocessing.values category_labels)) ->
  let cell := Preprocessing.write_lst
                (Preprocessing.category_ids category_labels) image_paths in
  outcome cell h w = inr tt /\
  length (file_appends (trace cell h w)) = length image_paths /\
  forall i pre split category file,
    image_paths !! i = Some (pre ++ [split; category; file])%list ->
    exists id,
      Preprocessing.category_ids category_labels !! category = Some id /\
      file_appends (trace cell h w) !! i
      = Some (split ++ ".lst",
              pad10 i ++ tab ++ decimal id ++ tab
                ++ as_posix (pre ++ [split; category; file])%list ++ newline).
Proof.
  intros Hh Htree cell.
  assert (forall j q, image_paths !! j = Some q ->
            exists entry,
              Preprocessing.lst_entry (Preprocessing.category_ids category_labels)
                (0 + j) q = inr entry) as Hall.
  { intros j q Hq.
    destruct (Htree q) as (pre & split & category & file & -> & Hcat).
    { apply list_elem_of_In. by eapply list_elem_of_lookup_2. }
    destruct (category_known _ _ Hcat) as [id Hid].
    destruct (part_from_end_app pre split category file) as [H2 H3].
    unfold Preprocessing.lst_entry. cbv zeta. rewrite H2, Hid, H3. eauto. }
  pose proof (write_lst_completes_from h _ Hh image_paths 0 (Kernel w []) Hall)
    as [Hout Hlen].
  split; [exact Hout |]. split; [exact Hlen |].
  intros i pre split category file Hi.
  destruct (Htree _ (proj1 (list_elem_of_In _ _) (list_elem_of_lookup_2 _ _ _ Hi)))
    as (pre' & split' & category' & file' & Heq & Hcat).
  assert (In category (Preprocessing.values category_labels)) as Hcat'.
  { apply (f_equal (fun l => part_from_end l 2)) in Heq.
    rewrite (proj1 (part_from_end_app pre split category file)) in Heq.
    rewrite (proj1 (part_from_end_app pre' split' category' file')) in Heq.
    by injection Heq as ->. }
  destruct (category_known _ _ Hcat') as [id Hid]. exists id.
  split; [exact Hid |].
  unfold cell. rewrite (write_lst_appends h w category_labels image_paths Hh).
  assert (length (manifest category_labels image_paths) = length image_paths)
    as Hfull.
  { rewrite <- (write_lst_appends h w category_labels image_paths Hh).
    exact Hlen. }
  destruct (lookup_lt_is_Some_2 (manifest category_labels image_paths) i)
    as [entry Hentry].
  { rewrite Hfull. by eapply lookup_lt_Some. }
  rewrite Hentry. f_equal.
  apply manifest_from_lookup in Hentry as (p & Hp & He).
  pose proof (eq_trans (eq_sym Hi) Hp) as Hsame. injection Hsame as <-.
  simpl in He.
  destruct (part_from_end_app pre split category file) as [H2 H3].
  unfold Preprocessing.lst_entry in He. cbv zeta in He.
  rewrite H2, Hid, H3 in He. by injection He as <-.
Qed.

Lemma manifest_of_structured_tree_witness :
  outcome (Preprocessing.write_lst (Preprocessing.category_ids sample_labels)
             sample_paths) demo_world 0 = inr tt.
Proof.
  apply (manifest_of_structured_tree demo_world 0 sample_labels sample_paths
           demo_world_appends).
  intros p Hp. simpl in Hp.
  destruct Hp as [<- | [<- | [<- | []]]].
  - exists ["data_structured"], "train", "dog", "rex.jpg". simpl. tauto.
  - exists ["data_structured"], "val", "cat", "tom.jpg". simpl. tauto.
  - exists ["data_structured"], "train", "cat", "kit.jpg". simpl. tauto.
Defined.
